(** * OmniTech: the analysis request orchestrator of [src/App.jsx]

    A shallow embedding of the second (current) [App] component of
    [src/src/App.jsx]: the client-side rate guard, the demo fallback, the
    result handler, the analysis call and the report generator, together
    with the view conditions that enable or disable the controls.

    React state ([useState]) and refs ([useRef]) are fields of one record
    that every handler takes and returns.  The state updates of one
    synchronous run are applied in the order they are written, and what is
    read afterwards (and rendered) is the last value of each field.  The
    collaborators the component talks to (the network, Firestore, speech
    synthesis) are recorded as traces in the same record, so that "no request
    was issued" or "nothing was saved" are statements about those traces.

    An [async] function is split at its suspension point into the part that
    runs up to the [fetch] and the part that runs when the response has
    arrived; what the second part still reads from the closure of the first
    ([mode], [demoStep], [user]) travels with the suspended call.  Clock
    reads, what the camera and the canvas give and the response are inputs.
    An exception that leaves an [async] function rejects its promise, which
    no caller awaits: the state updates made so far stay, the rest of the
    function does not run, and the rejection is counted in a trace.

    A string is the UTF-8 encoding of the JavaScript string: white space is
    recognised by code point, [slice] counts UTF-16 units.  The Web Speech
    API declares no exception for [cancel], [speak] or the utterance
    constructor, so [speak] is total.  Voice input, camera focus,
    authentication and the markup are outside the model. *)

From Stdlib Require Import ZArith List Bool Lia Ascii String.
From Stdlib Require Import Numbers.DecimalString Numbers.DecimalZ Numbers.DecimalPos.
Import ListNotations.

Set Primitive Projections.

Open Scope string_scope.
Open Scope Z_scope.
Open Scope list_scope.

(** ** Configuration constants (App.jsx, CONFIG block) *)

Definition DEMO_MODE : bool := true.
Definition COOLDOWN_MS : Z := 2500.
Definition MAX_CALLS_PER_MIN : nat := 8.

(** ** JavaScript helpers *)

(** The double-quote character, for texts that quote a word. *)
Definition dq : string := String (ascii_of_nat 34) EmptyString.

(** Truthiness of a possibly absent string: [undefined] and the empty string
    are falsy. *)
Definition truthy (o : option string) : bool :=
  match o with
  | Some s => negb (s =? "")%string
  | None => false
  end.

(** [o || d] for a possibly absent string [o]. *)
Definition or_else (o : option string) (d : string) : string :=
  match o with
  | Some s => if (s =? "")%string then d else s
  | None => d
  end.

(** Template-literal rendering of an integer. *)
Definition show_Z (z : Z) : string := NilZero.string_of_int (Z.to_int z).

(** The integer a decimal text denotes. *)
Definition read_Z (digits : string) : option Z :=
  option_map Z.of_int (NilZero.int_of_string digits).

(** [Math.ceil(a / b)] for integers [a] and [b > 0]. *)
Definition ceil_div (a b : Z) : Z := - ((- a) / b).

(** [Array.prototype.join]. *)
Definition join (sep : string) (l : list string) : string := String.concat sep l.

(** The value of a byte. *)
Definition code (c : ascii) : N := N_of_ascii c.

Definition chr (n : N) : ascii := ascii_of_N n.

(** White space as [String.prototype.trim] and the class [\s] of a regular
    expression know it, by the bytes of its encoding: U+0009 to U+000D and
    U+0020 in one byte; *)
Definition is_space (c : ascii) : bool :=
  let n := nat_of_ascii c in
  (Nat.eqb n 32 || (Nat.leb 9 n && Nat.leb n 13))%bool.

(** U+00A0 in two; *)
Definition is_space2 (a b : ascii) : bool :=
  ((code a =? 194) && (code b =? 160))%N%bool.

(** U+1680, U+2000 to U+200A, U+2028, U+2029, U+202F, U+205F, U+3000 and
    U+FEFF in three. *)
Definition is_space3 (a b c : ascii) : bool :=
  (((code a =? 225) && (code b =? 154) && (code c =? 128))
   || ((code a =? 226) && (code b =? 128)
       && (((128 <=? code c) && (code c <=? 138))
           || (code c =? 168) || (code c =? 169) || (code c =? 175)))
   || ((code a =? 226) && (code b =? 129) && (code c =? 159))
   || ((code a =? 227) && (code b =? 128) && (code c =? 128))
   || ((code a =? 239) && (code b =? 187) && (code c =? 191)))%N%bool.

(** What follows the white-space character [s] starts with, if it starts
    with one. *)
Definition ws_head (s : string) : option string :=
  match s with
  | String a r1 =>
      if is_space a then Some r1
      else match r1 with
           | String b r2 =>
               if is_space2 a b then Some r2
               else match r2 with
                    | String c r3 => if is_space3 a b c then Some r3 else None
                    | EmptyString => None
                    end
           | EmptyString => None
           end
  | EmptyString => None
  end.

(** [s.trimStart()]. *)
Fixpoint trim_left (s : string) : string :=
  match s with
  | String a r1 =>
      if is_space a then trim_left r1
      else match r1 with
           | String b r2 =>
               if is_space2 a b then trim_left r2
               else match r2 with
                    | String c r3 => if is_space3 a b c then trim_left r3 else s
                    | EmptyString => s
                    end
           | EmptyString => s
           end
  | EmptyString => EmptyString
  end.

(** [s.trimEnd()]: [s] is cut where nothing but white space follows. *)
Fixpoint trim_right (s : string) : string :=
  match s with
  | String c r =>
      if (trim_left s =? "")%string then EmptyString else String c (trim_right r)
  | EmptyString => EmptyString
  end.

Definition trim (s : string) : string := trim_right (trim_left s).

(** The first half of a character outside the basic plane, for a [slice]
    that cuts its two UTF-16 units apart: the high surrogate, in the
    three-byte form. *)
Definition high_surrogate (a b c d : ascii) : string :=
  let cp := ((code a - 240) * 262144 + (code b - 128) * 4096
             + (code c - 128) * 64 + (code d - 128))%N in
  let hi := (55296 + (cp - 65536) / 1024)%N in
  String (chr 237)
    (String (chr (128 + (hi / 64) mod 64)%N)
       (String (chr (128 + hi mod 64)%N) EmptyString)).

(** [s.slice(0, n)] on a string: its first [n] UTF-16 units.  A character
    of one to three bytes is one unit, a character of four bytes two. *)
Fixpoint str_slice0 (n : nat) (s : string) {struct s} : string :=
  match n, s with
  | O, _ => EmptyString
  | _, EmptyString => EmptyString
  | S n1, String a r1 =>
      if (code a <? 192)%N then String a (str_slice0 n1 r1)
      else if (code a <? 224)%N then
        match r1 with
        | String b r2 => String a (String b (str_slice0 n1 r2))
        | EmptyString => s
        end
      else if (code a <? 240)%N then
        match r1 with
        | String b (String c r3) => String a (String b (String c (str_slice0 n1 r3)))
        | _ => s
        end
      else
        match r1 with
        | String b (String c (String d r4)) =>
            match n1 with
            | O => high_surrogate a b c d
            | S n2 => String a (String b (String c (String d (str_slice0 n2 r4))))
            end
        | _ => s
        end
  end.

(** [text.replace(/\.\s+/g, ". … ")]: every full stop followed by white
    space becomes a full stop, an ellipsis between two blanks, and the white
    space is dropped.  [skipping] is set while that white space is passed
    over. *)
Fixpoint pauses (skipping : bool) (s : string) : string :=
  match s with
  | String a r1 =>
      let emit :=
        if (Ascii.eqb a "."%char
            && match ws_head r1 with Some _ => true | None => false end)%bool
        then (". … " ++ pauses true r1)%string
        else String a (pauses false r1) in
      if skipping then
        if is_space a then pauses true r1
        else match r1 with
             | String b r2 =>
                 if is_space2 a b then pauses true r2
                 else match r2 with
                      | String c r3 => if is_space3 a b c then pauses true r3 else emit
                      | EmptyString => emit
                      end
             | EmptyString => emit
             end
      else emit
  | EmptyString => EmptyString
  end.

(** ** JSON values *)

(** What [JSON.parse] can yield.  A number is kept as an integer: all the
    code reads of a number is whether it is zero.  The members of an object
    are in the order of the text; of two members with one name the later one
    counts. *)
#[local] Set Warnings "-register-all".

Inductive Json :=
| JNull
| JBool (b : bool)
| JNum (n : Z)
| JStr (s : string)
| JArr (items : list Json)
| JObj (members : list (string * Json)).

(** Truthiness of a value. *)
Definition js_truthy (v : Json) : bool :=
  match v with
  | JNull => false
  | JBool b => b
  | JNum n => negb (n =? 0)
  | JStr s => negb (s =? "")%string
  | JArr _ => true
  | JObj _ => true
  end.

(** Truthiness of a property that may be missing ([undefined]). *)
Definition truthy_value (o : option Json) : bool :=
  match o with
  | Some v => js_truthy v
  | None => false
  end.

(** [o[k]] on the members of an object. *)
Fixpoint member (k : string) (o : list (string * Json)) : option Json :=
  match o with
  | [] => None
  | (k', v) :: rest =>
      match member k rest with
      | Some w => Some w
      | None => if (k' =? k)%string then Some v else None
      end
  end.

(** Truthiness of [v?.length]: arrays and strings have a length, an object
    has the member of that name if any, nothing else has one. *)
Definition has_length (o : option Json) : bool :=
  match o with
  | Some (JArr items) => negb (Nat.eqb (List.length items) 0)
  | Some (JStr s) => negb (s =? "")%string
  | Some (JObj members) => truthy_value (member "length" members)
  | _ => false
  end.

(** An array of strings. *)
Definition strings (l : list string) : Json := JArr (map JStr l).

(** ** Data model *)

Inductive Mode := safety_check | diagnosis | repair_guide.

(** [mode === "repair_guide"]. *)
Definition is_repair_guide (mode : Mode) : bool :=
  match mode with
  | repair_guide => true
  | _ => false
  end.

(** The object the service (or the demo fallback) answers with.  A member
    the JSON text leaves out is [None].  The four descriptive members, when
    present, are strings, as the output format of the prompt has them;
    [repair_steps], which the code tests for truthiness, is any value
    ([null] included); [extras] holds the members with other names, in the
    order of the text.  (A parsed value that is no object reads, through
    [result?.field], like an object without the five members; what a spread
    copies of it, nothing of [null], of a number or of a boolean, the
    elements of an array and the characters of a string under their indices,
    is in [extras].) *)
Record AnalysisResult := mkResult {
  status : option string;
  headline : option string;
  reasoning : option string;
  action_required : option string;
  repair_steps : option Json;
  extras : list (string * Json)
}.

(** The own properties of a result, as a spread copies them. *)
Definition optional {A : Type} (k : string) (f : A -> Json) (o : option A)
    : list (string * Json) :=
  match o with
  | Some v => [(k, f v)]
  | None => []
  end.

Definition properties (r : AnalysisResult) : list (string * Json) :=
  optional "status" JStr (status r)
  ++ optional "headline" JStr (headline r)
  ++ optional "reasoning" JStr (reasoning r)
  ++ optional "action_required" JStr (action_required r)
  ++ optional "repair_steps" (fun v => v) (repair_steps r)
  ++ extras r.

Record LogEntry := mkLog {
  source : string;
  message : string;
  time : string
}.

Inductive ToastType := toast_error | toast_success.

Record Toast := mkToast {
  toast_message : string;
  toast_type : ToastType
}.

(** ** Demo fallback (App.jsx, [getDemoResult]) *)

Definition demo_repair_steps : list string :=
  [ "Power off the device and unplug it (if safe).";
    "Inspect connectors for looseness or debris.";
    "Reseat the cable firmly and check for damage.";
    "Power on and re-test the system behavior.";
    "If issue persists, replace the cable/component." ].

Definition demo0 : AnalysisResult :=
  mkResult (Some "DANGER") (Some "Liquid Hazard Near Electronics")
    (Some "A container of liquid is placed close to exposed electronics, increasing spill and short-circuit risk.")
    (Some "Move the liquid away and dry the area before continuing.")
    (Some (strings [])) [].

Definition demo1 : AnalysisResult :=
  mkResult (Some "UNCERTAIN") (Some "Image Quality Too Poor")
    (Some "The image is too blurry/low-detail to confirm cable condition or hazards.")
    (Some "Move closer, improve lighting, and hold still for a clear frame.")
    (Some (strings [])) [].

Definition demo2 : AnalysisResult :=
  mkResult (Some "SAFE") (Some "Environment Appears Clear")
    (Some "No immediate hazards are visible; workspace looks stable and dry.")
    (Some "Proceed with diagnosis. Keep hands dry and avoid exposed contacts.")
    (Some (strings demo_repair_steps)) [].

Definition demo : list AnalysisResult := [demo0; demo1; demo2].

(** [o === "SAFE"] for a possibly absent string. *)
Definition is_str (o : option string) (v : string) : bool :=
  match o with
  | Some s => (s =? v)%string
  | None => false
  end.

Definition getDemoResult (mode : Mode) (step : nat) : AnalysisResult :=
  let pick := nth (Nat.modulo step (List.length demo)) demo demo0 in
  match mode with
  | repair_guide =>
      mkResult (Some "SAFE") (Some "Repair Protocol Ready")
        (Some "Safety confirmed. Providing step-by-step repair guidance.")
        (Some "Follow steps carefully. Stop if heat/smoke appears.")
        (if has_length (repair_steps pick) then repair_steps pick
         else repair_steps demo2)
        []
  | diagnosis =>
      mkResult (status pick)
        (if is_str (status pick) "SAFE"
         then Some "Fault Likely: Loose Connection"
         else headline pick)
        (if is_str (status pick) "SAFE"
         then Some "Visual cues suggest an intermittent connection; reseating and inspection is recommended."
         else reasoning pick)
        (action_required pick)
        (repair_steps pick)
        (extras pick)
  | safety_check => pick
  end.

(** ** Client-side rate guard (App.jsx, [canCallNow]) *)

(** The three anti-spam refs. *)
Record RateGuard := mkGuard {
  inFlight : bool;
  lastCallAt : Z;
  callTimestamps : list Z
}.

Definition initGuard : RateGuard := mkGuard false 0 [].

(** The object [canCallNow] returns: [{ ok: true }] or [{ ok: false, reason }]. *)
Record Verdict := mkVerdict {
  ok : bool;
  reason : option string
}.

Definition accepted : Verdict := mkVerdict true None.
Definition rejected (r : string) : Verdict := mkVerdict false (Some r).

Definition reason_in_progress : string := "Request in progress...".
Definition reason_cooldown (wait : Z) : string :=
  ("Cooldown: wait " ++ show_Z wait ++ "s")%string.
Definition reason_rate_limit : string := "Rate limit: too many requests/min".

(** [now] is the value [Date.now()] returns inside the guard.  The guard
    prunes [callTimestampsRef] in place, so it returns the refs as well. *)
Definition canCallNow (now : Z) (g : RateGuard) : RateGuard * Verdict :=
  if inFlight g then (g, rejected reason_in_progress)
  else
    let delta := now - lastCallAt g in
    if delta <? COOLDOWN_MS then
      let wait := ceil_div (COOLDOWN_MS - delta) 1000 in
      (g, rejected (reason_cooldown wait))
    else
      let oneMinAgo := now - 60000 in
      let kept := filter (fun t => oneMinAgo <? t) (callTimestamps g) in
      let g' := mkGuard (inFlight g) (lastCallAt g) kept in
      if Nat.leb MAX_CALLS_PER_MIN (List.length kept)
      then (g', rejected reason_rate_limit)
      else (g', accepted).

(** Lines 960-964 of [callOmniTech]: a second clock read is recorded as the
    time of the call and the lock is taken. *)
Definition recordCall (now : Z) (g : RateGuard) : RateGuard :=
  mkGuard true now (callTimestamps g ++ [now]).

(** [inFlightRef.current = false], as the exit paths of [callOmniTech] have
    it. *)
Definition releaseLock (g : RateGuard) : RateGuard :=
  mkGuard false (lastCallAt g) (callTimestamps g).


(** ** Frame capture (App.jsx, [captureFrame]) *)

(** [s.split(c)] for a one-character separator. *)
Fixpoint splitOn (c : ascii) (s : string) : list string :=
  match s with
  | EmptyString => [EmptyString]
  | String a rest =>
      if Ascii.eqb a c then EmptyString :: splitOn c rest
      else match splitOn c rest with
           | piece :: pieces => String a piece :: pieces
           | [] => [String a EmptyString]
           end
  end.

(** What [captureFrame] reads: whether the video and canvas refs are set,
    the dimensions the video reports, and the data URL the canvas produces
    once the frame is drawn on it; [None] when drawing or encoding throws
    ([getContext] gave no context, the canvas may not be read). *)
Record Optics := mkOptics {
  videoRef : bool;
  canvasRef : bool;
  videoWidth : N;
  videoHeight : N;
  dataURL : option string
}.

(** How a run of [captureFrame] ends: with an exception, or with the value
    it returns ([None] for [null] and for [undefined]). *)
Inductive Capture :=
| capture_throws
| capture_returns (imageBase64 : option string).

Definition comma : ascii := ascii_of_nat 44.

Definition captureFrame (o : Optics) : Capture :=
  if (negb (videoRef o) || negb (canvasRef o))%bool then capture_returns None
  else if (N.eqb (videoWidth o) 0 || N.eqb (videoHeight o) 0)%bool
  then capture_returns None
  else match dataURL o with
       | None => capture_throws
       | Some url => capture_returns (nth_error (splitOn comma url) 1)
       end.

(** [c] does not occur in [s]. *)
Fixpoint freeOf (c : ascii) (s : string) : Prop :=
  match s with
  | EmptyString => True
  | String a rest => Ascii.eqb a c = false /\ freeOf c rest
  end.

(** ** Collaborators, as the component sees them *)

(** Module-level values that come from the build environment and from the
    browser: [API_KEY] ([import.meta.env.VITE_GEMINI_API_KEY]), whether the
    Firestore handle [db] was initialised, and whether the browser has
    [window.speechSynthesis]. *)
Record Config := mkConfig {
  API_KEY : option string;
  db : bool;
  speechSynthesis : bool
}.

(** The body of a request to the inference service. *)
Record Request := mkRequest {
  req_mode : Mode;
  req_instruction : string;
  req_text : string;
  req_image : string
}.

(** A call of [fetch]: an analysis request or a report request. *)
Inductive NetCall :=
| AnalyzeCall (r : Request)
| ReportCall (logText : string).

(** A value of a document: the [serverTimestamp()] sentinel or plain data. *)
Inductive DocValue :=
| serverTimestamp
| plain (v : Json).

(** [o[k] = v]: a property that is there keeps its place. *)
Fixpoint assign (k : string) (v : DocValue) (o : list (string * DocValue))
    : list (string * DocValue) :=
  match o with
  | [] => [(k, v)]
  | (k', v') :: rest =>
      if (k' =? k)%string then (k, v) :: rest else (k', v') :: assign k v rest
  end.

(** [{ ...o, ...src }]: the properties of [src] are assigned one by one. *)
Definition spread (src : list (string * Json)) (o : list (string * DocValue))
    : list (string * DocValue) :=
  fold_left (fun acc kv => assign (fst kv) (plain (snd kv)) acc) src o.

Definition mode_name (mode : Mode) : string :=
  match mode with
  | safety_check => "safety_check"
  | diagnosis => "diagnosis"
  | repair_guide => "repair_guide"
  end.

(** A call of [addDoc]: the uid in the path of the [safety_events]
    collection and the object written. *)
Record SavedDoc := mkSaved {
  doc_uid : string;
  doc_data : list (string * DocValue)
}.

(** The call [handleAnalysisResult] makes: the object is
    [{ timestamp: serverTimestamp(), mode, ...result }]. *)
Definition safetyEvent (uid : string) (mode : Mode) (result : AnalysisResult)
    : SavedDoc :=
  mkSaved uid
    (spread (properties result)
       [("timestamp", serverTimestamp); ("mode", plain (JStr (mode_name mode)))]).

(** [d[k]] on the object written. *)
Fixpoint doc_get (k : string) (o : list (string * DocValue)) : option DocValue :=
  match o with
  | [] => None
  | (k', v) :: rest => if (k' =? k)%string then Some v else doc_get k rest
  end.

(** What [await response.json()] yields: [data.error] (with its optional
    message), the text of the first candidate, and what [JSON.parse] makes of
    that text once the code fences are removed ([None] when it throws). *)
Record Payload := mkPayload {
  data_error : option (option string);
  data_text : option string;
  data_parsed : option AnalysisResult
}.

(** A response: its status, what [response.text()] yields and what
    [response.json()] yields ([None] when the promise rejects). *)
Record Response := mkResponse {
  resp_status : Z;
  resp_text : option string;
  resp_json : option Payload
}.

Definition resp_ok (r : Response) : bool :=
  (200 <=? resp_status r) && (resp_status r <=? 299).

Inductive FetchOutcome :=
| fetch_throws
| fetch_resolves (r : Response).

(** What one synchronous run of [callOmniTech] reads from the outside: the
    two clock reads ([Date.now()] in the guard and at line 960), what
    [captureFrame] finds and the locale time string of the log entries. *)
Record Env := mkEnv {
  now_guard : Z;
  now_record : Z;
  optics : Optics;
  clock : string
}.

(** How [captureFrame()] ends in that run. *)
Definition frame (env : Env) : Capture := captureFrame (optics env).

(** ** Component state *)

Record App := mkApp {
  user : option string;
  isStreamActive : bool;
  analyzing : bool;
  systemState : string;
  logs : list LogEntry;
  currentAnalysis : option AnalysisResult;
  repairSteps : option Json;
  showRepairModal : bool;
  generatedReport : option string;
  showReportModal : bool;
  generatingReport : bool;
  activeTab : string;
  demoStep : nat;
  userContext : string;
  toast : option Toast;
  (* refs *)
  guard : RateGuard;
  (* calls made to the collaborators, newest first *)
  fetched : list NetCall;
  saved : list SavedDoc;
  spoken : list string;
  (* exceptions that have left a handler: promises rejected with nobody
     waiting for them *)
  uncaught : nat
}.

Definition initApp : App :=
  mkApp None false false "IDLE" [] None None false None false false "safety"
        0%nat "" None initGuard [] [] [] 0%nat.

Definition setUser v (s : App) : App :=
  mkApp v (isStreamActive s) (analyzing s) (systemState s) (logs s) (currentAnalysis s) (repairSteps s) (showRepairModal s) (generatedReport s) (showReportModal s) (generatingReport s) (activeTab s) (demoStep s) (userContext s) (toast s) (guard s) (fetched s) (saved s) (spoken s) (uncaught s).
Definition setIsStreamActive v (s : App) : App :=
  mkApp (user s) v (analyzing s) (systemState s) (logs s) (currentAnalysis s) (repairSteps s) (showRepairModal s) (generatedReport s) (showReportModal s) (generatingReport s) (activeTab s) (demoStep s) (userContext s) (toast s) (guard s) (fetched s) (saved s) (spoken s) (uncaught s).
Definition setAnalyzing v (s : App) : App :=
  mkApp (user s) (isStreamActive s) v (systemState s) (logs s) (currentAnalysis s) (repairSteps s) (showRepairModal s) (generatedReport s) (showReportModal s) (generatingReport s) (activeTab s) (demoStep s) (userContext s) (toast s) (guard s) (fetched s) (saved s) (spoken s) (uncaught s).
Definition setSystemState v (s : App) : App :=
  mkApp (user s) (isStreamActive s) (analyzing s) v (logs s) (currentAnalysis s) (repairSteps s) (showRepairModal s) (generatedReport s) (showReportModal s) (generatingReport s) (activeTab s) (demoStep s) (userContext s) (toast s) (guard s) (fetched s) (saved s) (spoken s) (uncaught s).
Definition setLogs v (s : App) : App :=
  mkApp (user s) (isStreamActive s) (analyzing s) (systemState s) v (currentAnalysis s) (repairSteps s) (showRepairModal s) (generatedReport s) (showReportModal s) (generatingReport s) (activeTab s) (demoStep s) (userContext s) (toast s) (guard s) (fetched s) (saved s) (spoken s) (uncaught s).
Definition setCurrentAnalysis v (s : App) : App :=
  mkApp (user s) (isStreamActive s) (analyzing s) (systemState s) (logs s) v (repairSteps s) (showRepairModal s) (generatedReport s) (showReportModal s) (generatingReport s) (activeTab s) (demoStep s) (userContext s) (toast s) (guard s) (fetched s) (saved s) (spoken s) (uncaught s).
Definition setRepairSteps v (s : App) : App :=
  mkApp (user s) (isStreamActive s) (analyzing s) (systemState s) (logs s) (currentAnalysis s) v (showRepairModal s) (generatedReport s) (showReportModal s) (generatingReport s) (activeTab s) (demoStep s) (userContext s) (toast s) (guard s) (fetched s) (saved s) (spoken s) (uncaught s).
Definition setShowRepairModal v (s : App) : App :=
  mkApp (user s) (isStreamActive s) (analyzing s) (systemState s) (logs s) (currentAnalysis s) (repairSteps s) v (generatedReport s) (showReportModal s) (generatingReport s) (activeTab s) (demoStep s) (userContext s) (toast s) (guard s) (fetched s) (saved s) (spoken s) (uncaught s).
Definition setGeneratedReport v (s : App) : App :=
  mkApp (user s) (isStreamActive s) (analyzing s) (systemState s) (logs s) (currentAnalysis s) (repairSteps s) (showRepairModal s) v (showReportModal s) (generatingReport s) (activeTab s) (demoStep s) (userContext s) (toast s) (guard s) (fetched s) (saved s) (spoken s) (uncaught s).
Definition setShowReportModal v (s : App) : App :=
  mkApp (user s) (isStreamActive s) (analyzing s) (systemState s) (logs s) (currentAnalysis s) (repairSteps s) (showRepairModal s) (generatedReport s) v (generatingReport s) (activeTab s) (demoStep s) (userContext s) (toast s) (guard s) (fetched s) (saved s) (spoken s) (uncaught s).
Definition setGeneratingReport v (s : App) : App :=
  mkApp (user s) (isStreamActive s) (analyzing s) (systemState s) (logs s) (currentAnalysis s) (repairSteps s) (showRepairModal s) (generatedReport s) (showReportModal s) v (activeTab s) (demoStep s) (userContext s) (toast s) (guard s) (fetched s) (saved s) (spoken s) (uncaught s).
Definition setActiveTab v (s : App) : App :=
  mkApp (user s) (isStreamActive s) (analyzing s) (systemState s) (logs s) (currentAnalysis s) (repairSteps s) (showRepairModal s) (generatedReport s) (showReportModal s) (generatingReport s) v (demoStep s) (userContext s) (toast s) (guard s) (fetched s) (saved s) (spoken s) (uncaught s).
Definition setDemoStep v (s : App) : App :=
  mkApp (user s) (isStreamActive s) (analyzing s) (systemState s) (logs s) (currentAnalysis s) (repairSteps s) (showRepairModal s) (generatedReport s) (showReportModal s) (generatingReport s) (activeTab s) v (userContext s) (toast s) (guard s) (fetched s) (saved s) (spoken s) (uncaught s).
Definition setUserContext v (s : App) : App :=
  mkApp (user s) (isStreamActive s) (analyzing s) (systemState s) (logs s) (currentAnalysis s) (repairSteps s) (showRepairModal s) (generatedReport s) (showReportModal s) (generatingReport s) (activeTab s) (demoStep s) v (toast s) (guard s) (fetched s) (saved s) (spoken s) (uncaught s).
Definition setToast v (s : App) : App :=
  mkApp (user s) (isStreamActive s) (analyzing s) (systemState s) (logs s) (currentAnalysis s) (repairSteps s) (showRepairModal s) (generatedReport s) (showReportModal s) (generatingReport s) (activeTab s) (demoStep s) (userContext s) v (guard s) (fetched s) (saved s) (spoken s) (uncaught s).
Definition setGuard v (s : App) : App :=
  mkApp (user s) (isStreamActive s) (analyzing s) (systemState s) (logs s) (currentAnalysis s) (repairSteps s) (showRepairModal s) (generatedReport s) (showReportModal s) (generatingReport s) (activeTab s) (demoStep s) (userContext s) (toast s) v (fetched s) (saved s) (spoken s) (uncaught s).
Definition setFetched v (s : App) : App :=
  mkApp (user s) (isStreamActive s) (analyzing s) (systemState s) (logs s) (currentAnalysis s) (repairSteps s) (showRepairModal s) (generatedReport s) (showReportModal s) (generatingReport s) (activeTab s) (demoStep s) (userContext s) (toast s) (guard s) v (saved s) (spoken s) (uncaught s).
Definition setSaved v (s : App) : App :=
  mkApp (user s) (isStreamActive s) (analyzing s) (systemState s) (logs s) (currentAnalysis s) (repairSteps s) (showRepairModal s) (generatedReport s) (showReportModal s) (generatingReport s) (activeTab s) (demoStep s) (userContext s) (toast s) (guard s) (fetched s) v (spoken s) (uncaught s).
Definition setSpoken v (s : App) : App :=
  mkApp (user s) (isStreamActive s) (analyzing s) (systemState s) (logs s) (currentAnalysis s) (repairSteps s) (showRepairModal s) (generatedReport s) (showReportModal s) (generatingReport s) (activeTab s) (demoStep s) (userContext s) (toast s) (guard s) (fetched s) (saved s) v (uncaught s).
Definition setUncaught v (s : App) : App :=
  mkApp (user s) (isStreamActive s) (analyzing s) (systemState s) (logs s) (currentAnalysis s) (repairSteps s) (showRepairModal s) (generatedReport s) (showReportModal s) (generatingReport s) (activeTab s) (demoStep s) (userContext s) (toast s) (guard s) (fetched s) (saved s) (spoken s) v.

(** ** Logging and speech (App.jsx, [addLog] and [speak]) *)

(** [tm] is [new Date().toLocaleTimeString()] at the time of the call. *)
Definition addLog (src msg typ tm : string) (s : App) : App :=
  let s1 := setLogs (mkLog src msg tm :: logs s) s in
  if ((typ =? "error")%string || (src =? "ERROR")%string)%bool
  then setToast (Some (mkToast msg toast_error)) s1
  else s1.

(** [speak] gives up without [window.speechSynthesis] and on an empty
    text; otherwise the text, with a pause after every sentence, is handed
    to the speech synthesiser. *)
Definition speak (cfg : Config) (text : string) (s : App) : App :=
  if (negb (speechSynthesis cfg) || (text =? "")%string)%bool then s
  else setSpoken (pauses false text :: spoken s) s.

(** ** Result handling (App.jsx, [handleAnalysisResult]) *)

(** [usr] is the [user] of the render whose closure runs the handler. *)
Definition handleAnalysisResult (cfg : Config) (usr : option string)
    (result : AnalysisResult) (mode : Mode) (skipSave : bool) (tm : string)
    (s : App) : App :=
  if (is_repair_guide mode && truthy_value (repair_steps result))%bool then
    setShowRepairModal true (setRepairSteps (repair_steps result) s)
  else
    let s1 := setCurrentAnalysis (Some result) s in
    let s2 := setSystemState (or_else (status result) "UNCERTAIN") s1 in
    let s3 := speak cfg (or_else (headline result) "Update" ++ ". "
                         ++ or_else (action_required result) "")%string s2 in
    let s4 := addLog "OMNITECH"
                (or_else (reasoning result) "No reasoning returned.") "info" tm s3 in
    match usr with
    | Some uid =>
        if (negb skipSave && db cfg)%bool
        then setSaved (safetyEvent uid mode result :: saved s4) s4
        else s4
    | None => s4
    end.

(** ** The analysis call (App.jsx, [callOmniTech]) *)

Definition nl : string := String (ascii_of_nat 10) EmptyString.

Definition quoted (w : string) : string := (dq ++ w ++ dq)%string.

(** The instruction text sent with a request: the fixed preamble followed by
    the task clause of the mode. *)
Definition systemInstruction (mode : Mode) : string :=
  (join nl
    [ "You are OmniTech, an autonomous field agent responsible for human safety and system diagnosis.";
      "";
      "CORE PROTOCOLS:";
      "1. REFUSAL AUTHORITY: If a hazard is present (water, live wires, fire), you MUST refuse repair instructions.";
      "2. EPISTEMIC HUMILITY: If image is blurry/dark/obstructed, return status "
        ++ quoted "UNCERTAIN" ++ ". Do not guess.";
      "";
      "OUTPUT FORMAT (JSON ONLY):";
      "{";
      "  " ++ quoted "status" ++ ": " ++ quoted "SAFE" ++ " | " ++ quoted "DANGER"
        ++ " | " ++ quoted "UNCERTAIN" ++ ",";
      "  " ++ quoted "headline" ++ ": " ++ quoted "Short 3-5 word alert" ++ ",";
      "  " ++ quoted "reasoning" ++ ": "
        ++ quoted "One concise sentence on visual evidence." ++ ",";
      "  " ++ quoted "action_required" ++ ": "
        ++ quoted "Direct instruction to user." ++ ",";
      "  " ++ quoted "repair_steps" ++ ": [" ++ quoted "Step 1" ++ ", "
        ++ quoted "Step 2" ++ "]";
      "}" ]
   ++ nl ++
   match mode with
   | safety_check => "TASK: Scan for immediate hazards."
   | diagnosis => "TASK: Diagnose likely failure. If hazard seen -> DANGER and stop."
   | repair_guide => "TASK: Provide step-by-step repair guide. Assume safety confirmed."
   end)%string.

(** What the continuation of a suspended call still holds from the render
    that started it: the mode, and the [demoStep] and [user] of that render. *)
Record Pending := mkPending {
  p_mode : Mode;
  p_demoStep : nat;
  p_user : option string
}.

(** The two statements, [setAnalyzing(false)] and the release of the lock,
    that end every path past the guard which comes to its end. *)
Definition finishCall (s : App) : App :=
  setGuard (releaseLock (guard s)) (setAnalyzing false s).

(** [callOmniTech] from its first line to the [fetch]: either the call is
    over ([None]) or a request has been issued and the call is suspended.
    [captureFrame] is called between the taking of the lock and the [try]
    block: when it throws the call is over at that line, with the state
    updates made so far and nothing else.  (The other calls of that stretch
    stay inside the component, but for [speak] on the missing-key path,
    which does not throw.) *)
Definition callOmniTech_start (cfg : Config) (env : Env) (mode : Mode)
    (manualContext : string) (s : App) : App * option Pending :=
  let (g1, v) := canCallNow (now_guard env) (guard s) in
  let s0 := setGuard g1 s in
  if negb (ok v) then
    (setToast (Some (mkToast (or_else (reason v) "") toast_error)) s0, None)
  else
    let s1 := setGuard (recordCall (now_record env) g1) s0 in
    let s2 := setAnalyzing true s1 in
    if negb (truthy (API_KEY cfg)) then
      let s3 := addLog "ERROR" "Missing VITE_GEMINI_API_KEY. Using demo output."
                  "error" (clock env) s2 in
      let demoResult := getDemoResult mode (demoStep s) in
      let s4 := setDemoStep (S (demoStep s3)) s3 in
      let s5 := handleAnalysisResult cfg (user s) demoResult mode true (clock env) s4 in
      (finishCall s5, None)
    else
      match captureFrame (optics env) with
      | capture_throws => (setUncaught (S (uncaught s2)) s2, None)
      | capture_returns imageBase64 =>
          if negb (truthy imageBase64) then
            let s3 := addLog "ERROR"
                        "Camera not ready yet. Wait 1–2 seconds after Initialize Optics."
                        "error" (clock env) s2 in
            (finishCall s3, None)
          else
            let finalContext :=
              trim (if (manualContext =? "")%string then userContext s
                    else manualContext) in
            let text := if (finalContext =? "")%string then "Analyze this scene."
                        else ("User Context: " ++ finalContext)%string in
            let req := mkRequest mode (systemInstruction mode) text
                         (or_else imageBase64 "") in
            (setFetched (AnalyzeCall req :: fetched s2) s2,
             Some (mkPending mode (demoStep s) (user s)))
      end.

(** The [catch] block of [callOmniTech]. *)
Definition connectionFailed (tm : string) (s : App) : App :=
  addLog "ERROR" "Connection to OmniTech Core failed. Check network." "error" tm s.

(** [callOmniTech] from the moment the [fetch] settles to its end.  [tm] is
    the locale time string of the log entries written on the way. *)
Definition callOmniTech_resume (cfg : Config) (p : Pending) (out : FetchOutcome)
    (tm : string) (s : App) : App :=
  match out with
  | fetch_throws => finishCall (connectionFailed tm s)
  | fetch_resolves response =>
      if resp_status response =? 429 then
        let errText := or_else (resp_text response) "" in
        let s1 := addLog "ERROR"
                    "Gemini HTTP 429 (quota/rate limit). Switching to demo output."
                    "error" tm s in
        let s2 := addLog "SYSTEM"
                    "Tip: reduce clicks / disable report / or increase quota in Google billing."
                    "info" tm s1 in
        if DEMO_MODE then
          let demoResult := getDemoResult (p_mode p) (p_demoStep p) in
          let s3 := setDemoStep (S (demoStep s2)) s2 in
          let s4 := handleAnalysisResult cfg (p_user p) demoResult (p_mode p) true tm s3 in
          let s5 := setToast
                      (Some (mkToast "Quota hit — demo fallback enabled." toast_success)) s4 in
          finishCall s5
        else
          finishCall
            (addLog "ERROR" ("Gemini HTTP 429 details: " ++ str_slice0 160 errText)%string
               "error" tm s2)
      else if negb (resp_ok response) then
        match resp_text response with
        | Some errText =>
            finishCall
              (addLog "ERROR"
                 ("Gemini HTTP " ++ show_Z (resp_status response) ++ ": "
                  ++ str_slice0 180 errText)%string "error" tm s)
        | None => finishCall (connectionFailed tm s)
        end
      else
        match resp_json response with
        | None => finishCall (connectionFailed tm s)
        | Some data =>
            match data_error data with
            | Some msg =>
                finishCall
                  (addLog "ERROR" ("Gemini error: " ++ or_else msg "Unknown error")%string
                     "error" tm s)
            | None =>
                if negb (truthy (data_text data)) then
                  finishCall (addLog "ERROR" "No response from AI. Try again." "error" tm s)
                else
                  match data_parsed data with
                  | None =>
                      finishCall
                        (addLog "ERROR" "AI response corrupted (bad JSON). Try again."
                           "error" tm s)
                  | Some result =>
                      let s1 := handleAnalysisResult cfg (p_user p) result (p_mode p)
                                  false tm s in
                      finishCall (setUserContext "" s1)
                  end
            end
        end
  end.


(** [submitTextDiagnosis]: the Enter key of the context input. *)
Definition submitTextDiagnosis (cfg : Config) (env : Env) (s : App)
    : App * option Pending :=
  let clean := trim (userContext s) in
  if (clean =? "")%string then (s, None)
  else
    let s1 := setToast (Some (mkToast "Context sent." toast_success)) s in
    let (s2, p) := callOmniTech_start cfg env diagnosis clean s1 in
    (setUserContext "" s2, p).

(** ** Report generation (App.jsx, [generateFieldReport]) *)

(** One line of the report: [[time] source: message]. *)
Definition formatLog (l : LogEntry) : string :=
  ("[" ++ time l ++ "] " ++ source l ++ ": " ++ message l)%string.

(** [logs.slice(0, 30).reverse().map(...)]: the thirty newest entries, oldest
    of them first. *)
Definition sessionLines (entries : list LogEntry) : list string :=
  map formatLog (rev (firstn 30 entries)).

Definition reportHeader (stamp : string) : list string :=
  [ "FIELD INCIDENT REPORT";
    "--------------------";
    ("Generated: " ++ stamp)%string;
    "";
    "SESSION LOGS:" ].

Definition reportFooter : list string :=
  [ "";
    "Summary:";
    "- OmniTech recorded safety/diagnostic events.";
    "- Review recommended actions before proceeding." ].

Definition localReportLines (stamp : string) (entries : list LogEntry) : list string :=
  reportHeader stamp ++ sessionLines entries ++ reportFooter.

Definition localReport (stamp : string) (entries : list LogEntry) : string :=
  join nl (localReportLines stamp entries).

(** The document written when the report request itself is answered 429. *)
Definition fallbackReportLines (stamp : string) (entries : list LogEntry) : list string :=
  [ "FIELD INCIDENT REPORT (LOCAL FALLBACK)";
    "-------------------------------------";
    ("Generated: " ++ stamp)%string;
    "";
    "SESSION LOGS:" ]
  ++ sessionLines entries.

Definition fallbackReport (stamp : string) (entries : list LogEntry) : string :=
  join nl (fallbackReportLines stamp entries).

(** What a run of [generateFieldReport] reads from the outside: the locale
    date string of the header, the locale time string of its log entry and,
    on the network path, how the request settles. *)
Record ReportEnv := mkReportEnv {
  stamp : string;
  report_clock : string;
  report_fetch : FetchOutcome
}.

Definition reportFailed (tm : string) (s : App) : App :=
  addLog "ERROR" "Failed to generate report." "error" tm s.

(** The network path is written out in one piece: with [DEMO_MODE] set it is
    never taken, so no other handler can run inside it. *)
Definition generateFieldReport (cfg : Config) (renv : ReportEnv) (s : App) : App :=
  if Nat.eqb (List.length (logs s)) 0 then s
  else if (negb (truthy (API_KEY cfg)) || DEMO_MODE)%bool then
    let s1 := setGeneratedReport (Some (localReport (stamp renv) (logs s))) s in
    let s2 := setShowReportModal true s1 in
    addLog "SYSTEM" "Local report generated (demo / no-quota mode)." "info"
      (report_clock renv) s2
  else
    let s1 := setGeneratingReport true s in
    let logText := join nl (map formatLog (logs s)) in
    let s2 := setFetched (ReportCall logText :: fetched s1) s1 in
    let tm := report_clock renv in
    match report_fetch renv with
    | fetch_throws => setGeneratingReport false (reportFailed tm s2)
    | fetch_resolves response =>
        if resp_status response =? 429 then
          let s3 := addLog "ERROR" "Report HTTP 429 (quota). Using local report instead."
                      "error" tm s2 in
          let s4 := setGeneratedReport (Some (fallbackReport (stamp renv) (logs s))) s3 in
          setGeneratingReport false (setShowReportModal true s4)
        else if negb (resp_ok response) then
          match resp_text response with
          | Some errText =>
              setGeneratingReport false
                (addLog "ERROR"
                   ("Report HTTP " ++ show_Z (resp_status response) ++ ": "
                    ++ str_slice0 180 errText)%string "error" tm s2)
          | None => setGeneratingReport false (reportFailed tm s2)
          end
        else
          match resp_json response with
          | None => setGeneratingReport false (reportFailed tm s2)
          | Some data =>
              let s3 := setGeneratedReport
                          (Some (or_else (data_text data) "No report generated.")) s2 in
              let s4 := setShowReportModal true s3 in
              setGeneratingReport false
                (addLog "SYSTEM" "Field Report generated." "info" tm s4)
          end
    end.

(** ** The controls (App.jsx, RENDER) *)

(** [disabled] of the SAFETY button. *)
Definition safetyDisabled (s : App) : bool :=
  (negb (isStreamActive s) || analyzing s)%bool.

(** [disabled] of the DIAGNOSE button. *)
Definition diagnoseDisabled (s : App) : bool :=
  (negb (isStreamActive s) || analyzing s
   || (systemState s =? "DANGER")%string || (systemState s =? "UNCERTAIN")%string)%bool.

(** The "View Repair Steps" button is rendered inside the result card, and
    only for a result whose status is SAFE. *)
Definition repairVisible (s : App) : bool :=
  match currentAnalysis s with
  | Some r => (negb (analyzing s) && is_str (status r) "SAFE")%bool
  | None => false
  end.

(** [disabled] of the Report button. *)
Definition reportDisabled (s : App) : bool :=
  (Nat.ltb (List.length (logs s)) 2 || generatingReport s)%bool.

(** What can happen to the component.  A click on a disabled or absent
    button runs no handler. *)
Inductive Event :=
| CameraStarted
| CameraFailed (tm : string)
| AuthChanged (u : option string)
| DismissToast
| CloseRepairModal
| CloseReportModal
| TypeContext (text : string)
| ClickSafety (env : Env)
| ClickDiagnose (env : Env)
| ClickRepair (env : Env)
| PressEnter (env : Env)
| ClickReport (renv : ReportEnv)
| FetchSettled (out : FetchOutcome) (tm : string).

(** The component together with the suspended analysis call, if any. *)
Definition Session : Type := App * option Pending.

Definition initSession : Session := (initApp, None).

Definition suspend (old : option Pending) (r : App * option Pending) : Session :=
  match r with
  | (s, Some p) => (s, Some p)
  | (s, None) => (s, old)
  end.

Definition step (cfg : Config) (ev : Event) (ss : Session) : Session :=
  let (s, pend) := ss in
  match ev with
  | CameraStarted => (setIsStreamActive true s, pend)
  | CameraFailed tm =>
      (addLog "ERROR" "Camera access denied. Check permissions." "error" tm s, pend)
  | AuthChanged u => (setUser u s, pend)
  | DismissToast => (setToast None s, pend)
  | CloseRepairModal => (setShowRepairModal false s, pend)
  | CloseReportModal => (setShowReportModal false s, pend)
  | TypeContext text => (setUserContext text s, pend)
  | ClickSafety env =>
      if safetyDisabled s then ss
      else suspend pend (callOmniTech_start cfg env safety_check "" (setActiveTab "safety" s))
  | ClickDiagnose env =>
      if diagnoseDisabled s then ss
      else suspend pend (callOmniTech_start cfg env diagnosis "" (setActiveTab "diagnose" s))
  | ClickRepair env =>
      if repairVisible s
      then suspend pend (callOmniTech_start cfg env repair_guide "" s)
      else ss
  | PressEnter env => suspend pend (submitTextDiagnosis cfg env s)
  | ClickReport renv =>
      if reportDisabled s then ss else (generateFieldReport cfg renv s, pend)
  | FetchSettled out tm =>
      match pend with
      | Some p => (callOmniTech_resume cfg p out tm s, None)
      | None => ss
      end
  end.

Definition run (cfg : Config) (evs : list Event) (ss : Session) : Session :=
  fold_left (fun acc ev => step cfg ev acc) evs ss.

(** ** Sequences of admission attempts *)

(** An attempt reads the clock in the guard and, when it passes, once more to
    record the call; between attempts a call in flight may come to its end. *)
Inductive GuardEvent :=
| Attempt (tGuard tRecord : Z)
| Release.

(** Lines 954-964 of [callOmniTech] on the refs alone. *)
Definition tryCall (tGuard tRecord : Z) (g : RateGuard) : RateGuard * bool :=
  let (g1, v) := canCallNow tGuard g in
  if ok v then (recordCall tRecord g1, true) else (g1, false).

(** The refs after a sequence of events, and the recorded times of the
    attempts that passed the guard, newest first. *)
Fixpoint attempts (evs : list GuardEvent) (g : RateGuard) (passed : list Z)
    : RateGuard * list Z :=
  match evs with
  | [] => (g, passed)
  | Attempt tg tr :: rest =>
      let (g1, okay) := tryCall tg tr g in
      attempts rest g1 (if okay then tr :: passed else passed)
  | Release :: rest => attempts rest (releaseLock g) passed
  end.

(** The clock never runs backwards inside an attempt and moves on between
    attempts: every read is later than [c]. *)
Fixpoint clockIncreasing (c : option Z) (evs : list GuardEvent) : Prop :=
  match evs with
  | [] => True
  | Attempt tg tr :: rest =>
      match c with Some t => t < tg | None => True end
      /\ tg <= tr /\ clockIncreasing (Some tr) rest
  | Release :: rest => clockIncreasing c rest
  end.

(** How many of the times [l] lie in the half-open interval [[lo, hi)]. *)
Definition countWithin (lo hi : Z) (l : list Z) : nat :=
  List.length (filter (fun t => (lo <=? t) && (t <? hi)) l).

(** How many of the times [l] lie in the 60 seconds that end at [e], the
    window [canCallNow] keeps: [e - 60000 < t <= e]. *)
Definition countTrailing (e : Z) (l : list Z) : nat :=
  List.length (filter (fun t => (e - 60000 <? t) && (t <=? e)) l).

(** ** Invariant of the rate guard *)

(** Recorded times, newest first, each at least a cooldown after all the
    earlier ones. *)
Fixpoint spaced (l : list Z) : Prop :=
  match l with
  | [] => True
  | r :: rest => (forall t, In t rest -> t + COOLDOWN_MS <= r) /\ spaced rest
  end.

Definition notAfter (c : option Z) (t : Z) : Prop :=
  match c with
  | Some c0 => t <= c0
  | None => False
  end.

(** What holds of the refs [g] and of the recorded times [passed] when the
    last clock read was [c]: no recorded time is in the future, the last
    recorded time is [lastCallAt], recorded times are spaced, every recorded
    time of the last minute is still in [callTimestamps], and no 60-second
    window holds more than the cap. *)
Record GuardInv (c : option Z) (g : RateGuard) (passed : list Z) : Prop := {
  inv_past : forall t, In t passed -> notAfter c t;
  inv_last : match passed with [] => True | r :: _ => lastCallAt g = r end;
  inv_spaced : spaced passed;
  inv_kept : forall t, In t passed ->
             (forall c0, c = Some c0 -> c0 - 60000 < t) ->
             In t (callTimestamps g);
  inv_cap : forall e, (countTrailing e passed <= MAX_CALLS_PER_MIN)%nat
}.

(** ** Reading a response *)

(** The result of a genuine successful inference response: the status is a
    success, the body carries no error object, and the candidate text is
    present and parses. *)
Definition parsedResult (out : FetchOutcome) : option AnalysisResult :=
  match out with
  | fetch_throws => None
  | fetch_resolves response =>
      if resp_status response =? 429 then None
      else if negb (resp_ok response) then None
      else match resp_json response with
           | None => None
           | Some data =>
               match data_error data with
               | Some _ => None
               | None => if truthy (data_text data) then data_parsed data else None
               end
           end
  end.

(** A result with every descriptive field filled in. *)
Definition nonEmptyResult (r : AnalysisResult) : bool :=
  (truthy (status r) && truthy (headline r) && truthy (reasoning r)
   && truthy (action_required r))%bool.

(** ** What a handler leaves behind *)

(** The entry [handleAnalysisResult] writes for a result. *)
Definition resultLog (r : AnalysisResult) (tm : string) : LogEntry :=
  mkLog "OMNITECH" (or_else (reasoning r) "No reasoning returned.") tm.

(** The text [handleAnalysisResult] hands to [speak] for a result. *)
Definition spokenText (r : AnalysisResult) : string :=
  (or_else (headline r) "Update" ++ ". " ++ or_else (action_required r) "")%string.

(** The speech trace after [speak] has been given a text. *)
Definition spokenAfter (cfg : Config) (text : string) (l : list string) : list string :=
  if (negb (speechSynthesis cfg) || (text =? "")%string)%bool then l
  else pauses false text :: l.

(** The store after [handleAnalysisResult] has handled a result outside the
    repair surface. *)
Definition savedAfter (cfg : Config) (usr : option string) (r : AnalysisResult)
    (mode : Mode) (skipSave : bool) (l : list SavedDoc) : list SavedDoc :=
  match usr with
  | Some uid =>
      if (negb skipSave && db cfg)%bool then safetyEvent uid mode r :: l else l
  | None => l
  end.

(** How many log entries [handleAnalysisResult] writes for a result. *)
Definition resultEntries (mode : Mode) (r : AnalysisResult) : nat :=
  if (is_repair_guide mode && truthy_value (repair_steps r))%bool then 0 else 1.

(** The entries and the toast of the two fallback paths. *)
Definition missingKeyLog (tm : string) : LogEntry :=
  mkLog "ERROR" "Missing VITE_GEMINI_API_KEY. Using demo output." tm.

Definition quotaToast : Toast :=
  mkToast "Quota hit — demo fallback enabled." toast_success.

Definition quotaLog (tm : string) : LogEntry :=
  mkLog "ERROR" "Gemini HTTP 429 (quota/rate limit). Switching to demo output." tm.

Definition quotaTip (tm : string) : LogEntry :=
  mkLog "SYSTEM"
    "Tip: reduce clicks / disable report / or increase quota in Google billing." tm.


(** A call that gets past the guard dies of an exception: there is an API
    key, so that [captureFrame] is called, and it throws. *)
Definition diesPastGuard (cfg : Config) (env : Env) : bool :=
  (truthy (API_KEY cfg)
   && match frame env with
      | capture_throws => true
      | capture_returns _ => false
      end)%bool.

(** The same inputs with the camera and the canvas in another condition. *)
Definition withOptics (o : Optics) (env : Env) : Env :=
  mkEnv (now_guard env) (now_record env) o (clock env).

(** ** Reading a document *)

(** [x] occurs in [doc]. *)
Definition contains (doc x : string) : Prop :=
  exists a b, doc = (a ++ x ++ b)%string.

(** [x] occurs in [doc] and [y] occurs after it. *)
Definition containsInOrder (doc x y : string) : Prop :=
  exists a b c, doc = (a ++ x ++ b ++ y ++ c)%string.

(** The same, as a test: [x] is a prefix of [doc] at some position. *)
Fixpoint occurs (x doc : string) : bool :=
  (String.prefix x doc
   || match doc with
      | String _ rest => occurs x rest
      | EmptyString => false
      end)%bool.

(** ** Invariants of a session *)

(** The result on display and the safety state are written together. *)
Definition analysisInv (s : App) : Prop :=
  match currentAnalysis s with
  | Some r => systemState s = or_else (status r) "UNCERTAIN"
  | None => True
  end.

(** A suspended call holds the lock. *)
Definition pendingLocked (ss : Session) : Prop :=
  match snd ss with
  | Some _ => inFlight (guard (fst ss)) = true
  | None => True
  end.

(** ** Concrete inputs *)

Definition cfgKey : Config := mkConfig (Some "key") true true.
Definition cfgNoKey : Config := mkConfig None true true.

(** A camera that delivers, a camera that is not ready yet, and a canvas
    that cannot be read. *)
Definition frameOptics : Optics :=
  mkOptics true true 1920 1080 (Some "data:image/jpeg;base64,frame").
Definition darkOptics : Optics := mkOptics true true 0 0 None.
Definition brokenOptics : Optics := mkOptics true true 1920 1080 None.

Definition envAt (t : Z) : Env := mkEnv t t frameOptics "10:00:00".

Definition answer (st : Z) (r : option AnalysisResult) : FetchOutcome :=
  fetch_resolves
    (mkResponse st (Some "body") (Some (mkPayload None (Some "{...}") r))).

Definition hazardNoSteps : AnalysisResult :=
  mkResult (Some "DANGER") (Some "Exposed Live Wire") (Some "A bare conductor is visible.")
    (Some "Cut power before touching anything.") None [].

(** The same refusal with [repair_steps: null]. *)
Definition hazardNullSteps : AnalysisResult :=
  mkResult (Some "DANGER") (Some "Exposed Live Wire") (Some "A bare conductor is visible.")
    (Some "Cut power before touching anything.") (Some JNull) [].

Definition safeSteps : AnalysisResult :=
  mkResult (Some "SAFE") (Some "Repair Protocol Ready") (Some "Safety confirmed.")
    (Some "Follow steps carefully.")
    (Some (strings ["Unplug the unit."; "Reseat the cable."])) [].

(** A result that brings a [mode] member of its own. *)
Definition modeResult : AnalysisResult :=
  mkResult (Some "SAFE") (Some "All clear") (Some "Nothing unusual.")
    (Some "Carry on.") None [("mode", JStr "override")].

Definition safeApp : App := setSystemState "SAFE" (setCurrentAnalysis (Some demo2) initApp).

Definition firstEntry : LogEntry := mkLog "SYSTEM" "Optics initialised." "09:59:58".
Definition secondEntry : LogEntry := mkLog "OMNITECH" "No hazards visible." "10:00:03".

Definition oneEntryApp : App := setLogs [firstEntry] initApp.
Definition twoEntryApp : App := setLogs [secondEntry; firstEntry] initApp.

(** Thirty-one entries: [firstEntry] and thirty later ones on top of it. *)
Definition manyEntriesApp : App := setLogs (repeat secondEntry 30 ++ [firstEntry]) initApp.

Definition reportEnv : ReportEnv := mkReportEnv "1/1/2026, 10:00:05" "10:00:05" fetch_throws.

(** A session in which a genuine safety check has found a hazard and the
    user has typed a note. *)
Definition hazardSession : Session :=
  run cfgKey
    [ CameraStarted;
      ClickSafety (envAt 1000000);
      FetchSettled (answer 200 (Some hazardNoSteps)) "10:00:01";
      TypeContext "fan does not spin" ]
    initSession.

(** Attempts one second apart, with the first call ending in between, and a
    fourth attempt after the cooldown. *)
Definition sampleAttempts : list GuardEvent :=
  [ Attempt 1000000 1000001; Attempt 1000500 1000500; Release;
    Attempt 1001000 1001000; Attempt 1003000 1003002 ].

(** ** Proof tools *)

(** Case analysis on whatever the goal branches on. *)
Ltac branch :=
  match goal with
  | |- context [match ?x with _ => _ end] =>
      lazymatch x with
      | context [match _ with _ => _ end] => fail
      | _ => destruct x eqn:?
      end
  end.

(** Reading a field of a state built by setters: unfolds the setters and
    the projections, and nothing else. *)
Ltac fields :=
  lazy beta iota zeta delta
    [user isStreamActive analyzing systemState logs currentAnalysis repairSteps
     showRepairModal generatedReport showReportModal generatingReport activeTab
     demoStep userContext toast guard fetched saved spoken uncaught
     setUser setIsStreamActive setAnalyzing setSystemState setLogs
     setCurrentAnalysis setRepairSteps setShowRepairModal setGeneratedReport
     setShowReportModal setGeneratingReport setActiveTab setDemoStep
     setUserContext setToast setGuard setFetched setSaved setSpoken setUncaught
     finishCall releaseLock recordCall inFlight lastCallAt callTimestamps
     fst snd].

(** ** Status display (App.jsx, [getStatusText] and [getStatusColor]) *)

Definition getStatusText (s : App) : string :=
  if (systemState s =? "DANGER")%string then "HAZARD DETECTED"
  else if (systemState s =? "SAFE")%string then "SYSTEM SECURE"
  else if (systemState s =? "UNCERTAIN")%string then "ANALYSIS INCONCLUSIVE"
  else "STANDBY".

Definition getStatusColor (s : App) : string :=
  if (systemState s =? "DANGER")%string
  then "border-red-500 shadow-[0_0_80px_rgba(239,68,68,0.6)]"
  else if (systemState s =? "SAFE")%string
  then "border-emerald-500 shadow-[0_0_80px_rgba(16,185,129,0.4)]"
  else if (systemState s =? "UNCERTAIN")%string
  then "border-amber-500 shadow-[0_0_80px_rgba(245,158,11,0.4)]"
  else "border-slate-800".

(** ** More invariants of a session *)

(** Whether a call is suspended on its request. *)
Definition suspended (ss : Session) : bool :=
  match snd ss with
  | Some _ => true
  | None => false
  end.

(** The spinner is on exactly while the lock is held, and the lock is held
    exactly while a call is suspended or after a call has ended in an
    exception nobody caught; the two exclude each other, and there is at most
    one such exception. *)
Definition busyInv (ss : Session) : Prop :=
  analyzing (fst ss) = inFlight (guard (fst ss))
  /\ inFlight (guard (fst ss)) = (suspended ss || Nat.ltb 0 (uncaught (fst ss)))%bool
  /\ (uncaught (fst ss) <= 1)%nat
  /\ (suspended ss = true -> uncaught (fst ss) = 0%nat).

(** A request as [callOmniTech] builds it. *)
Definition wellFormedCall (cfg : Config) (c : NetCall) : Prop :=
  exists r,
    c = AnalyzeCall r
    /\ truthy (API_KEY cfg) = true
    /\ req_instruction r = systemInstruction (req_mode r)
    /\ req_image r <> ""
    /\ (req_text r = "Analyze this scene."
        \/ exists ctx, ctx <> "" /\ trim ctx = ctx
                       /\ req_text r = ("User Context: " ++ ctx)%string).

(** Some event of the sequence signs a user in. *)
Definition signsIn (evs : list Event) : bool :=
  existsb (fun ev => match ev with AuthChanged (Some _) => true | _ => false end) evs.

(** Nobody is signed in, in the component or in the closure of the
    suspended call. *)
Definition anonymous (ss : Session) : Prop :=
  user (fst ss) = None
  /\ match snd ss with Some p => p_user p = None | None => True end.

(** No white space in front. *)
Definition headClean (s : string) : Prop := ws_head s = None.

(** Nothing but white space. *)
Definition blank (s : string) : Prop := trim_left s = "".

(** The encoding of a character from its bytes. *)
Definition utf8 (bytes : list N) : string :=
  fold_right (fun b s => String (chr b) s) EmptyString bytes.

(** The white-space characters of ECMAScript (WhiteSpace and LineTerminator):
    U+0009 to U+000D, U+0020, U+00A0, U+1680, U+2000 to U+200A, U+2028,
    U+2029, U+202F, U+205F, U+3000 and U+FEFF. *)
Definition white_space : list string :=
  map utf8
    [ [9]; [10]; [11]; [12]; [13]; [32]; [194; 160]; [225; 154; 128];
      [226; 128; 128]; [226; 128; 129]; [226; 128; 130]; [226; 128; 131];
      [226; 128; 132]; [226; 128; 133]; [226; 128; 134]; [226; 128; 135];
      [226; 128; 136]; [226; 128; 137]; [226; 128; 138];
      [226; 128; 168]; [226; 128; 169]; [226; 128; 175]; [226; 129; 159];
      [227; 128; 128]; [239; 187; 191] ]%N.

(** [s] is made of white-space characters and nothing else. *)
Inductive onlyWhiteSpace : string -> Prop :=
| white_nil : onlyWhiteSpace ""
| white_cons (w rest : string) :
    In w white_space -> onlyWhiteSpace rest -> onlyWhiteSpace (w ++ rest).

(** How many of the times [l] lie in the closed interval [[lo, hi]]. *)
Definition countClosed (lo hi : Z) (l : list Z) : nat :=
  List.length (filter (fun t => (lo <=? t) && (t <=? hi)) l).

(** Two attempts exactly a cooldown apart, and nine attempts spread evenly
    over sixty seconds, each call ending before the next attempt. *)
Definition boundaryAttempts : list GuardEvent :=
  [ Attempt 1000000 1000000; Release; Attempt 1002500 1002500 ].

Definition minuteAttempts : list GuardEvent :=
  flat_map (fun k => [Attempt (1000000 + 7500 * k) (1000000 + 7500 * k); Release])
    [0; 1; 2; 3; 4; 5; 6; 7; 8].

(** A no-break space (U+00A0). *)
Definition nbsp : string :=
  String (ascii_of_nat 194) (String (ascii_of_nat 160) EmptyString).

(** [l'] is [l] with at most [n] entries put on top. *)
Definition appended {A : Type} (n : nat) (l l' : list A) : Prop :=
  exists new, l' = new ++ l /\ (List.length new <= n)%nat.

(** A session that has issued one request. *)
Definition firstRequest : list Event := [CameraStarted; ClickSafety (envAt 1000000)].

Definition cameraLog (tm : string) : LogEntry :=
  mkLog "ERROR" "Camera not ready yet. Wait 1–2 seconds after Initialize Optics." tm.

Definition reportLog (tm : string) : LogEntry :=
  mkLog "SYSTEM" "Local report generated (demo / no-quota mode)." tm.

(** The three verdicts the display knows. *)
Definition knownVerdict (st : string) : Prop :=
  st = "DANGER" \/ st = "SAFE" \/ st = "UNCERTAIN".

Definition noStatus : AnalysisResult :=
  mkResult None (Some "Unclear") (Some "Nothing could be made out.")
    (Some "Try again.") None [].

Definition oddStatus : AnalysisResult :=
  mkResult (Some "safe") (Some "Looks fine") (Some "Nothing unusual.")
    (Some "Carry on.") None [].

Definition readyOptics : Optics :=
  mkOptics true true 1920 1080 (Some "data:image/jpeg;base64,/9j/4AAQSkZJRg==").

Definition safeSession : list Event :=
  firstRequest ++ [FetchSettled (answer 200 (Some demo2)) "10:00:01"].

(** * Properties *)

(** ** The rate guard *)

Lemma ceil_div_bounds (a : Z) :
  1000 * (ceil_div a 1000 - 1) < a <= 1000 * ceil_div a 1000.
Proof.
  unfold ceil_div.
  pose proof (Z.div_mod (- a) 1000 ltac:(lia)) as Hdm.
  pose proof (Z.mod_pos_bound (- a) 1000 ltac:(lia)) as Hb.
  lia.
Qed.

(** The text [show_Z] writes is the decimal notation of the number. *)
Lemma read_show_Z (z : Z) : read_Z (show_Z z) = Some z.
Proof.
  unfold read_Z, show_Z.
  rewrite NilZero.isi.
  - cbn [option_map]. now rewrite DecimalZ.of_to.
  - destruct z as [| q | q]; cbn [Z.to_int]; intros H; try discriminate H.
    injection H as Hq. exact (DecimalPos.Unsigned.to_uint_nonnil _ Hq).
  - destruct z as [| q | q]; cbn [Z.to_int]; intros H; try discriminate H.
    injection H as Hq. exact (DecimalPos.Unsigned.to_uint_nonnil _ Hq).
Qed.

(** C6: the guard checks the in-flight lock, then the cooldown, then the
    per-minute cap; the first check that fails gives the reason, whatever the
    later checks would say.  The three reasons are the texts "Request in
    progress...", "Cooldown: wait Ns" and "Rate limit: too many
    requests/min", where N is written in decimal and is the remaining time in
    whole seconds, rounded up: the least [wait] with
    [COOLDOWN_MS - delta <= 1000 * wait]. *)
Theorem canCallNow_first_failing_rule (now : Z) (g : RateGuard) :
  let delta := now - lastCallAt g in
  let kept := filter (fun t => now - 60000 <? t) (callTimestamps g) in
  (inFlight g = true ->
     snd (canCallNow now g) = mkVerdict false (Some "Request in progress..."))
  /\ (inFlight g = false -> delta < COOLDOWN_MS ->
        exists wait digits,
          snd (canCallNow now g)
          = mkVerdict false (Some ("Cooldown: wait " ++ digits ++ "s")%string)
          /\ read_Z digits = Some wait
          /\ 1000 * (wait - 1) < COOLDOWN_MS - delta <= 1000 * wait)
  /\ (inFlight g = false -> COOLDOWN_MS <= delta ->
        (MAX_CALLS_PER_MIN <= List.length kept)%nat ->
        snd (canCallNow now g)
        = mkVerdict false (Some "Rate limit: too many requests/min"))
  /\ (inFlight g = false -> COOLDOWN_MS <= delta ->
        (List.length kept < MAX_CALLS_PER_MIN)%nat ->
        snd (canCallNow now g) = mkVerdict true None).
Proof.
  intros delta kept. unfold canCallNow. fold delta. fold kept.
  split; [ | split; [ | split ] ].
  - intros ->. reflexivity.
  - intros -> Hd.
    exists (ceil_div (COOLDOWN_MS - delta) 1000),
           (show_Z (ceil_div (COOLDOWN_MS - delta) 1000)).
    destruct (Z.ltb_spec delta COOLDOWN_MS) as [_ | Hge]; [ | lia ].
    split; [ reflexivity | ].
    split; [ apply read_show_Z | ].
    apply ceil_div_bounds.
  - intros -> Hd Hlen.
    destruct (Z.ltb_spec delta COOLDOWN_MS) as [Hlt | _]; [ lia | ].
    destruct (Nat.leb_spec MAX_CALLS_PER_MIN (List.length kept)) as [_ | Hlt];
      [ reflexivity | lia ].
  - intros -> Hd Hlen.
    destruct (Z.ltb_spec delta COOLDOWN_MS) as [Hlt | _]; [ lia | ].
    destruct (Nat.leb_spec MAX_CALLS_PER_MIN (List.length kept)) as [Hge | _];
      [ lia | reflexivity ].
Qed.

Lemma spaced_below (l : list Z) (r t : Z) :
  spaced (r :: l) -> In t l -> t < r.
Proof.
  intros [Hr _] Hin. specialize (Hr t Hin). unfold COOLDOWN_MS in Hr. lia.
Qed.

Lemma spaced_NoDup (l : list Z) : spaced l -> NoDup l.
Proof.
  induction l as [| r rest IH]; intros Hs.
  - constructor.
  - constructor.
    + intros Hin. pose proof (spaced_below _ _ _ Hs Hin). lia.
    + apply IH. apply Hs.
Qed.

Lemma filter_none {A : Type} (f : A -> bool) (l : list A) :
  (forall x, In x l -> f x = false) -> filter f l = [].
Proof.
  induction l as [| x rest IH]; intros Hall; simpl.
  - reflexivity.
  - rewrite (Hall x (or_introl eq_refl)). apply IH.
    intros y Hy. apply Hall. now right.
Qed.

(** Spaced times: a half-open interval as wide as the cooldown holds at most
    one of them. *)
Lemma spaced_countWithin (l : list Z) (a : Z) :
  spaced l -> (countWithin a (a + COOLDOWN_MS) l <= 1)%nat.
Proof.
  unfold countWithin.
  induction l as [| r rest IH]; intros Hs; simpl.
  - lia.
  - destruct ((a <=? r) && (r <? a + COOLDOWN_MS)) eqn:Hr.
    + rewrite filter_none; [ simpl; lia | ].
      intros t Ht. destruct Hs as [Hgap _]. specialize (Hgap t Ht).
      apply andb_true_iff in Hr. destruct Hr as [_ Hr].
      apply Z.ltb_lt in Hr.
      apply andb_false_iff. left. apply Z.leb_gt. lia.
    + apply IH. apply Hs.
Qed.

Lemma GuardInv_init : GuardInv None initGuard [].
Proof.
  constructor; simpl; try tauto.
  intros e. unfold countTrailing. simpl. lia.
Qed.

Lemma GuardInv_release (c : option Z) (g : RateGuard) (passed : list Z) :
  GuardInv c g passed -> GuardInv c (releaseLock g) passed.
Proof.
  intros [H1 H2 H3 H4 H5]. constructor; simpl; assumption.
Qed.

(** A recorded time of the last minute survives the pruning of the guard. *)
Lemma kept_after_prune (c : option Z) (g : RateGuard) (passed : list Z)
    (tg tr t : Z) :
  GuardInv c g passed ->
  match c with Some c0 => c0 < tg | None => True end ->
  tg <= tr -> In t passed -> tr - 60000 < t ->
  In t (filter (fun x => tg - 60000 <? x) (callTimestamps g)).
Proof.
  intros Hinv Hc Hle Hin Hwin.
  apply filter_In. split.
  - apply (inv_kept _ _ _ Hinv t Hin).
    intros c0 ->. lia.
  - apply Z.ltb_lt. lia.
Qed.

(** One attempt keeps the invariant, with the clock now at the second read. *)
Lemma GuardInv_tryCall (c : option Z) (g : RateGuard) (passed : list Z)
    (tg tr : Z) :
  GuardInv c g passed ->
  match c with Some c0 => c0 < tg | None => True end ->
  tg <= tr ->
  GuardInv (Some tr) (fst (tryCall tg tr g))
    (if snd (tryCall tg tr g) then tr :: passed else passed).
Proof.
  intros Hinv Hc Hle.
  assert (Hpast : forall t, In t passed -> t <= tr).
  { intros t Ht. pose proof (inv_past _ _ _ Hinv t Ht) as Hn.
    destruct c as [c0 |]; simpl in Hn; [ lia | contradiction ]. }
  assert (Hold : forall g', lastCallAt g' = lastCallAt g ->
            (forall t, In t passed -> tr - 60000 < t -> In t (callTimestamps g')) ->
            GuardInv (Some tr) g' passed).
  { intros g' Hl Hk. constructor.
    - intros t Ht. simpl. auto.
    - rewrite Hl. apply (inv_last _ _ _ Hinv).
    - apply (inv_spaced _ _ _ Hinv).
    - intros t Ht Hw. apply Hk; [ assumption | ]. apply Hw. reflexivity.
    - apply (inv_cap _ _ _ Hinv). }
  assert (Hsame : forall t, In t passed -> tr - 60000 < t -> In t (callTimestamps g)).
  { intros t Ht Hw. apply (inv_kept _ _ _ Hinv t Ht). intros c0 ->. lia. }
  unfold tryCall, canCallNow.
  destruct (inFlight g) eqn:Hfl.
  { cbn [fst snd ok rejected negb]. apply Hold; auto. }
  destruct (Z.ltb_spec (tg - lastCallAt g) COOLDOWN_MS) as [Hcool | Hcool].
  { cbn [fst snd ok rejected negb]. apply Hold; auto. }
  cbv zeta.
  set (kept := filter (fun t => tg - 60000 <? t) (callTimestamps g)).
  assert (Hkept : forall t, In t passed -> tr - 60000 < t -> In t kept).
  { intros t Ht Hw. eapply kept_after_prune; eauto. }
  destruct (Nat.leb_spec MAX_CALLS_PER_MIN (List.length kept)) as [Hfull | Hroom].
  { cbn [fst snd ok rejected negb]. apply Hold; auto. }
  cbn [fst snd ok accepted negb recordCall callTimestamps lastCallAt].
  assert (Hgap : forall t, In t passed -> t + COOLDOWN_MS <= tr).
  { pose proof (inv_last _ _ _ Hinv) as Hl. pose proof (inv_spaced _ _ _ Hinv) as Hs.
    destruct passed as [| r rest]; [ intros t [] | ].
    intros t [<- | Ht].
    - lia.
    - destruct Hs as [Hr _]. specialize (Hr t Ht). unfold COOLDOWN_MS in *. lia. }
  constructor.
  - intros t [<- | Ht]; simpl; [ lia | auto ].
  - reflexivity.
  - split; [ exact Hgap | apply (inv_spaced _ _ _ Hinv) ].
  - intros t [<- | Ht] Hw; simpl; apply in_or_app.
    + right. now left.
    + left. apply Hkept; [ assumption | ]. apply Hw. reflexivity.
  - intros e. unfold countTrailing. simpl.
    destruct ((e - 60000 <? tr) && (tr <=? e)) eqn:Hin.
    + apply andb_true_iff in Hin. destruct Hin as [Hlo Hhi].
      apply Z.ltb_lt in Hlo. apply Z.leb_le in Hhi. simpl.
      assert (Hlen : (List.length
                (filter (fun t => ((e - 60000 <? t) && (t <=? e))%Z) passed)
                <= List.length kept)%nat).
      { apply NoDup_incl_length.
        - apply NoDup_filter. apply spaced_NoDup. apply (inv_spaced _ _ _ Hinv).
        - intros t Ht. apply filter_In in Ht. destruct Ht as [Ht Hw].
          apply andb_true_iff in Hw. destruct Hw as [Hw _].
          apply Z.ltb_lt in Hw. apply Hkept; [ assumption | lia ]. }
      lia.
    + apply (inv_cap _ _ _ Hinv).
Qed.

Lemma GuardInv_attempts (evs : list GuardEvent) :
  forall (c : option Z) (g : RateGuard) (passed : list Z),
    GuardInv c g passed -> clockIncreasing c evs ->
    exists c', GuardInv c' (fst (attempts evs g passed)) (snd (attempts evs g passed)).
Proof.
  induction evs as [| ev rest IH]; intros c g passed Hinv Hclock.
  - exists c. exact Hinv.
  - destruct ev as [tg tr |]; simpl in *.
    + destruct Hclock as (Hc & Hle & Hrest).
      pose proof (GuardInv_tryCall c g passed tg tr Hinv Hc Hle) as Hstep.
      destruct (tryCall tg tr g) as [g1 okay]. simpl in Hstep.
      apply (IH (Some tr)); assumption.
    + apply (IH c); [ apply GuardInv_release; assumption | assumption ].
Qed.

(** Spaced times are a cooldown apart, two by two. *)
Lemma spaced_apart (l : list Z) (t1 t2 : Z) :
  spaced l -> In t1 l -> In t2 l -> t1 <> t2 -> COOLDOWN_MS <= Z.abs (t1 - t2).
Proof.
  induction l as [| r rest IH]; intros Hs H1 H2 Hne; [ destruct H1 | ].
  destruct Hs as [Hgap Hs].
  destruct H1 as [<- | H1], H2 as [<- | H2].
  - congruence.
  - specialize (Hgap t2 H2). lia.
  - specialize (Hgap t1 H1). lia.
  - now apply IH.
Qed.

(** C7, as amended: over any sequence of admission attempts (with calls
    ending in between) whose clock reads increase, two of the times recorded
    for the attempts that passed the guard are at least [COOLDOWN_MS] apart,
    so that any half-open interval [[a, a + COOLDOWN_MS)] holds at most one
    of them, and any window [(e - 60000, e]], open at its older end, holds at
    most [MAX_CALLS_PER_MIN] of them. *)
Theorem rate_guard_limits (evs : list GuardEvent) :
  clockIncreasing None evs ->
  let passed := snd (attempts evs initGuard []) in
  (forall t1 t2, In t1 passed -> In t2 passed -> t1 <> t2 ->
                 COOLDOWN_MS <= Z.abs (t1 - t2))
  /\ (forall a, (countWithin a (a + COOLDOWN_MS) passed <= 1)%nat)
  /\ (forall e, (countTrailing e passed <= MAX_CALLS_PER_MIN)%nat).
Proof.
  intros Hclock passed.
  destruct (GuardInv_attempts evs None initGuard [] GuardInv_init Hclock) as [c Hinv].
  fold passed in Hinv. split; [ | split ].
  - intros t1 t2. apply spaced_apart. apply (inv_spaced _ _ _ Hinv).
  - intros a. apply spaced_countWithin. apply (inv_spaced _ _ _ Hinv).
  - apply (inv_cap _ _ _ Hinv).
Qed.

(** C7 as stated fails at the ends of the intervals: two attempts exactly
    [COOLDOWN_MS] apart both pass, so the closed interval between them, which
    is [COOLDOWN_MS] wide, holds two; and of nine attempts 7.5 seconds apart
    all pass, the closed 60-second window from the first to the last holding
    nine, one more than [MAX_CALLS_PER_MIN]. *)
Lemma closed_windows_hold_more :
  (clockIncreasing None boundaryAttempts
   /\ snd (attempts boundaryAttempts initGuard []) = [1002500; 1000000]
   /\ 1002500 - 1000000 = COOLDOWN_MS
   /\ countClosed 1000000 (1000000 + COOLDOWN_MS)
        (snd (attempts boundaryAttempts initGuard [])) = 2%nat)
  /\ (clockIncreasing None minuteAttempts
      /\ snd (attempts minuteAttempts initGuard [])
         = [1060000; 1052500; 1045000; 1037500; 1030000; 1022500; 1015000;
            1007500; 1000000]
      /\ countClosed 1000000 (1000000 + 60000)
           (snd (attempts minuteAttempts initGuard [])) = 9%nat
      /\ MAX_CALLS_PER_MIN = 8%nat).
Proof.
  split.
  - split; [ cbn; lia | ]. split; [ reflexivity | ]. split; reflexivity.
  - split; [ cbn; lia | ]. split; [ vm_compute; reflexivity | ].
    split; vm_compute; reflexivity.
Qed.

(** ** The in-flight lock *)

Lemma finishCall_unlocks (s : App) : inFlight (guard (finishCall s)) = false.
Proof. reflexivity. Qed.

Lemma resume_unlocks (cfg : Config) (p : Pending) (out : FetchOutcome)
    (tm : string) (s : App) :
  inFlight (guard (callOmniTech_resume cfg p out tm s)) = false.
Proof.
  unfold callOmniTech_resume. repeat branch; apply finishCall_unlocks.
Qed.

Lemma unlocked_not_in_progress (now : Z) (g : RateGuard) :
  inFlight g = false ->
  reason (snd (canCallNow now g)) <> Some reason_in_progress.
Proof.
  intros Hfl. unfold canCallNow. rewrite Hfl.
  repeat branch; cbn [snd reason rejected accepted]; discriminate.
Qed.

(** A call that passed the guard and in which [captureFrame] does not
    throw leaves the in-flight flag cleared on every path.  The paths that
    end before the request (missing key, missing frame) clear it at once; for
    a call suspended on its request the flag is set, and whatever state [s2]
    the component is in when the request settles, and however it settles, the
    flag is cleared.  In either case no later admission check answers
    "Request in progress...". *)
Lemma released_unless_thrown (cfg : Config) (env : Env) (mode : Mode)
    (manualContext : string) (s : App) :
  ok (snd (canCallNow (now_guard env) (guard s))) = true ->
  truthy (API_KEY cfg) = false \/ frame env <> capture_throws ->
  match callOmniTech_start cfg env mode manualContext s with
  | (s1, None) =>
      inFlight (guard s1) = false
      /\ forall now, reason (snd (canCallNow now (guard s1))) <> Some reason_in_progress
  | (s1, Some p) =>
      inFlight (guard s1) = true
      /\ forall out tm s2,
           let s3 := callOmniTech_resume cfg p out tm s2 in
           inFlight (guard s3) = false
           /\ forall now,
                reason (snd (canCallNow now (guard s3))) <> Some reason_in_progress
  end.
Proof.
  intros Hok Hpath. unfold callOmniTech_start.
  destruct (canCallNow (now_guard env) (guard s)) as [g1 v]. cbn [snd] in Hok.
  rewrite Hok. cbn [negb].
  destruct (truthy (API_KEY cfg)) eqn:Hkey; cbn [negb].
  2:{ split; [ apply finishCall_unlocks | ].
      intros now. apply unlocked_not_in_progress, finishCall_unlocks. }
  destruct Hpath as [Hno | Hframe]; [ discriminate Hno | ].
  unfold frame in Hframe.
  destruct (captureFrame (optics env)) as [| imageBase64]; [ now contradiction Hframe | ].
  destruct (negb (truthy imageBase64)).
  { split; [ apply finishCall_unlocks | ].
    intros now. apply unlocked_not_in_progress, finishCall_unlocks. }
  split; [ reflexivity | ].
  intros out tm s2. cbv zeta. split; [ apply resume_unlocks | ].
  intros now. apply unlocked_not_in_progress, resume_unlocks.
Qed.


(** ** Handlers as setters *)

Lemma addLog_eq (src msg typ tm : string) (s : App) :
  addLog src msg typ tm s
  = setToast (if ((typ =? "error")%string || (src =? "ERROR")%string)%bool
              then Some (mkToast msg toast_error) else toast s)
      (setLogs (mkLog src msg tm :: logs s) s).
Proof. unfold addLog. destruct (_ || _)%bool; reflexivity. Qed.

Lemma addLog_info (src msg tm : string) (s : App) :
  (src =? "ERROR")%string = false ->
  addLog src msg "info" tm s = setLogs (mkLog src msg tm :: logs s) s.
Proof. intros H. unfold addLog. rewrite H. reflexivity. Qed.

Lemma addLog_error (src msg tm : string) (s : App) :
  addLog src msg "error" tm s
  = setToast (Some (mkToast msg toast_error)) (setLogs (mkLog src msg tm :: logs s) s).
Proof. reflexivity. Qed.

Lemma speak_eq (cfg : Config) (text : string) (s : App) :
  speak cfg text s = setSpoken (spokenAfter cfg text (spoken s)) s.
Proof. unfold speak, spokenAfter. destruct (_ || _)%bool; reflexivity. Qed.

Lemma handleAnalysisResult_repair (cfg : Config) (usr : option string)
    (r : AnalysisResult) (skipSave : bool) (tm : string) (s : App) :
  truthy_value (repair_steps r) = true ->
  handleAnalysisResult cfg usr r repair_guide skipSave tm s
  = setShowRepairModal true (setRepairSteps (repair_steps r) s).
Proof. intros H. unfold handleAnalysisResult. now rewrite H. Qed.

Lemma handleAnalysisResult_plain (cfg : Config) (usr : option string)
    (r : AnalysisResult) (mode : Mode) (skipSave : bool) (tm : string) (s : App) :
  resultEntries mode r = 1%nat ->
  handleAnalysisResult cfg usr r mode skipSave tm s
  = setSaved (savedAfter cfg usr r mode skipSave (saved s))
      (setLogs (resultLog r tm :: logs s)
         (setSpoken (spokenAfter cfg (spokenText r) (spoken s))
            (setSystemState (or_else (status r) "UNCERTAIN")
               (setCurrentAnalysis (Some r) s)))).
Proof.
  intros Hplain.
  assert (Hbody :
    (let s1 := setCurrentAnalysis (Some r) s in
     let s2 := setSystemState (or_else (status r) "UNCERTAIN") s1 in
     let s3 := speak cfg (spokenText r) s2 in
     let s4 := addLog "OMNITECH"
                 (or_else (reasoning r) "No reasoning returned.") "info" tm s3 in
     match usr with
     | Some uid =>
         if (negb skipSave && db cfg)%bool
         then setSaved (safetyEvent uid mode r :: saved s4) s4
         else s4
     | None => s4
     end)
    = setSaved (savedAfter cfg usr r mode skipSave (saved s))
        (setLogs (resultLog r tm :: logs s)
           (setSpoken (spokenAfter cfg (spokenText r) (spoken s))
              (setSystemState (or_else (status r) "UNCERTAIN")
                 (setCurrentAnalysis (Some r) s))))).
  { cbv zeta. rewrite addLog_info by reflexivity. rewrite speak_eq.
    unfold savedAfter, resultLog.
    destruct usr as [uid |]; [ destruct (negb skipSave && db cfg)%bool | ];
      reflexivity. }
  unfold handleAnalysisResult, resultEntries in *.
  destruct (is_repair_guide mode && truthy_value (repair_steps r))%bool;
    [ discriminate | exact Hbody ].
Qed.

Lemma savedAfter_skip (cfg : Config) (usr : option string) (r : AnalysisResult)
    (mode : Mode) (l : list SavedDoc) :
  savedAfter cfg usr r mode true l = l.
Proof. destruct usr; reflexivity. Qed.

(** A result goes to the repair surface, in repair mode and with truthy
    steps, or is handled in the plain way. *)
Lemma resultEntries_cases (mode : Mode) (r : AnalysisResult) :
  (mode = repair_guide /\ truthy_value (repair_steps r) = true
   /\ resultEntries mode r = 0%nat)
  \/ resultEntries mode r = 1%nat.
Proof.
  unfold resultEntries.
  destruct mode; cbn [is_repair_guide andb]; auto.
  destruct (truthy_value (repair_steps r)); auto.
Qed.

(** ** The demo fallback *)

Lemma demo_pick (step : nat) :
  let pick := nth (Nat.modulo step (List.length demo)) demo demo0 in
  pick = demo0 \/ pick = demo1 \/ pick = demo2.
Proof.
  cbn [demo List.length].
  pose proof (Nat.mod_upper_bound step 3 ltac:(discriminate)) as Hlt.
  destruct (Nat.modulo step 3) as [| [| [| k]]]; cbn; auto. lia.
Qed.

Lemma getDemoResult_nonEmpty (mode : Mode) (step : nat) :
  nonEmptyResult (getDemoResult mode step) = true.
Proof.
  unfold getDemoResult.
  destruct (demo_pick step) as [-> | [-> | ->]]; destruct mode; reflexivity.
Qed.

Lemma getDemoResult_repair_steps (step : nat) :
  repair_steps (getDemoResult repair_guide step) = Some (strings demo_repair_steps).
Proof.
  unfold getDemoResult.
  destruct (demo_pick step) as [-> | [-> | ->]]; reflexivity.
Qed.

Lemma getDemoResult_status (mode : Mode) (step : nat) :
  status (getDemoResult mode step) = Some "SAFE"
  \/ status (getDemoResult mode step) = Some "DANGER"
  \/ status (getDemoResult mode step) = Some "UNCERTAIN".
Proof.
  unfold getDemoResult.
  destruct (demo_pick step) as [-> | [-> | ->]]; destruct mode; cbn; auto.
Qed.

(** C3: when the service answers 429 the call hands the demo result of the
    call's mode to [handleAnalysisResult].  That result has a status, a
    headline, a reasoning and an action; outside repair mode it becomes the
    current analysis and its status the safety state, in repair mode its
    steps fill the repair surface.  The toast the call leaves is the success
    toast of the fallback, not an error; the rest is log entries.  Nothing is
    saved and no further request is made. *)
Theorem quota_answer_falls_back (cfg : Config) (p : Pending) (response : Response)
    (tm : string) (s : App) :
  resp_status response = 429 ->
  let demoResult := getDemoResult (p_mode p) (p_demoStep p) in
  let s' := callOmniTech_resume cfg p (fetch_resolves response) tm s in
  nonEmptyResult demoResult = true
  /\ (exists s0,
        logs s0 = quotaTip tm :: quotaLog tm :: logs s
        /\ s' = finishCall
                  (setToast (Some quotaToast)
                     (handleAnalysisResult cfg (p_user p) demoResult (p_mode p) true tm s0)))
  /\ toast s' = Some quotaToast
  /\ match p_mode p with
     | repair_guide =>
         repairSteps s' = Some (strings demo_repair_steps)
         /\ showRepairModal s' = true
         /\ logs s' = quotaTip tm :: quotaLog tm :: logs s
     | _ =>
         currentAnalysis s' = Some demoResult
         /\ systemState s' = or_else (status demoResult) "UNCERTAIN"
         /\ logs s' = resultLog demoResult tm :: quotaTip tm :: quotaLog tm :: logs s
     end
  /\ saved s' = saved s
  /\ fetched s' = fetched s
  /\ inFlight (guard s') = false.
Proof.
  intros Hst demoResult s'.
  assert (Hs' : s' = finishCall
            (setToast (Some quotaToast)
               (handleAnalysisResult cfg (p_user p) demoResult (p_mode p) true tm
                  (setDemoStep (S (demoStep s))
                     (addLog "SYSTEM" (message (quotaTip tm)) "info" tm
                        (addLog "ERROR" (message (quotaLog tm)) "error" tm s)))))).
  { subst s'. unfold callOmniTech_resume. rewrite Hst. reflexivity. }
  split; [ apply getDemoResult_nonEmpty | ].
  split; [ eexists; split; [ | exact Hs' ]; reflexivity | ].
  rewrite Hs'. clear Hs' s'.
  pose proof (getDemoResult_repair_steps (p_demoStep p)) as Hsteps.
  subst demoResult.
  rewrite addLog_error, addLog_info by reflexivity.
  destruct (p_mode p).
  - rewrite handleAnalysisResult_plain by reflexivity. fields.
    rewrite savedAfter_skip. auto 10.
  - rewrite handleAnalysisResult_plain by reflexivity. fields.
    rewrite savedAfter_skip. auto 10.
  - rewrite handleAnalysisResult_repair by (now rewrite Hsteps).
    rewrite Hsteps. fields. auto 10.
Qed.

(** ** Result handling *)

Lemma resume_parsed (cfg : Config) (p : Pending) (out : FetchOutcome)
    (tm : string) (s : App) (r : AnalysisResult) :
  parsedResult out = Some r ->
  callOmniTech_resume cfg p out tm s
  = finishCall (setUserContext ""
      (handleAnalysisResult cfg (p_user p) r (p_mode p) false tm s)).
Proof.
  unfold parsedResult, callOmniTech_resume.
  destruct out as [| response]; [ discriminate | ].
  destruct (resp_status response =? 429); [ discriminate | ].
  destruct (negb (resp_ok response)); [ discriminate | ].
  destruct (resp_json response) as [data |]; [ | discriminate ].
  destruct (data_error data); [ discriminate | ].
  destruct (truthy (data_text data)); [ | discriminate ].
  cbn [negb]. intros ->. reflexivity.
Qed.

(** A response that is neither a quota answer nor a genuine result ends the
    call with one error entry and nothing else but the release. *)
Lemma resume_failed (cfg : Config) (p : Pending) (out : FetchOutcome)
    (tm : string) (s : App) :
  parsedResult out = None ->
  match out with fetch_resolves r => resp_status r =? 429 | fetch_throws => false end = false ->
  exists msg, callOmniTech_resume cfg p out tm s
              = finishCall (addLog "ERROR" msg "error" tm s).
Proof.
  unfold parsedResult, callOmniTech_resume, connectionFailed.
  destruct out as [| response]; [ intros; eexists; reflexivity | ].
  intros Hp H429. rewrite H429 in *.
  destruct (negb (resp_ok response)).
  { destruct (resp_text response); eexists; reflexivity. }
  destruct (resp_json response) as [data |]; [ | eexists; reflexivity ].
  destruct (data_error data); [ eexists; reflexivity | ].
  destruct (truthy (data_text data)); cbn [negb]; [ | eexists; reflexivity ].
  rewrite Hp. eexists; reflexivity.
Qed.

(** C5, as amended: a repair-guide result whose [repair_steps] is truthy
    (an array, be it empty, for the format of the prompt) leaves the safety
    state, and the current analysis, the log, the store, the speech trace and
    the toast, as they were, and only fills the repair surface; the same
    holds of the whole continuation of a repair-guide call that receives such
    a result.  A repair-guide result whose [repair_steps] is missing or falsy
    ([null], say) is handled like a result of any other mode: but for the
    mode written into the store it leaves the same state behind, with the
    result on display, its status (UNCERTAIN when it has none) as the safety
    state, one log entry more and the repair surface untouched. *)
Theorem repair_result_keeps_safety_state (cfg : Config) (usr : option string)
    (result : AnalysisResult) (skipSave : bool) (tm : string) (s : App) :
  let s' := handleAnalysisResult cfg usr result repair_guide skipSave tm s in
  (truthy_value (repair_steps result) = true ->
   (systemState s' = systemState s
    /\ repairSteps s' = repair_steps result
    /\ showRepairModal s' = true
    /\ currentAnalysis s' = currentAnalysis s
    /\ logs s' = logs s
    /\ saved s' = saved s
    /\ spoken s' = spoken s
    /\ toast s' = toast s)
   /\ forall p out tm2 s2,
        p_mode p = repair_guide -> parsedResult out = Some result ->
        let s3 := callOmniTech_resume cfg p out tm2 s2 in
        systemState s3 = systemState s2
        /\ repairSteps s3 = repair_steps result
        /\ showRepairModal s3 = true)
  /\ (truthy_value (repair_steps result) = false ->
      (forall mode,
         setSaved (saved s) s'
         = setSaved (saved s) (handleAnalysisResult cfg usr result mode skipSave tm s))
      /\ saved s' = savedAfter cfg usr result repair_guide skipSave (saved s)
      /\ systemState s' = or_else (status result) "UNCERTAIN"
      /\ currentAnalysis s' = Some result
      /\ logs s' = resultLog result tm :: logs s
      /\ repairSteps s' = repairSteps s
      /\ showRepairModal s' = showRepairModal s).
Proof.
  cbv zeta. split.
  - intros Hsteps. split.
    + rewrite (handleAnalysisResult_repair _ _ _ _ _ _ Hsteps). fields. auto 10.
    + intros p out tm2 s2 Hmode Hout.
      rewrite (resume_parsed _ _ _ _ _ _ Hout), Hmode.
      rewrite (handleAnalysisResult_repair _ _ _ _ _ _ Hsteps). fields. auto.
  - intros Hsteps.
    assert (Hplain : forall mode, resultEntries mode result = 1%nat).
    { intros mode. unfold resultEntries. rewrite Hsteps, andb_false_r. reflexivity. }
    split; [ | rewrite handleAnalysisResult_plain by apply Hplain; fields; auto 10 ].
    intros mode. rewrite !handleAnalysisResult_plain by apply Hplain. reflexivity.
Qed.

(** C5 as stated fails: a repair-guide answer that comes without
    [repair_steps], or with [repair_steps: null], is handled like any other
    result and moves the safety state. *)
Lemma repair_result_without_steps_moves_state :
  systemState safeApp = "SAFE"
  /\ repair_steps hazardNoSteps = None
  /\ systemState
       (handleAnalysisResult cfgKey None hazardNoSteps repair_guide false "10:00:00" safeApp)
     = "DANGER"
  /\ repair_steps hazardNullSteps = Some JNull
  /\ systemState
       (handleAnalysisResult cfgKey None hazardNullSteps repair_guide false "10:00:00"
          safeApp)
     = "DANGER".
Proof. repeat split. Qed.

Lemma repair_result_keeps_safety_state_witness :
  truthy_value (repair_steps safeSteps) = true
  /\ systemState
       (handleAnalysisResult cfgKey None safeSteps repair_guide false "10:00:00" safeApp)
     = "SAFE"
  /\ truthy_value (repair_steps hazardNullSteps) = false
  /\ systemState
       (handleAnalysisResult cfgKey None hazardNullSteps repair_guide false "10:00:00"
          safeApp)
     = "DANGER".
Proof.
  split; [ reflexivity | ].
  split; [ exact (proj1 (proj1 (proj1 (repair_result_keeps_safety_state cfgKey None
                            safeSteps false "10:00:00" safeApp) eq_refl))) | ].
  split; [ reflexivity | ].
  exact (proj1 (proj2 (proj2 (proj2 (repair_result_keeps_safety_state cfgKey None
                  hazardNullSteps false "10:00:00" safeApp) eq_refl)))).
Defined.

(** ** Log entries *)

Lemma logs_addLog (src msg typ tm : string) (s : App) :
  logs (addLog src msg typ tm s) = mkLog src msg tm :: logs s.
Proof. unfold addLog. branch; reflexivity. Qed.

Lemma logs_finishCall (s : App) : logs (finishCall s) = logs s.
Proof. reflexivity. Qed.

Lemma logs_handleAnalysisResult (cfg : Config) (usr : option string)
    (r : AnalysisResult) (mode : Mode) (skipSave : bool) (tm : string) (s : App) :
  logs (handleAnalysisResult cfg usr r mode skipSave tm s)
  = firstn (resultEntries mode r) [resultLog r tm] ++ logs s.
Proof.
  destruct (is_repair_guide mode && truthy_value (repair_steps r))%bool eqn:Hrep.
  - unfold resultEntries. rewrite Hrep.
    apply andb_true_iff in Hrep. destruct Hrep as [Hm Hsteps].
    destruct mode; try discriminate.
    rewrite (handleAnalysisResult_repair _ _ _ _ _ _ Hsteps). reflexivity.
  - assert (Hn : resultEntries mode r = 1%nat) by (unfold resultEntries; now rewrite Hrep).
    rewrite handleAnalysisResult_plain by exact Hn. rewrite Hn. reflexivity.
Qed.





(** ** Missing API key *)

(** C10, as amended: with no API key, no invocation issues a request,
    suspends, saves anything or depends on what [captureFrame] would find
    (which is never called); and every
    invocation that passes the rate guard writes the missing-key error entry
    and hands the demo result of its mode to [handleAnalysisResult] with
    saving switched off, advancing the demo counter. *)
Theorem missing_key_uses_demo (cfg : Config) (env : Env) (mode : Mode)
    (manualContext : string) (s : App) :
  truthy (API_KEY cfg) = false ->
  let r := callOmniTech_start cfg env mode manualContext s in
  (snd r = None
   /\ fetched (fst r) = fetched s
   /\ saved (fst r) = saved s
   /\ forall o, callOmniTech_start cfg (withOptics o env) mode manualContext s = r)
  /\ (ok (snd (canCallNow (now_guard env) (guard s))) = true ->
      let demoResult := getDemoResult mode (demoStep s) in
      (exists s0,
         logs s0 = missingKeyLog (clock env) :: logs s
         /\ fst r = finishCall
                      (handleAnalysisResult cfg (user s) demoResult mode true
                         (clock env) s0))
      /\ demoStep (fst r) = S (demoStep s)
      /\ logs (fst r)
         = firstn (resultEntries mode demoResult) [resultLog demoResult (clock env)]
           ++ missingKeyLog (clock env) :: logs s
      /\ match mode with
         | repair_guide =>
             repairSteps (fst r) = Some (strings demo_repair_steps)
             /\ showRepairModal (fst r) = true
         | _ =>
             currentAnalysis (fst r) = Some demoResult
             /\ systemState (fst r) = or_else (status demoResult) "UNCERTAIN"
         end).
Proof.
  intros Hkey. cbv zeta.
  assert (Hdemo : forall tm s0,
            fetched (handleAnalysisResult cfg (user s)
                       (getDemoResult mode (demoStep s)) mode true tm s0) = fetched s0
            /\ saved (handleAnalysisResult cfg (user s)
                        (getDemoResult mode (demoStep s)) mode true tm s0) = saved s0
            /\ demoStep (handleAnalysisResult cfg (user s)
                           (getDemoResult mode (demoStep s)) mode true tm s0)
               = demoStep s0
            /\ match mode with
               | repair_guide =>
                   repairSteps (handleAnalysisResult cfg (user s)
                                  (getDemoResult mode (demoStep s)) mode true tm s0)
                   = Some (strings demo_repair_steps)
                   /\ showRepairModal (handleAnalysisResult cfg (user s)
                                         (getDemoResult mode (demoStep s)) mode true tm s0)
                      = true
               | _ =>
                   currentAnalysis (handleAnalysisResult cfg (user s)
                                      (getDemoResult mode (demoStep s)) mode true tm s0)
                   = Some (getDemoResult mode (demoStep s))
                   /\ systemState (handleAnalysisResult cfg (user s)
                                     (getDemoResult mode (demoStep s)) mode true tm s0)
                      = or_else (status (getDemoResult mode (demoStep s))) "UNCERTAIN"
               end).
  { intros tm s0.
    pose proof (getDemoResult_repair_steps (demoStep s)) as Hsteps.
    destruct mode.
    - rewrite handleAnalysisResult_plain by reflexivity. fields.
      rewrite savedAfter_skip. auto.
    - rewrite handleAnalysisResult_plain by reflexivity. fields.
      rewrite savedAfter_skip. auto.
    - rewrite handleAnalysisResult_repair by (now rewrite Hsteps).
      rewrite Hsteps. fields. auto. }
  assert (Hstart : forall e,
            callOmniTech_start cfg e mode manualContext s
            = if negb (ok (snd (canCallNow (now_guard e) (guard s)))) then
                (setToast
                   (Some (mkToast
                            (or_else (reason (snd (canCallNow (now_guard e) (guard s)))) "")
                            toast_error))
                   (setGuard (fst (canCallNow (now_guard e) (guard s))) s), None)
              else
                (finishCall
                   (handleAnalysisResult cfg (user s) (getDemoResult mode (demoStep s))
                      mode true (clock e)
                      (setDemoStep (S (demoStep s))
                         (addLog "ERROR" (message (missingKeyLog (clock e))) "error"
                            (clock e)
                            (setAnalyzing true
                               (setGuard
                                  (recordCall (now_record e)
                                     (fst (canCallNow (now_guard e) (guard s))))
                                  (setGuard (fst (canCallNow (now_guard e) (guard s))) s)))))),
                 None)).
  { intros e. unfold callOmniTech_start.
    destruct (canCallNow (now_guard e) (guard s)) as [g1 v]. cbn [fst snd].
    rewrite Hkey. reflexivity. }
  split.
  - split; [ | split; [ | split ] ].
    + rewrite Hstart. destruct (negb _); reflexivity.
    + rewrite Hstart. destruct (negb _); [ reflexivity | ].
      cbn [fst]. change (fetched (finishCall ?x)) with (fetched x).
      rewrite (proj1 (Hdemo _ _)). reflexivity.
    + rewrite Hstart. destruct (negb _); [ reflexivity | ].
      cbn [fst]. change (saved (finishCall ?x)) with (saved x).
      rewrite (proj1 (proj2 (Hdemo _ _))). rewrite addLog_error. reflexivity.
    + intros o. rewrite !Hstart. reflexivity.
  - intros Hok. rewrite Hstart, Hok. cbn [negb fst].
    destruct (Hdemo (clock env)
                (setDemoStep (S (demoStep s))
                   (addLog "ERROR" (message (missingKeyLog (clock env))) "error"
                      (clock env)
                      (setAnalyzing true
                         (setGuard
                            (recordCall (now_record env)
                               (fst (canCallNow (now_guard env) (guard s))))
                            (setGuard (fst (canCallNow (now_guard env) (guard s))) s))))))
      as (_ & _ & Hstep & Hmode).
    split; [ eexists; split; [ | reflexivity ]; reflexivity | ].
    split; [ change (demoStep (finishCall ?x)) with (demoStep x); rewrite Hstep;
             reflexivity | ].
    split; [ rewrite logs_finishCall, logs_handleAnalysisResult; reflexivity | ].
    destruct mode; exact Hmode.
Qed.

(** C10 as stated fails for an invocation the rate guard turns away: the
    second of two clicks one second apart, with no API key, gets the cooldown
    toast, and neither a demo result nor a log entry. *)
Lemma missing_key_call_in_cooldown :
  let s1 := fst (callOmniTech_start cfgNoKey (envAt 1000000) safety_check "" initApp) in
  let s2 := fst (callOmniTech_start cfgNoKey (envAt 1001000) safety_check "" s1) in
  truthy (API_KEY cfgNoKey) = false
  /\ toast s2 = Some (mkToast "Cooldown: wait 2s" toast_error)
  /\ logs s2 = logs s1
  /\ demoStep s2 = demoStep s1
  /\ currentAnalysis s2 = currentAnalysis s1.
Proof. cbv zeta. repeat split. Qed.

Lemma missing_key_uses_demo_witness :
  truthy (API_KEY cfgNoKey) = false
  /\ ok (snd (canCallNow 1000000 (guard initApp))) = true
  /\ currentAnalysis
       (fst (callOmniTech_start cfgNoKey (mkEnv 1000000 1000000 darkOptics "10:00:00")
               safety_check "" initApp))
     = Some demo0.
Proof.
  split; [ reflexivity | ]. split; [ reflexivity | ].
  exact (proj1 (proj2 (proj2 (proj2
           (proj2 (missing_key_uses_demo cfgNoKey (mkEnv 1000000 1000000 darkOptics "10:00:00")
                     safety_check "" initApp eq_refl) eq_refl))))).
Defined.

(** ** Persistence *)

Lemma saved_handleAnalysisResult (cfg : Config) (usr : option string)
    (r : AnalysisResult) (mode : Mode) (skipSave : bool) (tm : string) (s : App) :
  saved (handleAnalysisResult cfg usr r mode skipSave tm s) = saved s
  \/ exists uid,
       skipSave = false /\ usr = Some uid
       /\ saved (handleAnalysisResult cfg usr r mode skipSave tm s)
          = safetyEvent uid mode r :: saved s.
Proof.
  destruct (resultEntries_cases mode r) as [(-> & Hsteps & _) | Hn].
  - left. rewrite (handleAnalysisResult_repair _ _ _ _ _ _ Hsteps). reflexivity.
  - rewrite handleAnalysisResult_plain by exact Hn. fields. unfold savedAfter.
    destruct usr as [uid |]; [ | now left ].
    destruct skipSave; [ now left | ].
    destruct (db cfg); [ | now left ].
    right. exists uid. auto.
Qed.

Lemma saved_handleAnalysisResult_skip (cfg : Config) (usr : option string)
    (r : AnalysisResult) (mode : Mode) (tm : string) (s : App) :
  saved (handleAnalysisResult cfg usr r mode true tm s) = saved s.
Proof.
  destruct (saved_handleAnalysisResult cfg usr r mode true tm s)
    as [H | (uid & Hskip & _)]; [ exact H | discriminate ].
Qed.

Lemma saved_addLog (src msg typ tm : string) (s : App) :
  saved (addLog src msg typ tm s) = saved s.
Proof. unfold addLog. branch; reflexivity. Qed.

Lemma saved_start (cfg : Config) (env : Env) (mode : Mode) (ctx : string) (s : App) :
  saved (fst (callOmniTech_start cfg env mode ctx s)) = saved s.
Proof.
  unfold callOmniTech_start.
  destruct (canCallNow (now_guard env) (guard s)) as [g1 v].
  destruct (negb (ok v)); [ reflexivity | ].
  destruct (negb (truthy (API_KEY cfg))).
  { cbn [fst]. unfold finishCall. cbn [setGuard setAnalyzing saved].
    rewrite saved_handleAnalysisResult_skip. cbn [setDemoStep saved].
    now rewrite saved_addLog. }
  destruct (captureFrame (optics env)) as [| imageBase64]; [ reflexivity | ].
  destruct (negb (truthy imageBase64)); cbn [fst].
  - unfold finishCall. cbn [setGuard setAnalyzing saved]. now rewrite saved_addLog.
  - reflexivity.
Qed.

Lemma saved_resume (cfg : Config) (p : Pending) (out : FetchOutcome)
    (tm : string) (s : App) :
  saved (callOmniTech_resume cfg p out tm s) = saved s
  \/ exists uid r,
       parsedResult out = Some r /\ p_user p = Some uid
       /\ saved (callOmniTech_resume cfg p out tm s) = safetyEvent uid (p_mode p) r :: saved s.
Proof.
  destruct (parsedResult out) as [r |] eqn:Hparsed.
  - rewrite (resume_parsed _ _ _ _ _ _ Hparsed).
    unfold finishCall. cbn [setGuard setAnalyzing setUserContext saved].
    destruct (saved_handleAnalysisResult cfg (p_user p) r (p_mode p) false tm s)
      as [H | (uid & _ & Hu & H)]; [ now left | ].
    right. exists uid, r. auto.
  - left.
    destruct (match out with
              | fetch_resolves r => resp_status r =? 429
              | fetch_throws => false
              end) eqn:H429.
    + destruct out as [| response]; [ discriminate | ].
      unfold callOmniTech_resume. rewrite H429. cbn [DEMO_MODE].
      unfold finishCall. cbn [setGuard setAnalyzing setToast saved].
      rewrite saved_handleAnalysisResult_skip. cbn [setDemoStep saved].
      now rewrite !saved_addLog.
    + destruct (resume_failed cfg p out tm s Hparsed H429) as [msg ->].
      unfold finishCall. cbn [setGuard setAnalyzing saved]. apply saved_addLog.
Qed.

Lemma saved_generateFieldReport (cfg : Config) (renv : ReportEnv) (s : App) :
  saved (generateFieldReport cfg renv s) = saved s.
Proof.
  unfold generateFieldReport, reportFailed.
  repeat branch; cbn [setGeneratingReport setShowReportModal setGeneratedReport saved];
    rewrite ?saved_addLog; reflexivity.
Qed.

Lemma saved_suspend (old : option Pending) (r : App * option Pending) :
  saved (fst (suspend old r)) = saved (fst r).
Proof. destruct r as [s [p |]]; reflexivity. Qed.

Lemma saved_submitTextDiagnosis (cfg : Config) (env : Env) (s : App) :
  saved (fst (submitTextDiagnosis cfg env s)) = saved s.
Proof.
  unfold submitTextDiagnosis.
  destruct (trim (userContext s) =? "")%string; [ reflexivity | ].
  pose proof (saved_start cfg env diagnosis (trim (userContext s))
                (setToast (Some (mkToast "Context sent." toast_success)) s)) as H.
  destruct (callOmniTech_start _ _ _ _ _) as [s2 p]. exact H.
Qed.

(** One event either leaves the store as it was or is the arrival of a
    genuine result, which is what gets saved. *)
Lemma saved_step (cfg : Config) (ev : Event) (ss : Session) :
  saved (fst (step cfg ev ss)) = saved (fst ss)
  \/ exists out tm p uid r,
       ev = FetchSettled out tm /\ snd ss = Some p
       /\ parsedResult out = Some r /\ p_user p = Some uid
       /\ saved (fst (step cfg ev ss)) = safetyEvent uid (p_mode p) r :: saved (fst ss).
Proof.
  destruct ss as [s pend]. unfold step.
  destruct ev as [| tm | u | | | | text | env | env | env | env | renv | out tm];
    cbn [fst snd]; try (left; reflexivity).
  - left. destruct (safetyDisabled s); [ reflexivity | ].
    now rewrite saved_suspend, saved_start.
  - left. destruct (diagnoseDisabled s); [ reflexivity | ].
    now rewrite saved_suspend, saved_start.
  - left. destruct (repairVisible s); [ | reflexivity ].
    now rewrite saved_suspend, saved_start.
  - left. now rewrite saved_suspend, saved_submitTextDiagnosis.
  - left. destruct (reportDisabled s); [ reflexivity | ].
    apply saved_generateFieldReport.
  - destruct pend as [p |]; [ | left; reflexivity ]. cbn [fst].
    destruct (saved_resume cfg p out tm s) as [H | (uid & r & Hp & Hu & H)];
      [ now left | ].
    right. exists out, tm, p, uid, r. auto.
Qed.

(** C4: the two fallback paths (missing key, quota answer) save nothing;
    an event adds a document to the store only when it is the arrival of a
    genuine successful response, and the document is then the one
    [handleAnalysisResult] writes for the result that response parsed to; so
    after any sequence of events every document added to the store is the
    result of a genuine response of that sequence. *)
Theorem only_genuine_results_saved (cfg : Config) :
  (forall usr mode step tm s,
     saved (handleAnalysisResult cfg usr (getDemoResult mode step) mode true tm s)
     = saved s)
  /\ (forall env mode ctx s,
        saved (fst (callOmniTech_start cfg env mode ctx s)) = saved s)
  /\ (forall p out tm s,
        parsedResult out = None ->
        saved (callOmniTech_resume cfg p out tm s) = saved s)
  /\ (forall evs ss,
        exists new,
          saved (fst (run cfg evs ss)) = new ++ saved (fst ss)
          /\ forall d, In d new ->
               exists out tm uid mode r,
                 In (FetchSettled out tm) evs
                 /\ parsedResult out = Some r
                 /\ d = safetyEvent uid mode r).
Proof.
  split; [ intros; apply saved_handleAnalysisResult_skip | ].
  split; [ intros; apply saved_start | ].
  split.
  { intros p out tm s Hnone.
    destruct (saved_resume cfg p out tm s) as [H | (uid & r & Hp & _)];
      [ exact H | congruence ]. }
  induction evs as [| ev rest IH]; intros ss.
  - exists []. split; [ reflexivity | intros d [] ].
  - cbn [run fold_left]. fold (run cfg rest (step cfg ev ss)).
    destruct (IH (step cfg ev ss)) as (new & Hnew & Hall).
    destruct (saved_step cfg ev ss) as [Hsame | (out & tm & p & uid & r & -> & _ & Hr & _ & Hadd)].
    + exists new. rewrite Hnew, Hsame. split; [ reflexivity | ].
      intros d Hd. destruct (Hall d Hd) as (out & tm & uid & mode & r & Hin & Hp & Hd').
      exists out, tm, uid, mode, r. split; [ now right | auto ].
    + exists (new ++ [safetyEvent uid (p_mode p) r]). rewrite Hnew, Hadd.
      split; [ now rewrite <- app_assoc | ].
      intros d Hd. apply in_app_or in Hd. destruct Hd as [Hd | [<- | []]].
      * destruct (Hall d Hd) as (out' & tm' & uid' & mode' & r' & Hin & Hp & Hd').
        exists out', tm', uid', mode', r'. split; [ now right | auto ].
      * exists out, tm, uid, (p_mode p), r. split; [ now left | auto ].
Qed.

(** ** Report generation *)

Lemma append_assoc (a b c : string) : ((a ++ b) ++ c = a ++ b ++ c)%string.
Proof. induction a as [| ch a IH]; cbn; [ reflexivity | now rewrite IH ]. Qed.

Lemma append_nil_r (a : string) : (a ++ "" = a)%string.
Proof. induction a as [| ch a IH]; cbn; [ reflexivity | now rewrite IH ]. Qed.

Lemma join_cons (sep x : string) (l : list string) :
  l <> [] -> join sep (x :: l) = (x ++ sep ++ join sep l)%string.
Proof. destruct l; [ congruence | reflexivity ]. Qed.

Lemma join_contains (sep : string) (pre : list string) (x : string)
    (post : list string) :
  contains (join sep (pre ++ x :: post)) x.
Proof.
  induction pre as [| p pre IH].
  - destruct post as [| y post].
    + exists "", "". cbn. now rewrite append_nil_r.
    + exists "", (sep ++ join sep (y :: post))%string. reflexivity.
  - destruct IH as (a & b & IH).
    exists (p ++ sep ++ a)%string, b.
    change ((p :: pre) ++ x :: post) with (p :: (pre ++ x :: post)).
    rewrite join_cons by (destruct pre; discriminate).
    rewrite IH. now rewrite !append_assoc.
Qed.

Lemma join_containsInOrder (sep : string) (pre : list string) (x : string)
    (mid : list string) (y : string) (post : list string) :
  containsInOrder (join sep (pre ++ x :: mid ++ y :: post)) x y.
Proof.
  induction pre as [| p pre IH].
  - destruct (join_contains sep mid y post) as (a & b & Hy).
    exists "", (sep ++ a)%string, b.
    change ([] ++ x :: mid ++ y :: post) with (x :: (mid ++ y :: post)).
    rewrite join_cons by (destruct mid; discriminate).
    rewrite Hy. cbn. now rewrite !append_assoc.
  - destruct IH as (a & b & c & IH).
    exists (p ++ sep ++ a)%string, b, c.
    change ((p :: pre) ++ x :: mid ++ y :: post)
      with (p :: (pre ++ x :: mid ++ y :: post)).
    rewrite join_cons by (destruct pre; discriminate).
    rewrite IH. now rewrite !append_assoc.
Qed.

(** A log line ends with the message of its entry. *)
Lemma formatLog_message (e : LogEntry) :
  exists prefix, formatLog e = (prefix ++ message e)%string.
Proof.
  exists ("[" ++ time e ++ "] " ++ source e ++ ": ")%string.
  unfold formatLog. now rewrite !append_assoc.
Qed.

Lemma contains_line (doc : string) (e : LogEntry) :
  contains doc (formatLog e) -> contains doc (message e).
Proof.
  intros (a & b & ->). destruct (formatLog_message e) as (pre & ->).
  exists (a ++ pre)%string, b. now rewrite !append_assoc.
Qed.

Lemma containsInOrder_lines (doc : string) (e1 e2 : LogEntry) :
  containsInOrder doc (formatLog e1) (formatLog e2) ->
  containsInOrder doc (message e1) (message e2).
Proof.
  intros (a & b & c & ->).
  destruct (formatLog_message e1) as (p1 & ->).
  destruct (formatLog_message e2) as (p2 & ->).
  exists (a ++ p1)%string, (b ++ p2)%string, c. now rewrite !append_assoc.
Qed.

Lemma localReport_contains (stamp : string) (entries : list LogEntry) (e : LogEntry) :
  In e (firstn 30 entries) -> contains (localReport stamp entries) (message e).
Proof.
  intros Hin. apply contains_line.
  apply in_rev in Hin. apply in_split in Hin. destruct Hin as (pre & post & Hsplit).
  assert (Hshape : localReportLines stamp entries
                   = (reportHeader stamp ++ map formatLog pre)
                     ++ formatLog e :: (map formatLog post ++ reportFooter)).
  { unfold localReportLines, sessionLines.
    rewrite Hsplit, map_app. cbn [map]. rewrite <- !app_assoc. reflexivity. }
  unfold localReport. rewrite Hshape. apply join_contains.
Qed.

Lemma localReport_inOrder (stamp : string) (entries pre mid post : list LogEntry)
    (e1 e2 : LogEntry) :
  rev (firstn 30 entries) = pre ++ e1 :: mid ++ e2 :: post ->
  containsInOrder (localReport stamp entries) (message e1) (message e2).
Proof.
  intros Hsplit. apply containsInOrder_lines.
  assert (Hshape : localReportLines stamp entries
                   = (reportHeader stamp ++ map formatLog pre)
                     ++ formatLog e1
                        :: map formatLog mid
                           ++ formatLog e2 :: (map formatLog post ++ reportFooter)).
  { unfold localReportLines, sessionLines.
    rewrite Hsplit, map_app. cbn [map]. rewrite map_app. cbn [map].
    rewrite <- !app_assoc. cbn [app]. rewrite <- !app_assoc. reflexivity. }
  unfold localReport. rewrite Hshape. apply join_containsInOrder.
Qed.

Lemma localReport_nonEmpty (stamp : string) (entries : list LogEntry) :
  (0 < String.length (localReport stamp entries))%nat.
Proof.
  unfold localReport, localReportLines, reportHeader.
  cbn [app]. rewrite join_cons by discriminate. cbn [append String.length]. lia.
Qed.

(** C9, as amended: [generateFieldReport] does nothing on an empty log; the
    Report button is disabled below two entries, so a click then changes
    nothing and calls nothing; with one entry or more (so with two or more)
    the function makes no request and shows the local report, which is not
    empty and holds the messages of the thirty newest entries, an earlier
    entry's message before a later entry's. *)
Theorem report_generation (cfg : Config) (renv : ReportEnv) (s : App) :
  (List.length (logs s) = 0%nat -> generateFieldReport cfg renv s = s)
  /\ ((List.length (logs s) < 2)%nat ->
      forall pend, step cfg (ClickReport renv) (s, pend) = (s, pend))
  /\ ((1 <= List.length (logs s))%nat ->
      let s' := generateFieldReport cfg renv s in
      let doc := localReport (stamp renv) (logs s) in
      generatedReport s' = Some doc
      /\ showReportModal s' = true
      /\ fetched s' = fetched s
      /\ systemState s' = systemState s
      /\ (0 < String.length doc)%nat
      /\ (forall e, In e (firstn 30 (logs s)) -> contains doc (message e))
      /\ (forall pre e1 mid e2 post,
            rev (firstn 30 (logs s)) = pre ++ e1 :: mid ++ e2 :: post ->
            containsInOrder doc (message e1) (message e2))).
Proof.
  split; [ | split ].
  - intros Hlen. unfold generateFieldReport. now rewrite Hlen.
  - intros Hlen pend. unfold step, reportDisabled.
    apply Nat.ltb_lt in Hlen. now rewrite Hlen.
  - intros Hlen. cbv zeta. unfold generateFieldReport.
    destruct (Nat.eqb_spec (List.length (logs s)) 0) as [H0 | _]; [ lia | ].
    unfold DEMO_MODE. rewrite orb_true_r.
    repeat split.
    + apply localReport_nonEmpty.
    + intros e. apply localReport_contains.
    + intros pre e1 mid e2 post. apply localReport_inOrder.
Qed.

Lemma prefix_append (x b : string) : String.prefix x (x ++ b) = true.
Proof.
  induction x as [| c x IH]; cbn.
  - now destruct b.
  - destruct (ascii_dec c c) as [_ | Hne]; [ exact IH | congruence ].
Qed.

Lemma contains_occurs (doc x : string) : contains doc x -> occurs x doc = true.
Proof.
  intros (a & b & ->).
  induction a as [| c a IH].
  - cbn [append]. destruct (x ++ b)%string eqn:E; cbn [occurs];
      rewrite <- E, prefix_append; reflexivity.
  - cbn [append occurs]. rewrite IH. apply orb_true_r.
Qed.

(** C9 as stated fails at the function: with exactly one entry it writes and
    shows a report and appends a log entry; and with thirty-one entries the
    report leaves out the message of the oldest. *)
Lemma report_with_one_entry :
  (List.length (logs oneEntryApp) = 1%nat
   /\ showReportModal oneEntryApp = false
   /\ showReportModal (generateFieldReport cfgKey reportEnv oneEntryApp) = true
   /\ List.length (logs (generateFieldReport cfgKey reportEnv oneEntryApp)) = 2%nat)
  /\ (List.length (logs manyEntriesApp) = 31%nat
      /\ In firstEntry (logs manyEntriesApp)
      /\ generatedReport (generateFieldReport cfgKey reportEnv manyEntriesApp)
         = Some (localReport (stamp reportEnv) (logs manyEntriesApp))
      /\ ~ contains (localReport (stamp reportEnv) (logs manyEntriesApp))
             (message firstEntry)).
Proof.
  split; [ repeat split | ].
  split; [ reflexivity | ].
  split; [ apply in_or_app; right; now left | ].
  split; [ reflexivity | ].
  intros H. apply contains_occurs in H. vm_compute in H. discriminate.
Qed.

Lemma report_generation_witness :
  (1 <= List.length (logs twoEntryApp))%nat
  /\ containsInOrder (localReport (stamp reportEnv) (logs twoEntryApp))
       "Optics initialised." "No hazards visible.".
Proof.
  split; [ cbn; lia | ].
  refine (proj2 (proj2 (proj2 (proj2 (proj2 (proj2
            (proj2 (proj2 (report_generation cfgKey reportEnv twoEntryApp)) _))))))
          [] firstEntry [] secondEntry [] eq_refl).
  cbn; lia.
Defined.

(** ** The refs across a call *)

Lemma handleAnalysisResult_cases (cfg : Config) (usr : option string)
    (r : AnalysisResult) (mode : Mode) (skipSave : bool) (tm : string) (s : App) :
  (exists steps,
     handleAnalysisResult cfg usr r mode skipSave tm s
     = setShowRepairModal true (setRepairSteps steps s))
  \/ handleAnalysisResult cfg usr r mode skipSave tm s
     = setSaved (savedAfter cfg usr r mode skipSave (saved s))
         (setLogs (resultLog r tm :: logs s)
            (setSpoken (spokenAfter cfg (spokenText r) (spoken s))
               (setSystemState (or_else (status r) "UNCERTAIN")
                  (setCurrentAnalysis (Some r) s)))).
Proof.
  destruct (resultEntries_cases mode r) as [(-> & Hsteps & _) | Hn].
  - left. exists (repair_steps r). now apply handleAnalysisResult_repair.
  - right. now apply handleAnalysisResult_plain.
Qed.

Lemma guard_handleAnalysisResult (cfg : Config) (usr : option string)
    (r : AnalysisResult) (mode : Mode) (skipSave : bool) (tm : string) (s : App) :
  guard (handleAnalysisResult cfg usr r mode skipSave tm s) = guard s.
Proof.
  destruct (handleAnalysisResult_cases cfg usr r mode skipSave tm s)
    as [(steps & ->) | ->]; reflexivity.
Qed.

Lemma guard_addLog (src msg typ tm : string) (s : App) :
  guard (addLog src msg typ tm s) = guard s.
Proof. rewrite addLog_eq. reflexivity. Qed.

(** On the refs, the first part of a call is [tryCall], followed by the
    release when the call ends without a request and without an exception. *)
Lemma start_guard (cfg : Config) (env : Env) (mode : Mode) (ctx : string) (s : App) :
  guard (fst (callOmniTech_start cfg env mode ctx s))
  = match snd (callOmniTech_start cfg env mode ctx s),
          snd (tryCall (now_guard env) (now_record env) (guard s)) with
    | Some _, _ => fst (tryCall (now_guard env) (now_record env) (guard s))
    | None, true =>
        if diesPastGuard cfg env
        then fst (tryCall (now_guard env) (now_record env) (guard s))
        else releaseLock (fst (tryCall (now_guard env) (now_record env) (guard s)))
    | None, false => fst (tryCall (now_guard env) (now_record env) (guard s))
    end.
Proof.
  unfold callOmniTech_start, tryCall, diesPastGuard, frame.
  destruct (canCallNow (now_guard env) (guard s)) as [g1 v].
  destruct (ok v); cbn [negb fst snd]; [ | reflexivity ].
  destruct (truthy (API_KEY cfg)); cbn [negb andb fst snd].
  2:{ change (guard (finishCall ?x)) with (releaseLock (guard x)).
      rewrite guard_handleAnalysisResult.
      change (guard (setDemoStep ?n ?x)) with (guard x).
      rewrite guard_addLog. reflexivity. }
  destruct (captureFrame (optics env)) as [| imageBase64]; [ reflexivity | ].
  destruct (negb (truthy imageBase64)); cbn [fst snd].
  - change (guard (finishCall ?x)) with (releaseLock (guard x)).
    rewrite guard_addLog. reflexivity.
  - reflexivity.
Qed.

(** On the refs, the second part of a call is the release. *)
Lemma resume_guard (cfg : Config) (p : Pending) (out : FetchOutcome)
    (tm : string) (s : App) :
  guard (callOmniTech_resume cfg p out tm s) = releaseLock (guard s).
Proof.
  destruct (parsedResult out) as [r |] eqn:Hparsed.
  - rewrite (resume_parsed _ _ _ _ _ _ Hparsed).
    change (guard (finishCall ?x)) with (releaseLock (guard x)).
    change (guard (setUserContext ?n ?x)) with (guard x).
    now rewrite guard_handleAnalysisResult.
  - destruct (match out with
              | fetch_resolves r => resp_status r =? 429
              | fetch_throws => false
              end) eqn:H429.
    + destruct out as [| response]; [ discriminate | ].
      unfold callOmniTech_resume. rewrite H429. cbn [DEMO_MODE].
      change (guard (finishCall ?x)) with (releaseLock (guard x)).
      change (guard (setToast ?n ?x)) with (guard x).
      rewrite guard_handleAnalysisResult.
      change (guard (setDemoStep ?n ?x)) with (guard x).
      now rewrite !guard_addLog.
    + destruct (resume_failed cfg p out tm s Hparsed H429) as [msg ->].
      change (guard (finishCall ?x)) with (releaseLock (guard x)).
      now rewrite guard_addLog.
Qed.

(** While the lock is held no call gets past the guard. *)
Lemma locked_start (cfg : Config) (env : Env) (mode : Mode) (ctx : string) (s : App) :
  inFlight (guard s) = true ->
  snd (callOmniTech_start cfg env mode ctx s) = None
  /\ guard (fst (callOmniTech_start cfg env mode ctx s)) = guard s.
Proof.
  intros Hfl. unfold callOmniTech_start, canCallNow. rewrite Hfl.
  split; reflexivity.
Qed.

(** A call suspended on its request holds the lock. *)
Lemma start_suspended (cfg : Config) (env : Env) (mode : Mode) (ctx : string)
    (s : App) (p : Pending) :
  snd (callOmniTech_start cfg env mode ctx s) = Some p ->
  inFlight (guard (fst (callOmniTech_start cfg env mode ctx s))) = true.
Proof.
  unfold callOmniTech_start.
  destruct (canCallNow (now_guard env) (guard s)) as [g1 v].
  destruct (negb (ok v)); [ discriminate | ].
  destruct (negb (truthy (API_KEY cfg))); [ discriminate | ].
  destruct (captureFrame (optics env)) as [| imageBase64]; [ discriminate | ].
  destruct (negb (truthy imageBase64)); [ discriminate | ].
  reflexivity.
Qed.

Lemma start_pendingLocked (cfg : Config) (env : Env) (mode : Mode) (ctx : string)
    (s : App) (pend : option Pending) :
  pendingLocked (s, pend) ->
  pendingLocked (suspend pend (callOmniTech_start cfg env mode ctx s)).
Proof.
  intros Hinv. unfold pendingLocked in *. cbn [fst snd] in Hinv.
  destruct pend as [p0 |].
  - destruct (locked_start cfg env mode ctx s Hinv) as [Hnone Hg].
    destruct (callOmniTech_start cfg env mode ctx s) as [s1 q].
    cbn [fst snd] in *. subst q. cbn [suspend fst snd]. now rewrite Hg.
  - pose proof (start_suspended cfg env mode ctx s) as Hs.
    destruct (callOmniTech_start cfg env mode ctx s) as [s1 [q |]];
      cbn [suspend fst snd] in *; [ | exact I ].
    now apply (Hs q).
Qed.

Lemma guard_generateFieldReport (cfg : Config) (renv : ReportEnv) (s : App) :
  guard (generateFieldReport cfg renv s) = guard s.
Proof.
  unfold generateFieldReport, reportFailed.
  repeat branch; rewrite ?addLog_eq; reflexivity.
Qed.

Lemma submit_pendingLocked (cfg : Config) (env : Env) (s : App)
    (pend : option Pending) :
  pendingLocked (s, pend) ->
  pendingLocked (suspend pend (submitTextDiagnosis cfg env s)).
Proof.
  intros Hinv. unfold submitTextDiagnosis.
  destruct (trim (userContext s) =? "")%string.
  { destruct pend; exact Hinv. }
  pose proof (start_pendingLocked cfg env diagnosis (trim (userContext s))
                (setToast (Some (mkToast "Context sent." toast_success)) s) pend Hinv)
    as Hstart.
  destruct (callOmniTech_start _ _ _ _ _) as [s2 [q |]]; destruct pend; exact Hstart.
Qed.

(** In every session a suspended call holds the lock, so no second call is
    ever suspended beside it. *)
Lemma step_pendingLocked (cfg : Config) (ev : Event) (ss : Session) :
  pendingLocked ss -> pendingLocked (step cfg ev ss).
Proof.
  destruct ss as [s pend]. intros Hinv. unfold step.
  destruct ev as [| tm | u | | | | text | env | env | env | env | renv | out tm];
    try exact Hinv.
  - destruct (safetyDisabled s); [ exact Hinv | ].
    now apply start_pendingLocked.
  - destruct (diagnoseDisabled s); [ exact Hinv | ].
    now apply start_pendingLocked.
  - destruct (repairVisible s); [ | exact Hinv ].
    now apply start_pendingLocked.
  - now apply submit_pendingLocked.
  - destruct (reportDisabled s); [ exact Hinv | ].
    unfold pendingLocked in *. cbn [fst snd] in *.
    now rewrite guard_generateFieldReport.
  - destruct pend; [ exact I | exact Hinv ].
Qed.

Lemma run_pendingLocked (cfg : Config) (evs : list Event) :
  pendingLocked (run cfg evs initSession).
Proof.
  assert (H : forall ss, pendingLocked ss -> pendingLocked (run cfg evs ss)).
  { induction evs as [| ev rest IH]; intros ss Hss; [ exact Hss | ].
    apply (IH (step cfg ev ss)). now apply step_pendingLocked. }
  apply H. exact I.
Qed.

(** ** The result on display and the safety state *)

Lemma analysisInv_frame (s s' : App) :
  currentAnalysis s' = currentAnalysis s -> systemState s' = systemState s ->
  analysisInv s -> analysisInv s'.
Proof. unfold analysisInv. now intros -> ->. Qed.

Lemma analysisInv_addLog (src msg typ tm : string) (s : App) :
  analysisInv s -> analysisInv (addLog src msg typ tm s).
Proof. apply analysisInv_frame; rewrite addLog_eq; reflexivity. Qed.

Lemma analysisInv_handleAnalysisResult (cfg : Config) (usr : option string)
    (r : AnalysisResult) (mode : Mode) (skipSave : bool) (tm : string) (s : App) :
  analysisInv s -> analysisInv (handleAnalysisResult cfg usr r mode skipSave tm s).
Proof.
  destruct (handleAnalysisResult_cases cfg usr r mode skipSave tm s)
    as [(steps & ->) | ->].
  - apply analysisInv_frame; reflexivity.
  - intros _. reflexivity.
Qed.

Lemma analysisInv_finishCall (s : App) : analysisInv s -> analysisInv (finishCall s).
Proof. apply analysisInv_frame; reflexivity. Qed.

Lemma analysisInv_start (cfg : Config) (env : Env) (mode : Mode) (ctx : string)
    (s : App) :
  analysisInv s -> analysisInv (fst (callOmniTech_start cfg env mode ctx s)).
Proof.
  intros Hinv. unfold callOmniTech_start.
  destruct (canCallNow (now_guard env) (guard s)) as [g1 v].
  destruct (negb (ok v)); [ exact Hinv | ].
  destruct (negb (truthy (API_KEY cfg))); cbn [fst].
  { apply analysisInv_finishCall, analysisInv_handleAnalysisResult.
    rewrite addLog_eq. exact Hinv. }
  destruct (captureFrame (optics env)) as [| imageBase64]; [ exact Hinv | ].
  destruct (negb (truthy imageBase64)); cbn [fst].
  - apply analysisInv_finishCall, analysisInv_addLog. exact Hinv.
  - exact Hinv.
Qed.

Lemma analysisInv_resume (cfg : Config) (p : Pending) (out : FetchOutcome)
    (tm : string) (s : App) :
  analysisInv s -> analysisInv (callOmniTech_resume cfg p out tm s).
Proof.
  intros Hinv.
  destruct (parsedResult out) as [r |] eqn:Hparsed.
  - rewrite (resume_parsed _ _ _ _ _ _ Hparsed).
    apply analysisInv_finishCall.
    apply (analysisInv_frame (handleAnalysisResult cfg (p_user p) r (p_mode p) false tm s));
      try reflexivity.
    now apply analysisInv_handleAnalysisResult.
  - destruct (match out with
              | fetch_resolves r => resp_status r =? 429
              | fetch_throws => false
              end) eqn:H429.
    + destruct out as [| response]; [ discriminate | ].
      unfold callOmniTech_resume. rewrite H429. cbn [DEMO_MODE].
      apply analysisInv_finishCall.
      eapply analysisInv_frame; [ reflexivity | reflexivity | ].
      apply analysisInv_handleAnalysisResult.
      rewrite !addLog_eq. exact Hinv.
    + destruct (resume_failed cfg p out tm s Hparsed H429) as [msg ->].
      apply analysisInv_finishCall, analysisInv_addLog. exact Hinv.
Qed.

Lemma analysisInv_generateFieldReport (cfg : Config) (renv : ReportEnv) (s : App) :
  analysisInv s -> analysisInv (generateFieldReport cfg renv s).
Proof.
  apply analysisInv_frame; unfold generateFieldReport, reportFailed;
    repeat branch; rewrite ?addLog_eq; reflexivity.
Qed.

Lemma analysisInv_suspend (old : option Pending) (r : App * option Pending) :
  analysisInv (fst r) -> analysisInv (fst (suspend old r)).
Proof. destruct r as [s [p |]]; exact (fun H => H). Qed.

Lemma analysisInv_step (cfg : Config) (ev : Event) (ss : Session) :
  analysisInv (fst ss) -> analysisInv (fst (step cfg ev ss)).
Proof.
  destruct ss as [s pend]. cbn [fst]. intros Hinv. unfold step.
  destruct ev as [| tm | u | | | | text | env | env | env | env | renv | out tm];
    cbn [fst]; try exact Hinv.
  - destruct (safetyDisabled s); [ exact Hinv | ].
    now apply analysisInv_suspend, analysisInv_start.
  - destruct (diagnoseDisabled s); [ exact Hinv | ].
    now apply analysisInv_suspend, analysisInv_start.
  - destruct (repairVisible s); [ | exact Hinv ].
    now apply analysisInv_suspend, analysisInv_start.
  - apply analysisInv_suspend. unfold submitTextDiagnosis.
    destruct (trim (userContext s) =? "")%string; [ exact Hinv | ].
    pose proof (analysisInv_start cfg env diagnosis (trim (userContext s))
                  (setToast (Some (mkToast "Context sent." toast_success)) s) Hinv) as H.
    destruct (callOmniTech_start _ _ _ _ _) as [s2 q]. exact H.
  - destruct (reportDisabled s); [ exact Hinv | ].
    now apply analysisInv_generateFieldReport.
  - destruct pend as [p |]; [ | exact Hinv ].
    now apply analysisInv_resume.
Qed.

(** X16: the repair button is on screen only while the safety state is SAFE:
    the repair-guide half of the gate holds wherever the button is the way in. *)
Lemma repair_button_only_when_safe (cfg : Config) (evs : list Event) :
  repairVisible (fst (run cfg evs initSession)) = true ->
  systemState (fst (run cfg evs initSession)) = "SAFE".
Proof.
  assert (Hrun : forall ss, analysisInv (fst ss) -> analysisInv (fst (run cfg evs ss))).
  { induction evs as [| ev rest IH]; intros ss Hss; [ exact Hss | ].
    apply (IH (step cfg ev ss)). now apply analysisInv_step. }
  specialize (Hrun initSession I).
  unfold repairVisible, analysisInv in *.
  destruct (currentAnalysis (fst (run cfg evs initSession))) as [r |]; [ | discriminate ].
  intros Hvis. apply andb_true_iff in Hvis. destruct Hvis as [_ Hsafe].
  rewrite Hrun. unfold is_str in Hsafe.
  destruct (status r) as [st |]; [ | discriminate ].
  apply String.eqb_eq in Hsafe. subst st. reflexivity.
Qed.

(** ** Mode gating *)

(** The DIAGNOSE button does nothing while the state is DANGER or UNCERTAIN. *)
Lemma diagnose_button_gated (cfg : Config) (env : Env) (s : App)
    (pend : option Pending) :
  systemState s = "DANGER" \/ systemState s = "UNCERTAIN" ->
  step cfg (ClickDiagnose env) (s, pend) = (s, pend).
Proof.
  intros H. unfold step, diagnoseDisabled.
  destruct H as [-> | ->]; cbn [String.eqb Ascii.eqb Bool.eqb];
    now rewrite ?orb_true_r.
Qed.

(** C1 fails on the Enter key of the context input: in a session whose state
    is DANGER the DIAGNOSE button is disabled, and a click on it changes
    nothing, but [submitTextDiagnosis] calls [callOmniTech] with mode
    diagnosis all the same, and the request goes out. *)
Theorem text_diagnosis_bypasses_gate :
  let ss := hazardSession in
  let ss' := step cfgKey (PressEnter (envAt 1005000)) ss in
  systemState (fst ss) = "DANGER"
  /\ diagnoseDisabled (fst ss) = true
  /\ step cfgKey (ClickDiagnose (envAt 1005000)) ss = ss
  /\ snd ss' = Some (mkPending diagnosis 0 None)
  /\ systemState (fst ss') = "DANGER"
  /\ fetched (fst ss')
     = AnalyzeCall (mkRequest diagnosis (systemInstruction diagnosis)
                      "User Context: fan does not spin" "frame")
       :: fetched (fst ss).
Proof. cbv zeta. repeat split. Qed.

(** ** Examples *)

Example getDemoResult_rotates :
  map (fun n => status (getDemoResult safety_check n)) [0; 1; 2; 3; 4]%nat
  = [Some "DANGER"; Some "UNCERTAIN"; Some "SAFE"; Some "DANGER"; Some "UNCERTAIN"].
Proof. reflexivity. Qed.

Example canCallNow_cooldown_text :
  snd (canCallNow 1001 (mkGuard false 0 [])) = rejected "Cooldown: wait 2s".
Proof. reflexivity. Qed.

Example trim_example : trim "  pump is hot  " = "pump is hot".
Proof. reflexivity. Qed.

(** [slice] counts the en dash as one unit, though it takes three bytes. *)
Example slice_example : str_slice0 3 "1–2 seconds" = "1–2".
Proof. reflexivity. Qed.

(** What the synthesiser is given for the first demo result. *)
Example speak_example :
  spoken (handleAnalysisResult cfgKey None demo0 safety_check true "10:00:00" initApp)
  = ["Liquid Hazard Near Electronics. … Move the liquid away and dry the area before continuing."].
Proof. reflexivity. Qed.

(** A genuine result of a signed-in user does reach the store. *)
Example genuine_result_is_saved :
  saved (callOmniTech_resume cfgKey (mkPending safety_check 0 (Some "uid-1"))
           (answer 200 (Some hazardNoSteps)) "10:00:01" initApp)
  = [safetyEvent "uid-1" safety_check hazardNoSteps].
Proof. reflexivity. Qed.

(** The ninth call within a minute is turned away by the cap. *)
Example cap_reached :
  snd (canCallNow 1030000
         (mkGuard false 1021000
            [1000000; 1003000; 1006000; 1009000; 1012000; 1015000; 1018000; 1021000]))
  = rejected reason_rate_limit.
Proof. reflexivity. Qed.

Lemma canCallNow_first_failing_rule_witness :
  snd (canCallNow 1001000 (mkGuard true 1000000 [1000000]))
  = mkVerdict false (Some "Request in progress...")
  /\ exists wait digits,
       snd (canCallNow 1001000 (mkGuard false 1000000 [1000000]))
       = mkVerdict false (Some ("Cooldown: wait " ++ digits ++ "s")%string)
       /\ read_Z digits = Some wait
       /\ 1000 * (wait - 1) < COOLDOWN_MS - (1001000 - 1000000) <= 1000 * wait.
Proof.
  split.
  - exact (proj1 (canCallNow_first_failing_rule 1001000
                    (mkGuard true 1000000 [1000000])) eq_refl).
  - refine (proj1 (proj2 (canCallNow_first_failing_rule 1001000
                            (mkGuard false 1000000 [1000000]))) eq_refl _).
    vm_compute. reflexivity.
Defined.

(** One second after a call the guard asks for two more: 1500 ms remain. *)
Example cooldown_rounds_up :
  snd (canCallNow 1001000 (mkGuard false 1000000 [1000000]))
  = mkVerdict false (Some "Cooldown: wait 2s")
  /\ snd (canCallNow 1000500 (mkGuard false 1000000 [1000000]))
     = mkVerdict false (Some "Cooldown: wait 2s")
  /\ snd (canCallNow 1000499 (mkGuard false 1000000 [1000000]))
     = mkVerdict false (Some "Cooldown: wait 3s")
  /\ snd (canCallNow 1002499 (mkGuard false 1000000 [1000000]))
     = mkVerdict false (Some "Cooldown: wait 1s")
  /\ snd (canCallNow 1002500 (mkGuard false 1000000 [1000000]))
     = mkVerdict true None.
Proof. repeat split. Qed.

Lemma rate_guard_limits_witness :
  clockIncreasing None sampleAttempts
  /\ snd (attempts sampleAttempts initGuard []) = [1003002; 1000001]
  /\ (forall t1 t2,
        In t1 (snd (attempts sampleAttempts initGuard [])) ->
        In t2 (snd (attempts sampleAttempts initGuard [])) ->
        t1 <> t2 -> COOLDOWN_MS <= Z.abs (t1 - t2))
  /\ (forall a,
        (countWithin a (a + COOLDOWN_MS) (snd (attempts sampleAttempts initGuard [])) <= 1)%nat)
  /\ (forall e,
        (countTrailing e (snd (attempts sampleAttempts initGuard []))
         <= MAX_CALLS_PER_MIN)%nat).
Proof.
  assert (H : clockIncreasing None sampleAttempts) by (cbn; lia).
  split; [ exact H | ]. split; [ reflexivity | ].
  exact (rate_guard_limits sampleAttempts H).
Defined.

Lemma quota_answer_falls_back_witness :
  resp_status (mkResponse 429 (Some "quota") None) = 429
  /\ toast (callOmniTech_resume cfgKey (mkPending safety_check 0 None)
              (fetch_resolves (mkResponse 429 (Some "quota") None)) "10:00:01" initApp)
     = Some quotaToast.
Proof.
  split; [ reflexivity | ].
  exact (proj1 (proj2 (proj2 (quota_answer_falls_back cfgKey
           (mkPending safety_check 0 None) (mkResponse 429 (Some "quota") None)
           "10:00:01" initApp eq_refl)))).
Defined.

Lemma only_genuine_results_saved_witness :
  saved (callOmniTech_resume cfgKey (mkPending safety_check 0 (Some "uid-1"))
           (answer 429 (Some hazardNoSteps)) "10:00:01" initApp)
  = saved initApp.
Proof.
  exact (proj1 (proj2 (proj2 (only_genuine_results_saved cfgKey)))
           (mkPending safety_check 0 (Some "uid-1")) (answer 429 (Some hazardNoSteps))
           "10:00:01" initApp eq_refl).
Defined.

(** * Further properties *)

(** ** The guard on its own *)

Lemma filter_filter {A : Type} (f : A -> bool) (l : list A) :
  filter f (filter f l) = filter f l.
Proof.
  induction l as [| x rest IH]; cbn; [ reflexivity | ].
  destruct (f x) eqn:Hx; cbn; rewrite ?Hx, IH; reflexivity.
Qed.

Lemma canCallNow_past_cooldown (now : Z) (g : RateGuard) :
  inFlight g = false -> COOLDOWN_MS <= now - lastCallAt g ->
  canCallNow now g
  = (mkGuard false (lastCallAt g)
       (filter (fun t => now - 60000 <? t) (callTimestamps g)),
     if Nat.leb MAX_CALLS_PER_MIN
          (List.length (filter (fun t => now - 60000 <? t) (callTimestamps g)))
     then rejected reason_rate_limit else accepted).
Proof.
  intros Hfl Hcool. unfold canCallNow. rewrite Hfl.
  destruct (Z.ltb_spec (now - lastCallAt g) COOLDOWN_MS) as [Hlt | _]; [ lia | ].
  cbv zeta. destruct (Nat.leb _ _); reflexivity.
Qed.

Lemma canCallNow_held_back (now : Z) (g : RateGuard) :
  inFlight g = true \/ now - lastCallAt g < COOLDOWN_MS ->
  fst (canCallNow now g) = g.
Proof.
  intros H. unfold canCallNow.
  destruct (inFlight g); [ reflexivity | ].
  destruct H as [H | H]; [ discriminate | ].
  destruct (Z.ltb_spec (now - lastCallAt g) COOLDOWN_MS) as [_ | Hge];
    [ reflexivity | lia ].
Qed.

(** X1: the guard never touches the lock or the time of the last call; all
    it does to the refs is drop recorded times, and after a check that got
    past the lock and the cooldown every time left is of the last minute.
    Asking again at the same instant gives the same verdict and the same
    refs. *)
Theorem canCallNow_only_prunes (now : Z) (g : RateGuard) :
  let g' := fst (canCallNow now g) in
  inFlight g' = inFlight g
  /\ lastCallAt g' = lastCallAt g
  /\ incl (callTimestamps g') (callTimestamps g)
  /\ (List.length (callTimestamps g') <= List.length (callTimestamps g))%nat
  /\ (inFlight g = false -> COOLDOWN_MS <= now - lastCallAt g ->
      forall t, In t (callTimestamps g') -> now - 60000 < t)
  /\ canCallNow now g' = canCallNow now g.
Proof.
  cbv zeta.
  destruct (inFlight g) eqn:Hfl.
  { rewrite (canCallNow_held_back now g) by now left.
    repeat split; try apply incl_refl; try lia; try discriminate. exact Hfl. }
  destruct (Z.ltb_spec (now - lastCallAt g) COOLDOWN_MS) as [Hcool | Hcool].
  { rewrite (canCallNow_held_back now g) by now right.
    repeat split; try apply incl_refl; try lia. exact Hfl. }
  rewrite (canCallNow_past_cooldown now g Hfl Hcool). cbn [fst].
  split; [ reflexivity | ]. split; [ reflexivity | ].
  split; [ intros t Ht; apply filter_In in Ht; tauto | ].
  split; [ apply filter_length_le | ].
  split; [ intros _ _ t Ht; apply filter_In in Ht; destruct Ht as [_ Ht];
           now apply Z.ltb_lt in Ht | ].
  rewrite canCallNow_past_cooldown by (try reflexivity; exact Hcool).
  cbn [lastCallAt callTimestamps]. rewrite filter_filter. reflexivity.
Qed.

(** X2: as long as the clock has not gone back behind the last call, a
    cooldown rejection asks the user to wait 1, 2 or 3 seconds. *)
Theorem cooldown_wait_bounds (now : Z) (g : RateGuard) :
  inFlight g = false ->
  lastCallAt g <= now -> now - lastCallAt g < COOLDOWN_MS ->
  exists wait,
    snd (canCallNow now g) = rejected (reason_cooldown wait) /\ 1 <= wait <= 3.
Proof.
  intros Hfl Hmono Hcool. unfold canCallNow. rewrite Hfl.
  destruct (Z.ltb_spec (now - lastCallAt g) COOLDOWN_MS) as [_ | Hge]; [ | lia ].
  eexists. split; [ reflexivity | ].
  pose proof (ceil_div_bounds (COOLDOWN_MS - (now - lastCallAt g))) as Hb.
  unfold COOLDOWN_MS in *. lia.
Qed.

Lemma cooldown_wait_bounds_witness :
  exists wait,
    snd (canCallNow 1002400 (mkGuard false 1000000 [1000000]))
    = rejected (reason_cooldown wait) /\ 1 <= wait <= 3.
Proof.
  apply (cooldown_wait_bounds 1002400 (mkGuard false 1000000 [1000000]));
    [ reflexivity | vm_compute; discriminate | vm_compute; reflexivity ].
Defined.

(** ** The refs over a session *)

Lemma fst_suspend (old : option Pending) (r : App * option Pending) :
  fst (suspend old r) = fst r.
Proof. destruct r as [s [p |]]; reflexivity. Qed.

Lemma start_guard_inv (P : RateGuard -> Prop) (cfg : Config) (env : Env)
    (mode : Mode) (ctx : string) (s : App) :
  (forall tg tr g, P g -> P (fst (tryCall tg tr g))) ->
  (forall g, P g -> P (releaseLock g)) ->
  P (guard s) -> P (guard (fst (callOmniTech_start cfg env mode ctx s))).
Proof.
  intros Htry Hrel Hs. rewrite start_guard.
  destruct (snd (callOmniTech_start cfg env mode ctx s));
    [ | destruct (snd (tryCall _ _ _)); [ destruct (diesPastGuard cfg env) | ] ]; auto.
Qed.

(** Whatever [tryCall] and the release keep true of the refs stays true
    through every event of a session. *)
Lemma step_guard_inv (P : RateGuard -> Prop) (cfg : Config) (ev : Event)
    (ss : Session) :
  (forall tg tr g, P g -> P (fst (tryCall tg tr g))) ->
  (forall g, P g -> P (releaseLock g)) ->
  P (guard (fst ss)) -> P (guard (fst (step cfg ev ss))).
Proof.
  intros Htry Hrel. destruct ss as [s pend]. cbn [fst]. intros Hs. unfold step.
  destruct ev as [| tm | u | | | | text | env | env | env | env | renv | out tm];
    cbn [fst]; try exact Hs.
  - destruct (safetyDisabled s); [ exact Hs | ].
    rewrite fst_suspend. now apply start_guard_inv.
  - destruct (diagnoseDisabled s); [ exact Hs | ].
    rewrite fst_suspend. now apply start_guard_inv.
  - destruct (repairVisible s); [ | exact Hs ].
    rewrite fst_suspend. now apply start_guard_inv.
  - rewrite fst_suspend. unfold submitTextDiagnosis.
    destruct (trim (userContext s) =? "")%string; [ exact Hs | ].
    pose proof (start_guard_inv P cfg env diagnosis (trim (userContext s))
                  (setToast (Some (mkToast "Context sent." toast_success)) s)
                  Htry Hrel Hs) as H.
    destruct (callOmniTech_start _ _ _ _ _) as [s2 q]. exact H.
  - destruct (reportDisabled s); [ exact Hs | ].
    cbn [fst]. now rewrite guard_generateFieldReport.
  - destruct pend as [p |]; [ | exact Hs ].
    cbn [fst]. rewrite resume_guard. now apply Hrel.
Qed.

Lemma run_guard_inv (P : RateGuard -> Prop) (cfg : Config) (evs : list Event) :
  (forall tg tr g, P g -> P (fst (tryCall tg tr g))) ->
  (forall g, P g -> P (releaseLock g)) ->
  forall ss, P (guard (fst ss)) -> P (guard (fst (run cfg evs ss))).
Proof.
  intros Htry Hrel.
  induction evs as [| ev rest IH]; intros ss Hss; [ exact Hss | ].
  apply (IH (step cfg ev ss)). now apply step_guard_inv.
Qed.

Lemma tryCall_bounded (tg tr : Z) (g : RateGuard) :
  (List.length (callTimestamps g) <= MAX_CALLS_PER_MIN)%nat ->
  (List.length (callTimestamps (fst (tryCall tg tr g))) <= MAX_CALLS_PER_MIN)%nat.
Proof.
  intros Hb. unfold tryCall.
  destruct (inFlight g) eqn:Hfl.
  { pose proof (canCallNow_held_back tg g (or_introl Hfl)) as Hg.
    destruct (canCallNow tg g) as [g1 v] eqn:E. cbn [fst] in Hg. subst g1.
    assert (Hv : ok v = false).
    { unfold canCallNow in E. rewrite Hfl in E. now inversion E. }
    rewrite Hv. exact Hb. }
  destruct (Z.ltb_spec (tg - lastCallAt g) COOLDOWN_MS) as [Hcool | Hcool].
  { pose proof (canCallNow_held_back tg g (or_intror Hcool)) as Hg.
    destruct (canCallNow tg g) as [g1 v] eqn:E. cbn [fst] in Hg. subst g1.
    assert (Hv : ok v = false).
    { unfold canCallNow in E. rewrite Hfl in E.
      destruct (Z.ltb_spec (tg - lastCallAt g) COOLDOWN_MS) as [_ | Hge]; [ | lia ].
      now inversion E. }
    rewrite Hv. exact Hb. }
  rewrite (canCallNow_past_cooldown tg g Hfl Hcool).
  set (kept := filter (fun t => tg - 60000 <? t) (callTimestamps g)).
  destruct (Nat.leb_spec MAX_CALLS_PER_MIN (List.length kept)) as [Hfull | Hroom];
    cbn [ok rejected accepted fst recordCall callTimestamps].
  - pose proof (filter_length_le (fun t => tg - 60000 <? t) (callTimestamps g)).
    fold kept in H. lia.
  - rewrite length_app. cbn [List.length]. lia.
Qed.

(** X3: in every session, whatever the clock does, [callTimestampsRef] never
    holds more than [MAX_CALLS_PER_MIN] times. *)
Theorem callTimestamps_bounded (cfg : Config) (evs : list Event) :
  (List.length (callTimestamps (guard (fst (run cfg evs initSession))))
   <= MAX_CALLS_PER_MIN)%nat.
Proof.
  apply (run_guard_inv
           (fun g => (List.length (callTimestamps g) <= MAX_CALLS_PER_MIN)%nat)).
  - intros tg tr g. apply tryCall_bounded.
  - intros g Hg. exact Hg.
  - cbn. unfold MAX_CALLS_PER_MIN. lia.
Qed.

(** ** The log over a session *)

Lemma appended_refl {A : Type} (n : nat) (l : list A) : appended n l l.
Proof. exists []. split; [ reflexivity | cbn; lia ]. Qed.

Lemma appended_weaken {A : Type} (n m : nat) (l l' : list A) :
  (n <= m)%nat -> appended n l l' -> appended m l l'.
Proof. intros Hle (new & -> & Hn). exists new. split; [ reflexivity | lia ]. Qed.

Lemma appended_trans {A : Type} (n m : nat) (l l' l'' : list A) :
  appended n l l' -> appended m l' l'' -> appended (m + n) l l''.
Proof.
  intros (a & -> & Ha) (b & -> & Hb). exists (b ++ a).
  split; [ now rewrite app_assoc | rewrite length_app; lia ].
Qed.

Lemma appended_addLog (src msg typ tm : string) (s : App) :
  appended 1 (logs s) (logs (addLog src msg typ tm s)).
Proof. rewrite logs_addLog. exists [mkLog src msg tm]. split; [ reflexivity | cbn; lia ]. Qed.

Lemma appended_addLog_on (src msg typ tm : string) (s : App) (l : list LogEntry) :
  logs s = l -> appended 1 l (logs (addLog src msg typ tm s)).
Proof. intros <-. apply appended_addLog. Qed.

Lemma appended_handleAnalysisResult (cfg : Config) (usr : option string)
    (r : AnalysisResult) (mode : Mode) (skipSave : bool) (tm : string) (s : App) :
  appended 1 (logs s) (logs (handleAnalysisResult cfg usr r mode skipSave tm s)).
Proof.
  rewrite logs_handleAnalysisResult. eexists. split; [ reflexivity | ].
  rewrite length_firstn. cbn [List.length]. lia.
Qed.

Lemma appended_start (cfg : Config) (env : Env) (mode : Mode) (ctx : string)
    (s : App) :
  appended 2 (logs s) (logs (fst (callOmniTech_start cfg env mode ctx s))).
Proof.
  unfold callOmniTech_start.
  destruct (canCallNow (now_guard env) (guard s)) as [g1 v].
  destruct (negb (ok v)); [ apply appended_refl | ].
  destruct (negb (truthy (API_KEY cfg))); cbn [fst].
  { rewrite logs_finishCall.
    eapply (appended_trans 1 1); [ | apply appended_handleAnalysisResult ].
    change (logs (setDemoStep ?n ?x)) with (logs x).
    apply appended_addLog_on. reflexivity. }
  destruct (captureFrame (optics env)) as [| imageBase64]; [ apply appended_refl | ].
  destruct (negb (truthy imageBase64)); cbn [fst].
  - rewrite logs_finishCall. apply (appended_weaken 1); [ lia | ].
    apply appended_addLog_on. reflexivity.
  - apply appended_refl.
Qed.

Lemma appended_resume (cfg : Config) (p : Pending) (out : FetchOutcome)
    (tm : string) (s : App) :
  appended 3 (logs s) (logs (callOmniTech_resume cfg p out tm s)).
Proof.
  destruct (parsedResult out) as [r |] eqn:Hparsed.
  - rewrite (resume_parsed _ _ _ _ _ _ Hparsed), logs_finishCall.
    change (logs (setUserContext ?n ?x)) with (logs x).
    apply (appended_weaken 1); [ lia | apply appended_handleAnalysisResult ].
  - destruct (match out with
              | fetch_resolves r => resp_status r =? 429
              | fetch_throws => false
              end) eqn:H429.
    + destruct out as [| response]; [ discriminate | ].
      unfold callOmniTech_resume. rewrite H429. cbn [DEMO_MODE].
      rewrite logs_finishCall.
      change (logs (setToast ?n ?x)) with (logs x).
      eapply (appended_trans 2 1); [ | apply appended_handleAnalysisResult ].
      change (logs (setDemoStep ?n ?x)) with (logs x).
      eapply (appended_trans 1 1); apply appended_addLog.
    + destruct (resume_failed cfg p out tm s Hparsed H429) as [msg ->].
      rewrite logs_finishCall. apply (appended_weaken 1); [ lia | ].
      apply appended_addLog.
Qed.

Lemma generateFieldReport_local (cfg : Config) (renv : ReportEnv) (s : App) :
  generateFieldReport cfg renv s
  = if Nat.eqb (List.length (logs s)) 0 then s
    else addLog "SYSTEM" "Local report generated (demo / no-quota mode)." "info"
           (report_clock renv)
           (setShowReportModal true
              (setGeneratedReport (Some (localReport (stamp renv) (logs s))) s)).
Proof.
  unfold generateFieldReport. destruct (Nat.eqb _ 0); [ reflexivity | ].
  unfold DEMO_MODE. now rewrite orb_true_r.
Qed.

Lemma appended_generateFieldReport (cfg : Config) (renv : ReportEnv) (s : App) :
  appended 1 (logs s) (logs (generateFieldReport cfg renv s)).
Proof.
  rewrite generateFieldReport_local.
  destruct (Nat.eqb _ 0); [ apply appended_refl | ].
  apply appended_addLog_on. reflexivity.
Qed.

(** X4: the log is append-only.  An event puts at most three entries on top
    of the log and leaves every earlier entry as it was, so after any
    sequence of events the log a session started with is still there, below
    the new entries. *)
Theorem log_is_append_only (cfg : Config) :
  (forall ev ss, appended 3 (logs (fst ss)) (logs (fst (step cfg ev ss))))
  /\ (forall evs ss,
        exists new, logs (fst (run cfg evs ss)) = new ++ logs (fst ss)).
Proof.
  assert (Hstep : forall ev ss, appended 3 (logs (fst ss)) (logs (fst (step cfg ev ss)))).
  { intros ev [s pend]. cbn [fst]. unfold step.
    destruct ev as [| tm | u | | | | text | env | env | env | env | renv | out tm];
      cbn [fst]; try apply appended_refl.
    - apply (appended_weaken 1); [ lia | apply appended_addLog ].
    - destruct (safetyDisabled s); [ apply appended_refl | ].
      rewrite fst_suspend. apply (appended_weaken 2); [ lia | ].
      apply (appended_start cfg env safety_check "" (setActiveTab "safety" s)).
    - destruct (diagnoseDisabled s); [ apply appended_refl | ].
      rewrite fst_suspend. apply (appended_weaken 2); [ lia | ].
      apply (appended_start cfg env diagnosis "" (setActiveTab "diagnose" s)).
    - destruct (repairVisible s); [ | apply appended_refl ].
      rewrite fst_suspend. apply (appended_weaken 2); [ lia | ].
      apply appended_start.
    - rewrite fst_suspend. unfold submitTextDiagnosis.
      destruct (trim (userContext s) =? "")%string; [ apply appended_refl | ].
      pose proof (appended_start cfg env diagnosis (trim (userContext s))
                    (setToast (Some (mkToast "Context sent." toast_success)) s)) as H.
      destruct (callOmniTech_start _ _ _ _ _) as [s2 q].
      apply (appended_weaken 2); [ lia | exact H ].
    - destruct (reportDisabled s); [ apply appended_refl | ].
      apply (appended_weaken 1); [ lia | apply appended_generateFieldReport ].
    - destruct pend as [p |]; [ | apply appended_refl ].
      apply appended_resume. }
  split; [ exact Hstep | ].
  induction evs as [| ev rest IH]; intros ss.
  - exists []. reflexivity.
  - destruct (IH (step cfg ev ss)) as (new & Hnew).
    destruct (Hstep ev ss) as (one & Hone & _).
    exists (new ++ one). cbn [run fold_left]. fold (run cfg rest (step cfg ev ss)).
    rewrite Hnew, Hone. now rewrite app_assoc.
Qed.

(** ** The spinner, the lock and the suspended call *)

Lemma canCallNow_inFlight (now : Z) (g : RateGuard) :
  inFlight (fst (canCallNow now g)) = inFlight g.
Proof.
  destruct (inFlight g) eqn:Hfl.
  { now rewrite (canCallNow_held_back now g) by now left. }
  destruct (Z.ltb_spec (now - lastCallAt g) COOLDOWN_MS) as [Hcool | Hcool].
  - now rewrite (canCallNow_held_back now g) by now right.
  - now rewrite (canCallNow_past_cooldown now g Hfl Hcool).
Qed.

Lemma canCallNow_ok_unlocked (now : Z) (g : RateGuard) :
  ok (snd (canCallNow now g)) = true -> inFlight g = false.
Proof.
  unfold canCallNow. destruct (inFlight g); [ discriminate | reflexivity ].
Qed.

Lemma analyzing_handleAnalysisResult (cfg : Config) (usr : option string)
    (r : AnalysisResult) (mode : Mode) (skipSave : bool) (tm : string) (s : App) :
  analyzing (handleAnalysisResult cfg usr r mode skipSave tm s) = analyzing s.
Proof.
  destruct (handleAnalysisResult_cases cfg usr r mode skipSave tm s)
    as [(steps & ->) | ->]; reflexivity.
Qed.

Lemma analyzing_addLog (src msg typ tm : string) (s : App) :
  analyzing (addLog src msg typ tm s) = analyzing s.
Proof. rewrite addLog_eq. reflexivity. Qed.

Lemma uncaught_handleAnalysisResult (cfg : Config) (usr : option string)
    (r : AnalysisResult) (mode : Mode) (skipSave : bool) (tm : string) (s : App) :
  uncaught (handleAnalysisResult cfg usr r mode skipSave tm s) = uncaught s.
Proof.
  destruct (handleAnalysisResult_cases cfg usr r mode skipSave tm s)
    as [(steps & ->) | ->]; reflexivity.
Qed.

Lemma uncaught_addLog (src msg typ tm : string) (s : App) :
  uncaught (addLog src msg typ tm s) = uncaught s.
Proof. rewrite addLog_eq. reflexivity. Qed.

Lemma uncaught_resume (cfg : Config) (p : Pending) (out : FetchOutcome)
    (tm : string) (s : App) :
  uncaught (callOmniTech_resume cfg p out tm s) = uncaught s.
Proof.
  destruct (parsedResult out) as [r |] eqn:Hparsed.
  - rewrite (resume_parsed _ _ _ _ _ _ Hparsed).
    change (uncaught (finishCall ?x)) with (uncaught x).
    change (uncaught (setUserContext ?n ?x)) with (uncaught x).
    apply uncaught_handleAnalysisResult.
  - destruct (match out with
              | fetch_resolves r => resp_status r =? 429
              | fetch_throws => false
              end) eqn:H429.
    + destruct out as [| response]; [ discriminate | ].
      unfold callOmniTech_resume. rewrite H429. cbn [DEMO_MODE].
      change (uncaught (finishCall ?x)) with (uncaught x).
      change (uncaught (setToast ?n ?x)) with (uncaught x).
      rewrite uncaught_handleAnalysisResult.
      change (uncaught (setDemoStep ?n ?x)) with (uncaught x).
      now rewrite !uncaught_addLog.
    + destruct (resume_failed cfg p out tm s Hparsed H429) as [msg ->].
      change (uncaught (finishCall ?x)) with (uncaught x).
      apply uncaught_addLog.
Qed.

(** What the first part of a call does to the spinner, the lock and the
    count of exceptions, from a state in which spinner and lock agree:
    nothing (the guard turned it away, or it ran to its end), or it is
    suspended with both on, or it has died with both on. *)
Lemma start_busy (cfg : Config) (env : Env) (mode : Mode) (ctx : string) (s : App) :
  analyzing s = inFlight (guard s) ->
  let r := callOmniTech_start cfg env mode ctx s in
  (snd r = None
   /\ analyzing (fst r) = analyzing s
   /\ inFlight (guard (fst r)) = inFlight (guard s)
   /\ uncaught (fst r) = uncaught s)
  \/ (inFlight (guard s) = false
      /\ analyzing (fst r) = true
      /\ inFlight (guard (fst r)) = true
      /\ ((snd r <> None /\ uncaught (fst r) = uncaught s)
          \/ (snd r = None /\ uncaught (fst r) = S (uncaught s)
              /\ diesPastGuard cfg env = true))).
Proof.
  intros Hs. cbv zeta. unfold callOmniTech_start, diesPastGuard, frame.
  pose proof (canCallNow_inFlight (now_guard env) (guard s)) as Hfl.
  pose proof (canCallNow_ok_unlocked (now_guard env) (guard s)) as Hok.
  destruct (canCallNow (now_guard env) (guard s)) as [g1 v]. cbn [fst snd] in *.
  destruct (ok v); cbn [negb].
  2:{ left. cbn [fst snd]. auto. }
  specialize (Hok eq_refl).
  destruct (truthy (API_KEY cfg)); cbn [negb andb fst snd].
  2:{ left. cbn [fst snd].
      change (analyzing (finishCall ?x)) with false.
      change (inFlight (guard (finishCall ?x))) with false.
      change (uncaught (finishCall ?x)) with (uncaught x).
      rewrite uncaught_handleAnalysisResult.
      change (uncaught (setDemoStep ?n ?x)) with (uncaught x).
      rewrite uncaught_addLog, Hs, Hok. auto. }
  destruct (captureFrame (optics env)) as [| imageBase64].
  { right. cbn [fst snd]. split; [ exact Hok | ]. auto 10. }
  destruct (negb (truthy imageBase64)); cbn [fst snd].
  - left.
    change (analyzing (finishCall ?x)) with false.
    change (inFlight (guard (finishCall ?x))) with false.
    change (uncaught (finishCall ?x)) with (uncaught x).
    rewrite uncaught_addLog, Hs, Hok. auto.
  - right. split; [ exact Hok | ]. split; [ reflexivity | ].
    split; [ reflexivity | ]. left. split; [ discriminate | reflexivity ].
Qed.

Lemma start_busyInv (cfg : Config) (env : Env) (mode : Mode) (ctx : string)
    (s s0 : App) (pend : option Pending) :
  busyInv (s, pend) ->
  analyzing s0 = analyzing s -> guard s0 = guard s -> uncaught s0 = uncaught s ->
  busyInv (suspend pend (callOmniTech_start cfg env mode ctx s0)).
Proof.
  intros (Ha & Hl & Hu & Hp) Ha0 Hg0 Hu0. unfold suspended in *. cbn [fst snd] in *.
  assert (Hs0 : analyzing s0 = inFlight (guard s0)) by now rewrite Ha0, Hg0.
  pose proof (start_busy cfg env mode ctx s0 Hs0) as Hstart. cbv zeta in Hstart.
  destruct (callOmniTech_start cfg env mode ctx s0) as [s1 q]. cbn [fst snd] in Hstart.
  destruct Hstart as [(-> & H1 & H2 & H3) | (Hfree & H1 & H2 & Hend)].
  - cbn [suspend]. unfold busyInv, suspended. cbn [fst snd].
    rewrite H1, H2, H3, Ha0, Hg0, Hu0. auto.
  - rewrite Hg0 in Hfree. rewrite Hfree in Hl.
    symmetry in Hl. apply orb_false_iff in Hl. destruct Hl as [Hnone Hzero].
    destruct pend as [p0 |]; [ discriminate | ].
    apply Nat.ltb_ge in Hzero.
    unfold busyInv, suspended.
    destruct Hend as [(Hq & H3) | (-> & H3 & _)].
    + destruct q as [q |]; [ | congruence ]. cbn [suspend fst snd].
      rewrite H1, H2, H3, Hu0. repeat split; try lia.
    + cbn [suspend fst snd]. rewrite H1, H2, H3, Hu0.
      assert (Hz : uncaught s = 0%nat) by lia. rewrite Hz.
      repeat split; lia.
Qed.

Lemma resume_analyzing (cfg : Config) (p : Pending) (out : FetchOutcome)
    (tm : string) (s : App) :
  analyzing (callOmniTech_resume cfg p out tm s) = false.
Proof. unfold callOmniTech_resume. repeat branch; reflexivity. Qed.

Lemma step_busyInv (cfg : Config) (ev : Event) (ss : Session) :
  busyInv ss -> busyInv (step cfg ev ss).
Proof.
  destruct ss as [s pend]. intros Hinv. unfold step.
  destruct ev as [| tm | u | | | | text | env | env | env | env | renv | out tm];
    try exact Hinv.
  - destruct (safetyDisabled s); [ exact Hinv | ].
    now apply (start_busyInv cfg env safety_check "" s).
  - destruct (diagnoseDisabled s); [ exact Hinv | ].
    now apply (start_busyInv cfg env diagnosis "" s).
  - destruct (repairVisible s); [ | exact Hinv ].
    now apply (start_busyInv cfg env repair_guide "" s).
  - unfold submitTextDiagnosis.
    destruct (trim (userContext s) =? "")%string.
    { destruct pend; exact Hinv. }
    pose proof (start_busyInv cfg env diagnosis (trim (userContext s)) s
                  (setToast (Some (mkToast "Context sent." toast_success)) s)
                  pend Hinv eq_refl eq_refl eq_refl) as H.
    destruct (callOmniTech_start _ _ _ _ _) as [s2 [q |]]; exact H.
  - destruct (reportDisabled s); [ exact Hinv | ].
    unfold busyInv, suspended in *. cbn [fst snd] in *.
    rewrite generateFieldReport_local.
    destruct (Nat.eqb _ 0); rewrite ?addLog_eq; exact Hinv.
  - destruct pend as [p |]; [ | exact Hinv ].
    destruct Hinv as (Ha & Hl & Hu & Hp).
    unfold busyInv, suspended in *. cbn [fst snd] in *.
    rewrite resume_analyzing, resume_unlocks, uncaught_resume.
    rewrite (Hp eq_refl). repeat split; lia.
Qed.

Lemma run_busyInv (cfg : Config) (evs : list Event) :
  forall ss, busyInv ss -> busyInv (run cfg evs ss).
Proof.
  induction evs as [| ev rest IH]; intros ss Hss; [ exact Hss | ].
  apply (IH (step cfg ev ss)). now apply step_busyInv.
Qed.

(** X5: in every session the spinner ([analyzing]) is on exactly while the
    lock is held, and the lock is held exactly while an analysis call is
    suspended on its request or after a call has ended in an exception that
    nobody caught.  The two exclude each other, and at most one call of a
    session ends that way. *)
Theorem busy_while_pending (cfg : Config) (evs : list Event) :
  let ss := run cfg evs initSession in
  analyzing (fst ss) = inFlight (guard (fst ss))
  /\ inFlight (guard (fst ss)) = (suspended ss || Nat.ltb 0 (uncaught (fst ss)))%bool
  /\ (uncaught (fst ss) <= 1)%nat
  /\ (suspended ss = true -> uncaught (fst ss) = 0%nat).
Proof.
  cbv zeta. apply (run_busyInv cfg evs initSession).
  unfold busyInv, suspended. cbn. repeat split; lia.
Qed.

(** ** An exception in [captureFrame] *)

(** A call turned away by the lock. *)
Lemma locked_start_eq (cfg : Config) (env : Env) (mode : Mode) (ctx : string)
    (s : App) :
  inFlight (guard s) = true ->
  callOmniTech_start cfg env mode ctx s
  = (setToast (Some (mkToast "Request in progress..." toast_error))
       (setGuard (guard s) s), None).
Proof.
  intros Hfl. unfold callOmniTech_start, canCallNow. rewrite Hfl. reflexivity.
Qed.

(** With the lock held, the spinner on and no call suspended, no event
    releases the lock, stops the spinner or sends a request. *)
Lemma stuck_step (cfg : Config) (ev : Event) (s : App) :
  inFlight (guard s) = true -> analyzing s = true ->
  snd (step cfg ev (s, None)) = None
  /\ inFlight (guard (fst (step cfg ev (s, None)))) = true
  /\ analyzing (fst (step cfg ev (s, None))) = true
  /\ fetched (fst (step cfg ev (s, None))) = fetched s.
Proof.
  intros Hfl Han. unfold step.
  destruct ev as [| tm | u | | | | text | env | env | env | env | renv | out tm];
    try (cbn [fst snd]; fields; auto; fail).
  - unfold safetyDisabled. rewrite Han, orb_true_r. auto.
  - unfold diagnoseDisabled. rewrite Han, orb_true_r. cbn [orb]. auto.
  - unfold repairVisible. rewrite Han.
    destruct (currentAnalysis s); cbn [negb andb]; auto.
  - unfold submitTextDiagnosis.
    destruct (trim (userContext s) =? "")%string; [ auto | ].
    rewrite locked_start_eq by exact Hfl.
    cbn [suspend fst snd]. fields. auto.
  - destruct (reportDisabled s); [ auto | ].
    cbn [fst snd]. rewrite generateFieldReport_local.
    destruct (Nat.eqb _ 0); rewrite ?addLog_eq; fields; auto.
Qed.

Lemma stuck_run (cfg : Config) (evs : list Event) :
  forall s,
    inFlight (guard s) = true -> analyzing s = true ->
    snd (run cfg evs (s, None)) = None
    /\ inFlight (guard (fst (run cfg evs (s, None)))) = true
    /\ analyzing (fst (run cfg evs (s, None))) = true
    /\ fetched (fst (run cfg evs (s, None))) = fetched s.
Proof.
  induction evs as [| ev rest IH]; intros s Hfl Han; [ cbn; auto | ].
  cbn [run fold_left]. fold (run cfg rest (step cfg ev (s, None))).
  destruct (stuck_step cfg ev s Hfl Han) as (Hnone & Hfl' & Han' & Hf).
  destruct (step cfg ev (s, None)) as [s1 q]. cbn [fst snd] in *. subst q.
  rewrite <- Hf. now apply IH.
Qed.

(** C2 fails where [captureFrame] throws.  The lock is taken before
    [captureFrame] is called and the [try] block starts after it, so a call
    that got past the guard with an API key and in which [captureFrame]
    throws ends with the lock held and the spinner on, and with neither a
    log entry nor a toast; from then on every admission check answers
    "Request in progress...", and whatever happens next the lock is never
    released, the spinner never stops and no request is sent again. *)
Theorem lock_kept_when_capture_throws (cfg : Config) (env : Env) (mode : Mode)
    (manualContext : string) (s : App) :
  ok (snd (canCallNow (now_guard env) (guard s))) = true ->
  truthy (API_KEY cfg) = true ->
  frame env = capture_throws ->
  let r := callOmniTech_start cfg env mode manualContext s in
  snd r = None
  /\ inFlight (guard (fst r)) = true
  /\ analyzing (fst r) = true
  /\ logs (fst r) = logs s
  /\ toast (fst r) = toast s
  /\ fetched (fst r) = fetched s
  /\ uncaught (fst r) = S (uncaught s)
  /\ (forall now,
        snd (canCallNow now (guard (fst r)))
        = mkVerdict false (Some "Request in progress..."))
  /\ forall evs,
       snd (run cfg evs (fst r, None)) = None
       /\ inFlight (guard (fst (run cfg evs (fst r, None)))) = true
       /\ analyzing (fst (run cfg evs (fst r, None))) = true
       /\ fetched (fst (run cfg evs (fst r, None))) = fetched s.
Proof.
  intros Hok Hkey Hthrows. cbv zeta.
  assert (Hstart : callOmniTech_start cfg env mode manualContext s
                   = (setUncaught (S (uncaught s))
                        (setAnalyzing true
                           (setGuard
                              (recordCall (now_record env)
                                 (fst (canCallNow (now_guard env) (guard s))))
                              (setGuard (fst (canCallNow (now_guard env) (guard s))) s))),
                      None)).
  { unfold callOmniTech_start. unfold frame in Hthrows.
    destruct (canCallNow (now_guard env) (guard s)) as [g1 v]. cbn [fst snd] in *.
    rewrite Hok, Hkey, Hthrows. reflexivity. }
  rewrite Hstart. cbn [fst snd].
  split; [ reflexivity | ]. split; [ reflexivity | ]. split; [ reflexivity | ].
  split; [ reflexivity | ]. split; [ reflexivity | ]. split; [ reflexivity | ].
  split; [ reflexivity | ]. split; [ intros now; reflexivity | ].
  intros evs.
  exact (stuck_run cfg evs
           (setUncaught (S (uncaught s))
              (setAnalyzing true
                 (setGuard
                    (recordCall (now_record env)
                       (fst (canCallNow (now_guard env) (guard s))))
                    (setGuard (fst (canCallNow (now_guard env) (guard s))) s))))
           eq_refl eq_refl).
Qed.

(** A safety check in which the canvas cannot be read, followed by a text
    diagnosis, a click on each button and a stray response, more than a
    minute later. *)
Lemma lock_kept_when_capture_throws_witness :
  ok (snd (canCallNow 1000000 (guard (setIsStreamActive true initApp)))) = true
  /\ truthy (API_KEY cfgKey) = true
  /\ frame (mkEnv 1000000 1000000 brokenOptics "10:00:00") = capture_throws
  /\ inFlight
       (guard
          (fst (run cfgKey
                  [ TypeContext "fan does not spin"; PressEnter (envAt 1070000);
                    ClickSafety (envAt 1080000); ClickDiagnose (envAt 1090000);
                    FetchSettled fetch_throws "10:01:40" ]
                  (fst (callOmniTech_start cfgKey
                          (mkEnv 1000000 1000000 brokenOptics "10:00:00")
                          safety_check "" (setIsStreamActive true initApp)), None))))
     = true.
Proof.
  split; [ reflexivity | ]. split; [ reflexivity | ]. split; [ reflexivity | ].
  pose proof (lock_kept_when_capture_throws cfgKey
                (mkEnv 1000000 1000000 brokenOptics "10:00:00")
                safety_check "" (setIsStreamActive true initApp)
                eq_refl eq_refl eq_refl) as H.
  destruct H as (_ & _ & _ & _ & _ & _ & _ & _ & H).
  exact (proj1 (proj2 (H _))).
Defined.

(** ** Requests *)

Lemma trim_left_step (s : string) :
  trim_left s = match ws_head s with Some r => trim_left r | None => s end.
Proof.
  destruct s as [| a r1]; [ reflexivity | ].
  cbn [ws_head]. change (trim_left (String a r1))
    with (if is_space a then trim_left r1
          else match r1 with
               | String b r2 =>
                   if is_space2 a b then trim_left r2
                   else match r2 with
                        | String c r3 =>
                            if is_space3 a b c then trim_left r3 else String a r1
                        | EmptyString => String a r1
                        end
               | EmptyString => String a r1
               end).
  destruct (is_space a); [ reflexivity | ].
  destruct r1 as [| b r2]; [ reflexivity | ].
  destruct (is_space2 a b); [ reflexivity | ].
  destruct r2 as [| c r3]; [ reflexivity | ].
  destruct (is_space3 a b c); reflexivity.
Qed.

Lemma ws_head_shorter (s r : string) :
  ws_head s = Some r -> (String.length r < String.length s)%nat.
Proof.
  destruct s as [| a [| b [| c r3]]]; cbn [ws_head];
    repeat match goal with
           | |- context [if ?b then _ else _] => destruct b
           end; intros H; inversion H; subst; cbn [String.length]; lia.
Qed.

(** Induction along the white space in front. *)
Lemma ws_head_ind (P : string -> Prop) :
  (forall s, ws_head s = None -> P s) ->
  (forall s r, ws_head s = Some r -> P r -> P s) ->
  forall s, P s.
Proof.
  intros Hnone Hsome s.
  remember (String.length s) as n eqn:Hn.
  revert s Hn. induction n as [n IH] using lt_wf_ind. intros s ->.
  destruct (ws_head s) as [r |] eqn:Hw; [ | now apply Hnone ].
  apply (Hsome s r Hw). apply (IH (String.length r)); [ | reflexivity ].
  now apply ws_head_shorter.
Qed.

Lemma trim_left_headClean (s : string) : headClean (trim_left s).
Proof.
  induction s as [s Hw | s r Hw IH] using ws_head_ind.
  - rewrite trim_left_step, Hw. exact Hw.
  - rewrite trim_left_step, Hw. exact IH.
Qed.

Lemma trim_left_clean (s : string) : headClean s -> trim_left s = s.
Proof. intros H. rewrite trim_left_step. unfold headClean in H. now rewrite H. Qed.

Lemma trim_left_idem (s : string) : trim_left (trim_left s) = trim_left s.
Proof. apply trim_left_clean, trim_left_headClean. Qed.

(** The white space in front of [s] is still in front of [s ++ w]. *)
Lemma ws_head_app (s r w : string) :
  ws_head s = Some r -> ws_head (s ++ w) = Some (r ++ w)%string.
Proof.
  destruct s as [| a [| b [| c r3]]]; cbn [ws_head append];
    repeat match goal with
           | |- context [if ?b then _ else _] => destruct b
           end; intros H; inversion H; subst; try reflexivity.
Qed.

Lemma blank_app (s w : string) : blank s -> blank w -> blank (s ++ w).
Proof.
  unfold blank. intros Hs Hw.
  induction s as [s Hh | s r Hh IH] using ws_head_ind.
  - rewrite trim_left_step, Hh in Hs. subst s. exact Hw.
  - rewrite trim_left_step, (ws_head_app _ _ _ Hh). apply IH.
    now rewrite trim_left_step, Hh in Hs.
Qed.

(** What [trim_right] cuts off is blank. *)
Lemma trim_right_cut (s : string) :
  exists w, s = (trim_right s ++ w)%string /\ blank w.
Proof.
  induction s as [| c r IH]; [ exists ""; split; reflexivity | ].
  cbn [trim_right].
  destruct (trim_left (String c r) =? "")%string eqn:E.
  - exists (String c r). split; [ reflexivity | ]. now apply String.eqb_eq.
  - destruct IH as (w & Hw & Hb). exists w. split; [ | exact Hb ].
    cbn [append]. now rewrite <- Hw.
Qed.

Lemma trim_right_idem (s : string) : trim_right (trim_right s) = trim_right s.
Proof.
  induction s as [| c r IH]; [ reflexivity | ].
  cbn [trim_right].
  destruct (trim_left (String c r) =? "")%string eqn:E; [ reflexivity | ].
  cbn [trim_right].
  destruct (trim_left (String c (trim_right r)) =? "")%string eqn:E'.
  - apply String.eqb_eq in E'.
    destruct (trim_right_cut r) as (w & Hw & Hb).
    assert (Hall : blank (String c r)).
    { rewrite Hw. change (String c (trim_right r ++ w))
        with (String c (trim_right r) ++ w)%string.
      now apply blank_app. }
    unfold blank in Hall. rewrite Hall in E. discriminate.
  - now rewrite IH.
Qed.

(** White space in front of a piece of [s] is in front of [s]. *)
Lemma trim_right_headClean (s : string) : headClean s -> headClean (trim_right s).
Proof.
  unfold headClean. intros Hs.
  destruct (ws_head (trim_right s)) as [r |] eqn:Hw; [ | reflexivity ].
  destruct (trim_right_cut s) as (w & Hcut & _).
  rewrite Hcut in Hs. rewrite (ws_head_app _ _ w Hw) in Hs. discriminate.
Qed.

Lemma trim_idem (s : string) : trim (trim s) = trim s.
Proof.
  unfold trim.
  rewrite (trim_left_clean (trim_right (trim_left s)))
    by apply trim_right_headClean, trim_left_headClean.
  apply trim_right_idem.
Qed.

(** Nothing blank is left behind. *)
Lemma trim_right_blank (s : string) : blank (trim_right s) -> trim_right s = "".
Proof.
  destruct s as [| c r]; [ reflexivity | ].
  cbn [trim_right].
  destruct (trim_left (String c r) =? "")%string eqn:E; [ reflexivity | ].
  intros Hb. exfalso.
  destruct (trim_right_cut r) as (w & Hw & Hbw).
  assert (Hall : blank (String c r)).
  { rewrite Hw. change (String c (trim_right r ++ w))
      with (String c (trim_right r) ++ w)%string.
    now apply blank_app. }
  unfold blank in Hall. rewrite Hall in E. discriminate.
Qed.

Lemma trim_blank (s : string) : trim s = "" <-> blank s.
Proof.
  unfold trim, blank. split.
  - intros H. destruct (trim_left s) as [| c r] eqn:E; [ reflexivity | ].
    cbn [trim_right] in H.
    assert (Hc : trim_left (String c r) = String c r).
    { rewrite <- E. apply trim_left_idem. }
    rewrite Hc in H. cbn in H. discriminate.
  - intros ->. reflexivity.
Qed.

Lemma chr_code (a : ascii) (n : N) : code a = n -> a = chr n.
Proof. intros <-. unfold chr, code. now rewrite ascii_N_embedding. Qed.

Lemma ws_head_white (w rest : string) :
  In w white_space -> ws_head (w ++ rest) = Some rest.
Proof.
  intros Hin. cbv [white_space map] in Hin.
  repeat (destruct Hin as [<- | Hin]; [ reflexivity | ]). destruct Hin.
Qed.

Lemma is_space_white (a : ascii) : is_space a = true -> In (String a "") white_space.
Proof.
  destruct a as [[] [] [] [] [] [] [] []]; intros H; try discriminate H;
    vm_compute; tauto.
Qed.

Lemma is_space2_white (a b : ascii) :
  is_space2 a b = true -> In (String a (String b "")) white_space.
Proof.
  unfold is_space2. intros H. apply andb_true_iff in H. destruct H as [Ha Hb].
  apply N.eqb_eq in Ha, Hb. rewrite (chr_code _ _ Ha), (chr_code _ _ Hb).
  vm_compute. tauto.
Qed.

Lemma is_space3_white (a b c : ascii) :
  is_space3 a b c = true -> In (String a (String b (String c ""))) white_space.
Proof.
  unfold is_space3. intros H.
  repeat match type of H with
         | (_ || _)%bool = true => apply orb_true_iff in H; destruct H as [H | H]
         end;
    repeat match goal with
           | H : (_ && _)%bool = true |- _ => apply andb_true_iff in H; destruct H
           | H : (_ || _)%bool = true |- _ => apply orb_true_iff in H; destruct H
           | H : (_ =? _)%N = true |- _ => apply N.eqb_eq in H
           | H : (_ <=? _)%N = true |- _ => apply N.leb_le in H
           end;
    try match goal with
        | H1 : (128 <= code c)%N, H2 : (code c <= 138)%N |- _ =>
            assert (Hc : (code c = 128 \/ code c = 129 \/ code c = 130 \/ code c = 131
                          \/ code c = 132 \/ code c = 133 \/ code c = 134
                          \/ code c = 135 \/ code c = 136 \/ code c = 137
                          \/ code c = 138)%N) by lia;
            clear H1 H2;
            repeat (destruct Hc as [Hc | Hc])
        end;
    repeat match goal with
           | H : code ?x = _ |- _ => rewrite (chr_code _ _ H); clear H
           end;
    vm_compute; tauto.
Qed.

(** A string with white space in front is one white-space character
    followed by the rest. *)
Lemma ws_head_split (s r : string) :
  ws_head s = Some r -> exists w, In w white_space /\ s = (w ++ r)%string.
Proof.
  destruct s as [| a r1]; [ discriminate | ]. cbn [ws_head].
  destruct (is_space a) eqn:Ha.
  { intros H. injection H as <-. exists (String a ""). split.
    - now apply is_space_white.
    - reflexivity. }
  destruct r1 as [| b r2]; [ discriminate | ].
  destruct (is_space2 a b) eqn:Hb.
  { intros H. injection H as <-. exists (String a (String b "")). split.
    - now apply is_space2_white.
    - reflexivity. }
  destruct r2 as [| c r3]; [ discriminate | ].
  destruct (is_space3 a b c) eqn:Hc; [ | discriminate ].
  intros H. injection H as <-. exists (String a (String b (String c ""))). split.
  - now apply is_space3_white.
  - reflexivity.
Qed.

(** [trim] leaves nothing exactly of the strings made of white space. *)
Lemma trim_onlyWhiteSpace (s : string) : trim s = "" <-> onlyWhiteSpace s.
Proof.
  rewrite trim_blank. unfold blank. split.
  - induction s as [s Hh | s r Hh IH] using ws_head_ind.
    + rewrite trim_left_step, Hh. intros ->. constructor.
    + rewrite trim_left_step, Hh. intros Hr.
      destruct (ws_head_split s r Hh) as (w & Hw & ->).
      constructor; auto.
  - induction 1 as [| w rest Hw _ IH]; [ reflexivity | ].
    now rewrite trim_left_step, (ws_head_white w rest Hw).
Qed.

Lemma or_else_truthy (o : option string) (d : string) :
  truthy o = true -> or_else o d <> "".
Proof.
  destruct o as [x |]; [ | discriminate ]. cbn.
  destruct (x =? "")%string eqn:E; [ discriminate | ].
  intros _ ->. discriminate.
Qed.

Lemma fetched_handleAnalysisResult (cfg : Config) (usr : option string)
    (r : AnalysisResult) (mode : Mode) (skipSave : bool) (tm : string) (s : App) :
  fetched (handleAnalysisResult cfg usr r mode skipSave tm s) = fetched s.
Proof.
  destruct (handleAnalysisResult_cases cfg usr r mode skipSave tm s)
    as [(steps & ->) | ->]; reflexivity.
Qed.

Lemma fetched_addLog (src msg typ tm : string) (s : App) :
  fetched (addLog src msg typ tm s) = fetched s.
Proof. rewrite addLog_eq. reflexivity. Qed.

(** The first part of a call issues a request exactly when it ends
    suspended, and the request is then well formed. *)
Lemma fetched_start (cfg : Config) (env : Env) (mode : Mode) (ctx : string)
    (s : App) :
  match snd (callOmniTech_start cfg env mode ctx s) with
  | None => fetched (fst (callOmniTech_start cfg env mode ctx s)) = fetched s
  | Some _ =>
      exists r,
        fetched (fst (callOmniTech_start cfg env mode ctx s))
        = AnalyzeCall r :: fetched s
        /\ req_mode r = mode
        /\ wellFormedCall cfg (AnalyzeCall r)
  end.
Proof.
  unfold callOmniTech_start.
  destruct (canCallNow (now_guard env) (guard s)) as [g1 v].
  destruct (negb (ok v)); [ reflexivity | ].
  destruct (truthy (API_KEY cfg)) eqn:Hkey; cbn [negb fst snd].
  2: { change (fetched (finishCall ?x)) with (fetched x).
       rewrite fetched_handleAnalysisResult.
       change (fetched (setDemoStep ?n ?x)) with (fetched x).
       now rewrite fetched_addLog. }
  destruct (captureFrame (optics env)) as [| imageBase64]; [ reflexivity | ].
  destruct (truthy imageBase64) eqn:Hframe; cbn [negb fst snd].
  2: { change (fetched (finishCall ?x)) with (fetched x).
       now rewrite fetched_addLog. }
  eexists. split; [ reflexivity | ]. split; [ reflexivity | ].
  eexists. split; [ reflexivity | ]. split; [ exact Hkey | ].
  split; [ reflexivity | ]. split; [ now apply or_else_truthy | ].
  cbn [req_text].
  set (finalContext := trim (if (ctx =? "")%string then userContext s else ctx)).
  destruct (finalContext =? "")%string eqn:E; [ now left | ].
  right. exists finalContext. split; [ | split; [ apply trim_idem | reflexivity ] ].
  intros Hempty. rewrite Hempty in E. discriminate.
Qed.

Lemma fetched_resume (cfg : Config) (p : Pending) (out : FetchOutcome)
    (tm : string) (s : App) :
  fetched (callOmniTech_resume cfg p out tm s) = fetched s.
Proof.
  destruct (parsedResult out) as [r |] eqn:Hparsed.
  - rewrite (resume_parsed _ _ _ _ _ _ Hparsed).
    change (fetched (finishCall ?x)) with (fetched x).
    change (fetched (setUserContext ?n ?x)) with (fetched x).
    apply fetched_handleAnalysisResult.
  - destruct (match out with
              | fetch_resolves r => resp_status r =? 429
              | fetch_throws => false
              end) eqn:H429.
    + destruct out as [| response]; [ discriminate | ].
      unfold callOmniTech_resume. rewrite H429. cbn [DEMO_MODE].
      change (fetched (finishCall ?x)) with (fetched x).
      change (fetched (setToast ?n ?x)) with (fetched x).
      rewrite fetched_handleAnalysisResult.
      change (fetched (setDemoStep ?n ?x)) with (fetched x).
      now rewrite !fetched_addLog.
    + destruct (resume_failed cfg p out tm s Hparsed H429) as [msg ->].
      change (fetched (finishCall ?x)) with (fetched x).
      apply fetched_addLog.
Qed.

Lemma fetched_generateFieldReport (cfg : Config) (renv : ReportEnv) (s : App) :
  fetched (generateFieldReport cfg renv s) = fetched s.
Proof.
  rewrite generateFieldReport_local.
  destruct (Nat.eqb _ 0); [ reflexivity | ]. now rewrite fetched_addLog.
Qed.

Lemma fetched_call (cfg : Config) (env : Env) (mode : Mode) (ctx : string)
    (s s0 : App) (pend : option Pending) :
  pendingLocked (s, pend) ->
  fetched s0 = fetched s -> guard s0 = guard s ->
  fetched (fst (suspend pend (callOmniTech_start cfg env mode ctx s0))) = fetched s
  \/ (pend = None
      /\ snd (suspend pend (callOmniTech_start cfg env mode ctx s0)) <> None
      /\ exists r,
           fetched (fst (suspend pend (callOmniTech_start cfg env mode ctx s0)))
           = AnalyzeCall r :: fetched s
           /\ wellFormedCall cfg (AnalyzeCall r)).
Proof.
  intros Hlock Hf Hg.
  pose proof (fetched_start cfg env mode ctx s0) as Hstart.
  pose proof (locked_start cfg env mode ctx s0) as Hlocked.
  destruct (callOmniTech_start cfg env mode ctx s0) as [s1 [q |]];
    cbn [fst snd suspend] in *.
  - destruct pend as [p0 |].
    + unfold pendingLocked in Hlock. cbn [fst snd] in Hlock.
      rewrite <- Hg in Hlock. destruct (Hlocked Hlock) as [Hnone _]. discriminate.
    + right. split; [ reflexivity | ]. split; [ discriminate | ].
      destruct Hstart as (r & Hr & _ & Hwf). exists r. rewrite Hr, Hf. now split.
  - left. now rewrite Hstart.
Qed.

(** What one event does to the requests of a session in which a suspended
    call holds the lock. *)
Lemma fetched_step (cfg : Config) (ev : Event) (ss : Session) :
  pendingLocked ss ->
  fetched (fst (step cfg ev ss)) = fetched (fst ss)
  \/ (snd ss = None
      /\ snd (step cfg ev ss) <> None
      /\ exists r,
           fetched (fst (step cfg ev ss)) = AnalyzeCall r :: fetched (fst ss)
           /\ wellFormedCall cfg (AnalyzeCall r)).
Proof.
  destruct ss as [s pend]. intros Hlock. cbn [fst snd]. unfold step.
  destruct ev as [| tm | u | | | | text | env | env | env | env | renv | out tm];
    try (left; reflexivity).
  - destruct (safetyDisabled s); [ now left | ].
    now apply (fetched_call cfg env safety_check "" s).
  - destruct (diagnoseDisabled s); [ now left | ].
    now apply (fetched_call cfg env diagnosis "" s).
  - destruct (repairVisible s); [ | now left ].
    now apply (fetched_call cfg env repair_guide "" s).
  - unfold submitTextDiagnosis.
    destruct (trim (userContext s) =? "")%string.
    { left. destruct pend; reflexivity. }
    pose proof (fetched_call cfg env diagnosis (trim (userContext s)) s
                  (setToast (Some (mkToast "Context sent." toast_success)) s)
                  pend Hlock eq_refl eq_refl) as H.
    destruct (callOmniTech_start _ _ _ _ _) as [s2 [q |]]; exact H.
  - destruct (reportDisabled s); [ now left | ].
    left. apply fetched_generateFieldReport.
  - destruct pend as [p |]; [ | now left ].
    left. apply fetched_resume.
Qed.

Lemma run_snoc (cfg : Config) (evs : list Event) (ev : Event) (ss : Session) :
  run cfg (evs ++ [ev]) ss = step cfg ev (run cfg evs ss).
Proof. unfold run. now rewrite fold_left_app. Qed.

(** X6: requests go out one at a time.  In every session an event issues at
    most one request, and only when no call is suspended; the call that
    issued it is then the suspended one.  While a call is suspended no event
    issues a request. *)
Theorem one_request_at_a_time (cfg : Config) (evs : list Event) (ev : Event) :
  let ss := run cfg evs initSession in
  let ss' := step cfg ev ss in
  fetched (fst ss') = fetched (fst ss)
  \/ (snd ss = None
      /\ snd ss' <> None
      /\ exists r, fetched (fst ss') = AnalyzeCall r :: fetched (fst ss)).
Proof.
  cbv zeta.
  destruct (fetched_step cfg ev (run cfg evs initSession) (run_pendingLocked cfg evs))
    as [H | (Hnone & Hsome & r & Hr & _)]; [ now left | ].
  right. split; [ exact Hnone | ]. split; [ exact Hsome | ]. now exists r.
Qed.

(** X7: every request a session has issued is an analysis request (no
    report request is ever sent), made with an API key, carrying the
    instruction text of its mode and a non-empty image; its text is either
    "Analyze this scene." or "User Context: " followed by a non-empty context
    without white space around it. *)
Theorem requests_are_well_formed (cfg : Config) (evs : list Event) :
  forall c, In c (fetched (fst (run cfg evs initSession))) -> wellFormedCall cfg c.
Proof.
  induction evs as [| ev rest IH] using rev_ind; [ intros c [] | ].
  intros c. rewrite run_snoc.
  destruct (fetched_step cfg ev (run cfg rest initSession) (run_pendingLocked cfg rest))
    as [H | (_ & _ & r & Hr & Hwf)].
  - rewrite H. apply IH.
  - rewrite Hr. intros [<- | Hin]; [ exact Hwf | now apply IH ].
Qed.

Lemma requests_are_well_formed_witness :
  In (AnalyzeCall (mkRequest safety_check (systemInstruction safety_check)
                     "Analyze this scene." "frame"))
     (fetched (fst (run cfgKey firstRequest initSession)))
  /\ wellFormedCall cfgKey
       (AnalyzeCall (mkRequest safety_check (systemInstruction safety_check)
                       "Analyze this scene." "frame")).
Proof.
  assert (H : In (AnalyzeCall (mkRequest safety_check (systemInstruction safety_check)
                                 "Analyze this scene." "frame"))
                 (fetched (fst (run cfgKey firstRequest initSession))))
    by (left; reflexivity).
  split; [ exact H | ].
  exact (requests_are_well_formed cfgKey firstRequest _ H).
Defined.

(** ** The typed context *)

Lemma userContext_handleAnalysisResult (cfg : Config) (usr : option string)
    (r : AnalysisResult) (mode : Mode) (skipSave : bool) (tm : string) (s : App) :
  userContext (handleAnalysisResult cfg usr r mode skipSave tm s) = userContext s.
Proof.
  destruct (handleAnalysisResult_cases cfg usr r mode skipSave tm s)
    as [(steps & ->) | ->]; reflexivity.
Qed.

Lemma userContext_addLog (src msg typ tm : string) (s : App) :
  userContext (addLog src msg typ tm s) = userContext s.
Proof. rewrite addLog_eq. reflexivity. Qed.

(** X8: a call clears the typed context only when it brings a genuine
    result; after a failure or a quota fallback the context is still in the
    input box. *)
Theorem context_kept_unless_genuine (cfg : Config) (p : Pending)
    (out : FetchOutcome) (tm : string) (s : App) :
  userContext (callOmniTech_resume cfg p out tm s)
  = match parsedResult out with
    | Some _ => ""
    | None => userContext s
    end.
Proof.
  destruct (parsedResult out) as [r |] eqn:Hparsed.
  - now rewrite (resume_parsed _ _ _ _ _ _ Hparsed).
  - destruct (match out with
              | fetch_resolves r => resp_status r =? 429
              | fetch_throws => false
              end) eqn:H429.
    + destruct out as [| response]; [ discriminate | ].
      unfold callOmniTech_resume. rewrite H429. cbn [DEMO_MODE].
      change (userContext (finishCall ?x)) with (userContext x).
      change (userContext (setToast ?n ?x)) with (userContext x).
      rewrite userContext_handleAnalysisResult.
      change (userContext (setDemoStep ?n ?x)) with (userContext x).
      now rewrite !userContext_addLog.
    + destruct (resume_failed cfg p out tm s Hparsed H429) as [msg ->].
      change (userContext (finishCall ?x)) with (userContext x).
      apply userContext_addLog.
Qed.

(** ** Calls that do not reach the service *)

(** X9: a call the guard turns away leaves a toast with the guard's reason
    and nothing else: no log entry, no request, no spinner, the verdict, the
    demo counter and the typed context as they were, the lock and the time of
    the last call untouched. *)
Theorem rejected_call_only_toasts (cfg : Config) (env : Env) (mode : Mode)
    (ctx : string) (s : App) :
  ok (snd (canCallNow (now_guard env) (guard s))) = false ->
  let r := callOmniTech_start cfg env mode ctx s in
  snd r = None
  /\ toast (fst r)
     = Some (mkToast (or_else (reason (snd (canCallNow (now_guard env) (guard s)))) "")
               toast_error)
  /\ logs (fst r) = logs s
  /\ fetched (fst r) = fetched s
  /\ saved (fst r) = saved s
  /\ spoken (fst r) = spoken s
  /\ analyzing (fst r) = analyzing s
  /\ systemState (fst r) = systemState s
  /\ currentAnalysis (fst r) = currentAnalysis s
  /\ demoStep (fst r) = demoStep s
  /\ userContext (fst r) = userContext s
  /\ inFlight (guard (fst r)) = inFlight (guard s)
  /\ lastCallAt (guard (fst r)) = lastCallAt (guard s).
Proof.
  intros Hok. cbv zeta. unfold callOmniTech_start.
  pose proof (canCallNow_inFlight (now_guard env) (guard s)) as Hfl.
  assert (Hlast : lastCallAt (fst (canCallNow (now_guard env) (guard s)))
                  = lastCallAt (guard s)).
  { destruct (inFlight (guard s)) eqn:E.
    - now rewrite canCallNow_held_back by now left.
    - destruct (Z.ltb_spec (now_guard env - lastCallAt (guard s)) COOLDOWN_MS).
      + now rewrite canCallNow_held_back by now right.
      + now rewrite canCallNow_past_cooldown. }
  destruct (canCallNow (now_guard env) (guard s)) as [g1 v]. cbn [fst snd] in *.
  rewrite Hok. cbn [negb fst snd]. repeat split; assumption.
Qed.

Lemma rejected_call_only_toasts_witness :
  ok (snd (canCallNow 1001000 (guard (fst (callOmniTech_start cfgKey (envAt 1000000)
                                             safety_check "" initApp))))) = false
  /\ logs (fst (callOmniTech_start cfgKey (envAt 1001000) diagnosis ""
                  (fst (callOmniTech_start cfgKey (envAt 1000000) safety_check ""
                          initApp))))
     = logs (fst (callOmniTech_start cfgKey (envAt 1000000) safety_check "" initApp)).
Proof.
  split; [ reflexivity | ].
  exact (proj1 (proj2 (proj2
           (rejected_call_only_toasts cfgKey (envAt 1001000) diagnosis ""
              (fst (callOmniTech_start cfgKey (envAt 1000000) safety_check "" initApp))
              eq_refl)))).
Defined.

(** X10: a call that passes the guard with an API key but gets no frame
    ([captureFrame] returns [null], or an empty or missing payload) sends
    nothing: it writes the camera error (log entry and toast), puts spinner
    and lock back, and leaves the verdict alone.  The attempt still counts
    for the rate guard: it is the new [lastCallAt] and one more recorded
    time. *)
Theorem call_without_frame (cfg : Config) (env : Env) (mode : Mode)
    (ctx : string) (imageBase64 : option string) (s : App) :
  ok (snd (canCallNow (now_guard env) (guard s))) = true ->
  truthy (API_KEY cfg) = true ->
  frame env = capture_returns imageBase64 ->
  truthy imageBase64 = false ->
  let r := callOmniTech_start cfg env mode ctx s in
  snd r = None
  /\ fetched (fst r) = fetched s
  /\ logs (fst r) = cameraLog (clock env) :: logs s
  /\ toast (fst r) = Some (mkToast (message (cameraLog (clock env))) toast_error)
  /\ analyzing (fst r) = false
  /\ inFlight (guard (fst r)) = false
  /\ systemState (fst r) = systemState s
  /\ currentAnalysis (fst r) = currentAnalysis s
  /\ lastCallAt (guard (fst r)) = now_record env
  /\ callTimestamps (guard (fst r))
     = callTimestamps (fst (canCallNow (now_guard env) (guard s))) ++ [now_record env].
Proof.
  intros Hok Hkey Hcapture Hframe. cbv zeta. unfold callOmniTech_start.
  unfold frame in Hcapture.
  destruct (canCallNow (now_guard env) (guard s)) as [g1 v]. cbn [fst snd] in *.
  rewrite Hok, Hkey, Hcapture, Hframe. cbn [negb fst snd].
  rewrite addLog_error. fields. repeat split.
Qed.

Lemma call_without_frame_witness :
  ok (snd (canCallNow 1000000 (guard initApp))) = true
  /\ truthy (API_KEY cfgKey) = true
  /\ frame (mkEnv 1000000 1000002 darkOptics "10:00:00") = capture_returns None
  /\ lastCallAt (guard (fst (callOmniTech_start cfgKey
                               (mkEnv 1000000 1000002 darkOptics "10:00:00")
                               safety_check "" initApp)))
     = 1000002.
Proof.
  split; [ reflexivity | ]. split; [ reflexivity | ]. split; [ reflexivity | ].
  exact (proj1 (proj2 (proj2 (proj2 (proj2 (proj2 (proj2 (proj2 (proj2
           (call_without_frame cfgKey (mkEnv 1000000 1000002 darkOptics "10:00:00")
              safety_check "" None initApp eq_refl eq_refl eq_refl eq_refl)))))))))).
Defined.

(** ** Who and where results are saved *)

Lemma saved_handleAnalysisResult_nodb (cfg : Config) (usr : option string)
    (r : AnalysisResult) (mode : Mode) (skipSave : bool) (tm : string) (s : App) :
  db cfg = false ->
  saved (handleAnalysisResult cfg usr r mode skipSave tm s) = saved s.
Proof.
  intros Hdb.
  destruct (handleAnalysisResult_cases cfg usr r mode skipSave tm s)
    as [(steps & ->) | ->]; [ reflexivity | ].
  fields. unfold savedAfter. rewrite Hdb.
  destruct usr; [ destruct skipSave | ]; reflexivity.
Qed.

Lemma saved_step_nodb (cfg : Config) (ev : Event) (ss : Session) :
  db cfg = false -> saved (fst (step cfg ev ss)) = saved (fst ss).
Proof.
  intros Hdb.
  destruct (saved_step cfg ev ss)
    as [H | (out & tm & p & uid & r & -> & Hp & Hr & _ & _)]; [ exact H | ].
  destruct ss as [s pend]. cbn [fst snd] in *. subst pend. cbn [step fst].
  rewrite (resume_parsed _ _ _ _ _ _ Hr).
  change (saved (finishCall ?x)) with (saved x).
  change (saved (setUserContext ?n ?x)) with (saved x).
  now apply saved_handleAnalysisResult_nodb.
Qed.

Lemma user_handleAnalysisResult (cfg : Config) (usr : option string)
    (r : AnalysisResult) (mode : Mode) (skipSave : bool) (tm : string) (s : App) :
  user (handleAnalysisResult cfg usr r mode skipSave tm s) = user s.
Proof.
  destruct (handleAnalysisResult_cases cfg usr r mode skipSave tm s)
    as [(steps & ->) | ->]; reflexivity.
Qed.

Lemma user_addLog (src msg typ tm : string) (s : App) :
  user (addLog src msg typ tm s) = user s.
Proof. rewrite addLog_eq. reflexivity. Qed.

(** The first part of a call does not change who is signed in, and a
    suspended call remembers the user of the state it started in. *)
Lemma user_start (cfg : Config) (env : Env) (mode : Mode) (ctx : string) (s : App) :
  user (fst (callOmniTech_start cfg env mode ctx s)) = user s
  /\ match snd (callOmniTech_start cfg env mode ctx s) with
     | Some p => p_user p = user s
     | None => True
     end.
Proof.
  unfold callOmniTech_start.
  destruct (canCallNow (now_guard env) (guard s)) as [g1 v].
  destruct (negb (ok v)); [ now split | ].
  destruct (negb (truthy (API_KEY cfg))); cbn [fst snd].
  { split; [ | exact I ].
    change (user (finishCall ?x)) with (user x).
    rewrite user_handleAnalysisResult.
    change (user (setDemoStep ?n ?x)) with (user x).
    now rewrite user_addLog. }
  destruct (captureFrame (optics env)) as [| imageBase64]; [ now split | ].
  destruct (negb (truthy imageBase64)); cbn [fst snd].
  - split; [ | exact I ].
    change (user (finishCall ?x)) with (user x). now rewrite user_addLog.
  - now split.
Qed.

Lemma user_resume (cfg : Config) (p : Pending) (out : FetchOutcome)
    (tm : string) (s : App) :
  user (callOmniTech_resume cfg p out tm s) = user s.
Proof.
  destruct (parsedResult out) as [r |] eqn:Hparsed.
  - rewrite (resume_parsed _ _ _ _ _ _ Hparsed).
    change (user (finishCall ?x)) with (user x).
    change (user (setUserContext ?n ?x)) with (user x).
    apply user_handleAnalysisResult.
  - destruct (match out with
              | fetch_resolves r => resp_status r =? 429
              | fetch_throws => false
              end) eqn:H429.
    + destruct out as [| response]; [ discriminate | ].
      unfold callOmniTech_resume. rewrite H429. cbn [DEMO_MODE].
      change (user (finishCall ?x)) with (user x).
      change (user (setToast ?n ?x)) with (user x).
      rewrite user_handleAnalysisResult.
      change (user (setDemoStep ?n ?x)) with (user x).
      now rewrite !user_addLog.
    + destruct (resume_failed cfg p out tm s Hparsed H429) as [msg ->].
      change (user (finishCall ?x)) with (user x).
      apply user_addLog.
Qed.

Lemma anonymous_call (cfg : Config) (env : Env) (mode : Mode) (ctx : string)
    (s s0 : App) (pend : option Pending) :
  anonymous (s, pend) -> user s0 = user s ->
  anonymous (suspend pend (callOmniTech_start cfg env mode ctx s0)).
Proof.
  intros [Hu Hp] Hs0. cbn [fst snd] in *.
  destruct (user_start cfg env mode ctx s0) as [H1 H2].
  destruct (callOmniTech_start cfg env mode ctx s0) as [s1 [q |]];
    cbn [fst snd suspend] in *; split; cbn [fst snd]; congruence.
Qed.

Lemma anonymous_step (cfg : Config) (ev : Event) (ss : Session) :
  match ev with AuthChanged (Some _) => False | _ => True end ->
  anonymous ss -> anonymous (step cfg ev ss).
Proof.
  destruct ss as [s pend]. intros Hev Hinv. unfold step.
  destruct ev as [| tm | u | | | | text | env | env | env | env | renv | out tm];
    try exact Hinv.
  - destruct u; [ contradiction | ].
    split; [ reflexivity | apply Hinv ].
  - destruct (safetyDisabled s); [ exact Hinv | ].
    now apply (anonymous_call cfg env safety_check "" s).
  - destruct (diagnoseDisabled s); [ exact Hinv | ].
    now apply (anonymous_call cfg env diagnosis "" s).
  - destruct (repairVisible s); [ | exact Hinv ].
    now apply (anonymous_call cfg env repair_guide "" s).
  - unfold submitTextDiagnosis.
    destruct (trim (userContext s) =? "")%string.
    { destruct pend; exact Hinv. }
    pose proof (anonymous_call cfg env diagnosis (trim (userContext s)) s
                  (setToast (Some (mkToast "Context sent." toast_success)) s)
                  pend Hinv eq_refl) as H.
    destruct (callOmniTech_start _ _ _ _ _) as [s2 [q |]]; exact H.
  - destruct (reportDisabled s); [ exact Hinv | ].
    destruct Hinv as [Hu Hp]. split; cbn [fst snd] in *; [ | exact Hp ].
    rewrite generateFieldReport_local.
    destruct (Nat.eqb _ 0); [ exact Hu | ]. now rewrite user_addLog.
  - destruct pend as [p |]; [ | exact Hinv ].
    destruct Hinv as [Hu _]. split; cbn [fst snd] in *; [ | exact I ].
    now rewrite user_resume.
Qed.

Lemma saved_step_anonymous (cfg : Config) (ev : Event) (ss : Session) :
  anonymous ss -> saved (fst (step cfg ev ss)) = saved (fst ss).
Proof.
  intros [_ Hp].
  destruct (saved_step cfg ev ss)
    as [H | (out & tm & p & uid & r & _ & Hpend & _ & Hu & _)]; [ exact H | ].
  rewrite Hpend in Hp. congruence.
Qed.

(** X11: saving needs a store and a signed-in user.  In a session whose
    Firestore handle was never initialised, or in which no user signs in,
    nothing is ever saved, whatever results arrive. *)
Theorem nothing_saved_without_store_or_user (cfg : Config) (evs : list Event) :
  db cfg = false \/ signsIn evs = false ->
  saved (fst (run cfg evs initSession)) = [].
Proof.
  intros [Hdb | Hanon].
  - assert (H : forall ss, saved (fst (run cfg evs ss)) = saved (fst ss)).
    { induction evs as [| ev rest IH]; intros ss; [ reflexivity | ].
      cbn [run fold_left]. fold (run cfg rest (step cfg ev ss)).
      rewrite IH. now apply saved_step_nodb. }
    apply (H initSession).
  - assert (H : forall l ss, signsIn l = false -> anonymous ss ->
                  saved (fst (run cfg l ss)) = saved (fst ss)).
    { induction l as [| ev rest IH]; intros ss Hl Hss; [ reflexivity | ].
      cbn [signsIn existsb] in Hl. apply orb_false_iff in Hl. destruct Hl as [Hev Hrest].
      cbn [run fold_left]. fold (run cfg rest (step cfg ev ss)).
      rewrite IH; [ now apply saved_step_anonymous | exact Hrest | ].
      apply anonymous_step; [ | exact Hss ].
      destruct ev as [| tm | [uid |] | | | | text | env | env | env | env | renv | out tm];
        try exact I. discriminate. }
    apply (H evs initSession Hanon). split; [ reflexivity | exact I ].
Qed.

Lemma nothing_saved_without_store_or_user_witness :
  signsIn (firstRequest ++ [FetchSettled (answer 200 (Some hazardNoSteps)) "10:00:01"])
  = false
  /\ saved (fst (run cfgKey
                   (firstRequest ++ [FetchSettled (answer 200 (Some hazardNoSteps)) "10:00:01"])
                   initSession))
     = [].
Proof.
  split; [ reflexivity | ].
  exact (nothing_saved_without_store_or_user cfgKey
           (firstRequest ++ [FetchSettled (answer 200 (Some hazardNoSteps)) "10:00:01"])
           (or_intror eq_refl)).
Defined.

(** ** The demo pool *)

(** X12: the demo results rotate with period three, DANGER first, then
    UNCERTAIN, then SAFE, in every mode. *)
Theorem demo_rotation (mode : Mode) (step : nat) :
  getDemoResult mode (step + 3) = getDemoResult mode step
  /\ status (getDemoResult safety_check step)
     = Some (match Nat.modulo step 3 with
             | 0%nat => "DANGER"
             | 1%nat => "UNCERTAIN"
             | _ => "SAFE"
             end).
Proof.
  split.
  - unfold getDemoResult. cbn [demo List.length].
    replace (step + 3)%nat with (step + 1 * 3)%nat by lia.
    now rewrite Nat.Div0.mod_add.
  - unfold getDemoResult. cbn [demo List.length].
    pose proof (Nat.mod_upper_bound step 3 ltac:(discriminate)) as Hlt.
    destruct (Nat.modulo step 3) as [| [| [| k]]]; try reflexivity. lia.
Qed.

(** X13: a demo result never offers repair steps with a verdict other than
    SAFE: whenever its steps are not the empty array its status is SAFE and
    the steps are the five of the pool.  The diagnosis flavour keeps the
    verdict, the action and the steps of the safety flavour of the same
    step. *)
Theorem demo_steps_only_when_safe (mode : Mode) (step : nat) :
  (forall steps,
     repair_steps (getDemoResult mode step) = Some steps -> steps <> strings [] ->
     status (getDemoResult mode step) = Some "SAFE"
     /\ steps = strings demo_repair_steps)
  /\ status (getDemoResult diagnosis step) = status (getDemoResult safety_check step)
  /\ action_required (getDemoResult diagnosis step)
     = action_required (getDemoResult safety_check step)
  /\ repair_steps (getDemoResult diagnosis step)
     = repair_steps (getDemoResult safety_check step).
Proof.
  unfold getDemoResult.
  destruct (demo_pick step) as [-> | [-> | ->]].
  all: split; [ | repeat split ].
  all: intros steps Hs Hne; destruct mode; cbn in Hs; inversion Hs; subst;
    try contradiction; split; reflexivity.
Qed.

Lemma demo_steps_only_when_safe_witness :
  repair_steps (getDemoResult diagnosis 2) = Some (strings demo_repair_steps)
  /\ status (getDemoResult diagnosis 2) = Some "SAFE".
Proof.
  split; [ reflexivity | ].
  exact (proj1 (proj1 (demo_steps_only_when_safe diagnosis 2)
                  (strings demo_repair_steps) eq_refl ltac:(discriminate))).
Defined.

(** ** The status display *)

(** The header shows STANDBY, and the frame its neutral border, exactly
    when the safety state is none of DANGER, SAFE and UNCERTAIN; the three
    verdicts have their own labels. *)
Theorem status_display (s : App) :
  (getStatusText s = "STANDBY" <-> ~ knownVerdict (systemState s))
  /\ (getStatusColor s = "border-slate-800" <-> ~ knownVerdict (systemState s))
  /\ (getStatusText s = "HAZARD DETECTED" <-> systemState s = "DANGER")
  /\ (getStatusText s = "SYSTEM SECURE" <-> systemState s = "SAFE")
  /\ (getStatusText s = "ANALYSIS INCONCLUSIVE" <-> systemState s = "UNCERTAIN").
Proof.
  unfold getStatusText, getStatusColor, knownVerdict.
  destruct (String.eqb_spec (systemState s) "DANGER") as [-> | Hd];
    [ repeat split; intros; try discriminate; try tauto;
      match goal with H : ~ _ |- _ => exfalso; apply H; tauto end | ].
  destruct (String.eqb_spec (systemState s) "SAFE") as [-> | Hs];
    [ repeat split; intros; try discriminate; try tauto;
      match goal with H : ~ _ |- _ => exfalso; apply H; tauto end | ].
  destruct (String.eqb_spec (systemState s) "UNCERTAIN") as [-> | Hu];
    [ repeat split; intros; try discriminate; try tauto;
      match goal with H : ~ _ |- _ => exfalso; apply H; tauto end | ].
  repeat split; intros; try discriminate; try tauto.
Qed.

(** X14: a result that comes without a status (or with an empty one) and is
    handled outside the repair surface reads as UNCERTAIN: that is the safety
    state, the header says so, DIAGNOSE is disabled and the repair button is
    not shown. *)
Theorem missing_status_is_uncertain (cfg : Config) (usr : option string)
    (r : AnalysisResult) (mode : Mode) (skipSave : bool) (tm : string) (s : App) :
  truthy (status r) = false ->
  resultEntries mode r = 1%nat ->
  let s' := handleAnalysisResult cfg usr r mode skipSave tm s in
  systemState s' = "UNCERTAIN"
  /\ getStatusText s' = "ANALYSIS INCONCLUSIVE"
  /\ diagnoseDisabled s' = true
  /\ repairVisible s' = false.
Proof.
  intros Hst Hplain. cbv zeta.
  rewrite handleAnalysisResult_plain by exact Hplain.
  assert (Hor : or_else (status r) "UNCERTAIN" = "UNCERTAIN").
  { unfold truthy, or_else in *. destruct (status r) as [x |]; [ | reflexivity ].
    destruct (x =? "")%string; [ reflexivity | discriminate ]. }
  unfold getStatusText, diagnoseDisabled, repairVisible. fields. rewrite Hor.
  split; [ reflexivity | ]. split; [ reflexivity | ].
  split; [ cbn; apply orb_true_r | ].
  unfold is_str, truthy in *. destruct (status r) as [x |]; [ | apply andb_false_r ].
  destruct (String.eqb_spec x "SAFE") as [-> | _]; [ discriminate | apply andb_false_r ].
Qed.

Lemma missing_status_is_uncertain_witness :
  truthy (status noStatus) = false
  /\ resultEntries safety_check noStatus = 1%nat
  /\ systemState (handleAnalysisResult cfgKey None noStatus safety_check false
                    "10:00:00" safeApp)
     = "UNCERTAIN".
Proof.
  split; [ reflexivity | ]. split; [ reflexivity | ].
  exact (proj1 (missing_status_is_uncertain cfgKey None noStatus safety_check false
                  "10:00:00" safeApp eq_refl eq_refl)).
Defined.

(** X15: the status of a result is not checked against the three verdicts.
    A result whose status is some other non-empty text, handled outside the
    repair surface, becomes the safety state as it is: the header shows
    STANDBY, the state does not disable DIAGNOSE, and the repair button is
    not shown. *)
Theorem unknown_status_is_standby (cfg : Config) (usr : option string)
    (r : AnalysisResult) (st : string) (mode : Mode) (skipSave : bool)
    (tm : string) (s : App) :
  status r = Some st -> st <> "" -> ~ knownVerdict st ->
  resultEntries mode r = 1%nat ->
  let s' := handleAnalysisResult cfg usr r mode skipSave tm s in
  systemState s' = st
  /\ getStatusText s' = "STANDBY"
  /\ diagnoseDisabled s' = (negb (isStreamActive s) || analyzing s)%bool
  /\ repairVisible s' = false.
Proof.
  intros Hst Hne Hunknown Hplain. cbv zeta.
  rewrite handleAnalysisResult_plain by exact Hplain.
  assert (Hor : or_else (status r) "UNCERTAIN" = st).
  { rewrite Hst. cbn. destruct (String.eqb_spec st ""); [ contradiction | reflexivity ]. }
  unfold knownVerdict in Hunknown.
  unfold getStatusText, diagnoseDisabled, repairVisible. fields. rewrite Hor, Hst.
  destruct (String.eqb_spec st "DANGER"); [ tauto | ].
  destruct (String.eqb_spec st "SAFE"); [ tauto | ].
  destruct (String.eqb_spec st "UNCERTAIN"); [ tauto | ].
  split; [ reflexivity | ]. split; [ reflexivity | ].
  split; [ now rewrite !orb_false_r | ].
  cbn [is_str]. destruct (String.eqb_spec st "SAFE"); [ tauto | apply andb_false_r ].
Qed.

Lemma unknown_status_is_standby_witness :
  status oddStatus = Some "safe"
  /\ getStatusText (handleAnalysisResult cfgKey None oddStatus safety_check false
                      "10:00:00" initApp)
     = "STANDBY".
Proof.
  split; [ reflexivity | ].
  refine (proj1 (proj2 (unknown_status_is_standby cfgKey None oddStatus "safe"
                          safety_check false "10:00:00" initApp eq_refl _ _ eq_refl))).
  - discriminate.
  - intros [H | [H | H]]; discriminate.
Defined.

(** A session in which the repair button shows. *)
Lemma repair_button_only_when_safe_witness :
  repairVisible (fst (run cfgKey safeSession initSession)) = true
  /\ systemState (fst (run cfgKey safeSession initSession)) = "SAFE".
Proof.
  assert (H : repairVisible (fst (run cfgKey safeSession initSession)) = true)
    by reflexivity.
  split; [ exact H | ].
  exact (repair_button_only_when_safe cfgKey safeSession H).
Defined.

(** ** Frame capture *)

Lemma splitOn_free (c : ascii) (s : string) : freeOf c s -> splitOn c s = [s].
Proof.
  induction s as [| a r IH]; [ reflexivity | ].
  cbn [freeOf splitOn]. intros [Ha Hr]. now rewrite Ha, (IH Hr).
Qed.

Lemma splitOn_app (c : ascii) (h rest : string) :
  freeOf c h -> splitOn c (h ++ String c rest) = h :: splitOn c rest.
Proof.
  induction h as [| a r IH]; cbn [freeOf append splitOn].
  - intros _. now rewrite Ascii.eqb_refl.
  - intros [Ha Hr]. now rewrite Ha, (IH Hr).
Qed.

(** X17: [captureFrame] gives nothing while a ref is missing or the video
    reports a zero width or height, and nothing when the data URL has no
    comma; from a data URL made of a header, a comma and a payload (neither
    holding a comma) it gives exactly the payload.  It throws exactly when,
    with both refs set and a picture of some size, drawing on the canvas or
    encoding it throws. *)
Theorem captureFrame_payload (o : Optics) :
  (videoRef o = false \/ canvasRef o = false
   \/ videoWidth o = 0%N \/ videoHeight o = 0%N ->
   captureFrame o = capture_returns None)
  /\ (forall url,
        dataURL o = Some url -> freeOf comma url ->
        captureFrame o = capture_returns None)
  /\ (forall header payload,
        videoRef o = true -> canvasRef o = true ->
        videoWidth o <> 0%N -> videoHeight o <> 0%N ->
        dataURL o = Some (header ++ String comma payload)%string ->
        freeOf comma header -> freeOf comma payload ->
        captureFrame o = capture_returns (Some payload))
  /\ (captureFrame o = capture_throws
      <-> videoRef o = true /\ canvasRef o = true
          /\ videoWidth o <> 0%N /\ videoHeight o <> 0%N
          /\ dataURL o = None).
Proof.
  unfold captureFrame. split; [ | split; [ | split ] ].
  - intros H.
    destruct (videoRef o), (canvasRef o); cbn [negb orb]; try reflexivity.
    destruct H as [H | [H | [H | H]]]; try discriminate;
      rewrite H; cbn [N.eqb orb]; rewrite ?orb_true_r; reflexivity.
  - intros url -> Hfree. rewrite (splitOn_free _ _ Hfree).
    repeat branch; reflexivity.
  - intros header payload -> -> Hw Hh -> Hhead Hpay. cbn [negb orb].
    apply N.eqb_neq in Hw, Hh. rewrite Hw, Hh. cbn [orb].
    rewrite (splitOn_app _ _ _ Hhead), (splitOn_free _ _ Hpay). reflexivity.
  - destruct (videoRef o), (canvasRef o); cbn [negb orb];
      try (split; [ discriminate | intros (? & ? & _); discriminate ]).
    destruct (N.eqb_spec (videoWidth o) 0) as [Hw | Hw]; cbn [orb].
    { split; [ discriminate | ]. intros (_ & _ & Hne & _). contradiction. }
    destruct (N.eqb_spec (videoHeight o) 0) as [Hh | Hh].
    { split; [ discriminate | ]. intros (_ & _ & _ & Hne & _). contradiction. }
    destruct (dataURL o) as [url |].
    + split; [ discriminate | ]. intros (_ & _ & _ & _ & H). discriminate.
    + split; [ auto | reflexivity ].
Qed.

Lemma captureFrame_payload_witness :
  captureFrame readyOptics = capture_returns (Some "/9j/4AAQSkZJRg==").
Proof.
  refine (proj1 (proj2 (proj2 (captureFrame_payload readyOptics)))
            "data:image/jpeg;base64" "/9j/4AAQSkZJRg=="
            eq_refl eq_refl _ _ eq_refl _ _).
  - discriminate.
  - discriminate.
  - vm_compute. repeat split.
  - vm_compute. repeat split.
Defined.

(** ** Reports over a session *)

Lemma generatingReport_handleAnalysisResult (cfg : Config) (usr : option string)
    (r : AnalysisResult) (mode : Mode) (skipSave : bool) (tm : string) (s : App) :
  generatingReport (handleAnalysisResult cfg usr r mode skipSave tm s)
  = generatingReport s.
Proof.
  destruct (handleAnalysisResult_cases cfg usr r mode skipSave tm s)
    as [(steps & ->) | ->]; reflexivity.
Qed.

Lemma generatingReport_addLog (src msg typ tm : string) (s : App) :
  generatingReport (addLog src msg typ tm s) = generatingReport s.
Proof. rewrite addLog_eq. reflexivity. Qed.

Lemma generatingReport_start (cfg : Config) (env : Env) (mode : Mode) (ctx : string)
    (s : App) :
  generatingReport (fst (callOmniTech_start cfg env mode ctx s)) = generatingReport s.
Proof.
  unfold callOmniTech_start.
  destruct (canCallNow (now_guard env) (guard s)) as [g1 v].
  destruct (negb (ok v)); [ reflexivity | ].
  destruct (negb (truthy (API_KEY cfg))); cbn [fst].
  { change (generatingReport (finishCall ?x)) with (generatingReport x).
    rewrite generatingReport_handleAnalysisResult.
    change (generatingReport (setDemoStep ?n ?x)) with (generatingReport x).
    now rewrite generatingReport_addLog. }
  destruct (captureFrame (optics env)) as [| imageBase64]; [ reflexivity | ].
  destruct (negb (truthy imageBase64)); cbn [fst]; [ | reflexivity ].
  change (generatingReport (finishCall ?x)) with (generatingReport x).
  now rewrite generatingReport_addLog.
Qed.

Lemma generatingReport_resume (cfg : Config) (p : Pending) (out : FetchOutcome)
    (tm : string) (s : App) :
  generatingReport (callOmniTech_resume cfg p out tm s) = generatingReport s.
Proof.
  destruct (parsedResult out) as [r |] eqn:Hparsed.
  - rewrite (resume_parsed _ _ _ _ _ _ Hparsed).
    change (generatingReport (finishCall ?x)) with (generatingReport x).
    change (generatingReport (setUserContext ?n ?x)) with (generatingReport x).
    apply generatingReport_handleAnalysisResult.
  - destruct (match out with
              | fetch_resolves r => resp_status r =? 429
              | fetch_throws => false
              end) eqn:H429.
    + destruct out as [| response]; [ discriminate | ].
      unfold callOmniTech_resume. rewrite H429. cbn [DEMO_MODE].
      change (generatingReport (finishCall ?x)) with (generatingReport x).
      change (generatingReport (setToast ?n ?x)) with (generatingReport x).
      rewrite generatingReport_handleAnalysisResult.
      change (generatingReport (setDemoStep ?n ?x)) with (generatingReport x).
      now rewrite !generatingReport_addLog.
    + destruct (resume_failed cfg p out tm s Hparsed H429) as [msg ->].
      change (generatingReport (finishCall ?x)) with (generatingReport x).
      apply generatingReport_addLog.
Qed.

Lemma generatingReport_step (cfg : Config) (ev : Event) (ss : Session) :
  generatingReport (fst (step cfg ev ss)) = generatingReport (fst ss).
Proof.
  destruct ss as [s pend]. cbn [fst]. unfold step.
  destruct ev as [| tm | u | | | | text | env | env | env | env | renv | out tm];
    cbn [fst]; try reflexivity.
  - destruct (safetyDisabled s); [ reflexivity | ].
    now rewrite fst_suspend, generatingReport_start.
  - destruct (diagnoseDisabled s); [ reflexivity | ].
    now rewrite fst_suspend, generatingReport_start.
  - destruct (repairVisible s); [ | reflexivity ].
    now rewrite fst_suspend, generatingReport_start.
  - rewrite fst_suspend. unfold submitTextDiagnosis.
    destruct (trim (userContext s) =? "")%string; [ reflexivity | ].
    pose proof (generatingReport_start cfg env diagnosis (trim (userContext s))
                  (setToast (Some (mkToast "Context sent." toast_success)) s)) as H.
    destruct (callOmniTech_start _ _ _ _ _) as [s2 q]. exact H.
  - destruct (reportDisabled s); [ reflexivity | ].
    cbn [fst]. rewrite generateFieldReport_local.
    destruct (Nat.eqb _ 0); [ reflexivity | ]. now rewrite generatingReport_addLog.
  - destruct pend as [p |]; [ | reflexivity ].
    cbn [fst]. apply generatingReport_resume.
Qed.

(** X18: with [DEMO_MODE] set the report never goes to the network, so
    [generatingReport] is never on: in every session the Report button is
    enabled exactly when the log holds at least two entries. *)
Theorem report_button_needs_two_entries (cfg : Config) (evs : list Event) :
  let s := fst (run cfg evs initSession) in
  generatingReport s = false
  /\ reportDisabled s = Nat.ltb (List.length (logs s)) 2.
Proof.
  cbv zeta.
  assert (H : forall ss, generatingReport (fst (run cfg evs ss))
                         = generatingReport (fst ss)).
  { induction evs as [| ev rest IH]; intros ss; [ reflexivity | ].
    cbn [run fold_left]. fold (run cfg rest (step cfg ev ss)).
    now rewrite IH, generatingReport_step. }
  specialize (H initSession). cbn [initSession fst] in H.
  change (generatingReport initApp) with false in H.
  split; [ exact H | ]. unfold reportDisabled. rewrite H. apply orb_false_r.
Qed.

(** X19: a report is itself logged, so it shows in the next one: generating
    two reports in a row from a log that is not empty, the second document
    lists the entry the first one wrote. *)
Theorem second_report_lists_the_first (cfg : Config) (renv1 renv2 : ReportEnv)
    (s : App) :
  (1 <= List.length (logs s))%nat ->
  let s1 := generateFieldReport cfg renv1 s in
  let s2 := generateFieldReport cfg renv2 s1 in
  logs s1 = reportLog (report_clock renv1) :: logs s
  /\ generatedReport s2 = Some (localReport (stamp renv2) (logs s1))
  /\ contains (localReport (stamp renv2) (logs s1))
       (message (reportLog (report_clock renv1))).
Proof.
  intros Hlen. cbv zeta.
  assert (Hs1 : logs (generateFieldReport cfg renv1 s)
                = reportLog (report_clock renv1) :: logs s).
  { rewrite generateFieldReport_local.
    destruct (Nat.eqb_spec (List.length (logs s)) 0) as [H0 | _]; [ lia | ].
    now rewrite logs_addLog. }
  split; [ exact Hs1 | ]. split.
  - rewrite (generateFieldReport_local cfg renv2). rewrite Hs1 at 1.
    cbn [List.length Nat.eqb]. rewrite addLog_info by reflexivity. reflexivity.
  - apply localReport_contains. rewrite Hs1. now left.
Qed.

Lemma second_report_lists_the_first_witness :
  (1 <= List.length (logs oneEntryApp))%nat
  /\ contains
       (localReport (stamp reportEnv)
          (logs (generateFieldReport cfgKey reportEnv oneEntryApp)))
       "Local report generated (demo / no-quota mode).".
Proof.
  split; [ cbn; lia | ].
  refine (proj2 (proj2 (second_report_lists_the_first cfgKey reportEnv reportEnv
                          oneEntryApp _))).
  cbn; lia.
Defined.

(** ** Failures and the verdict *)

(** X20: a request that fails (it is neither answered 429 nor brings a
    genuine result) never touches the verdict: the safety state, the analysis
    on display, the repair surface, the demo counter and the store are as
    before; what the failure leaves is one ERROR entry and its error toast. *)
Theorem failure_keeps_verdict (cfg : Config) (p : Pending) (out : FetchOutcome)
    (tm : string) (s : App) :
  parsedResult out = None ->
  match out with fetch_resolves r => resp_status r =? 429 | fetch_throws => false end
  = false ->
  let s' := callOmniTech_resume cfg p out tm s in
  systemState s' = systemState s
  /\ currentAnalysis s' = currentAnalysis s
  /\ repairSteps s' = repairSteps s
  /\ showRepairModal s' = showRepairModal s
  /\ demoStep s' = demoStep s
  /\ saved s' = saved s
  /\ spoken s' = spoken s
  /\ exists msg,
       logs s' = mkLog "ERROR" msg tm :: logs s
       /\ toast s' = Some (mkToast msg toast_error).
Proof.
  intros Hparsed H429. cbv zeta.
  destruct (resume_failed cfg p out tm s Hparsed H429) as [msg ->].
  rewrite addLog_error. fields. repeat split. exists msg. split; reflexivity.
Qed.

Lemma failure_keeps_verdict_witness :
  parsedResult (answer 500 None) = None
  /\ systemState (callOmniTech_resume cfgKey (mkPending diagnosis 0 None)
                    (answer 500 None) "10:00:01" safeApp)
     = "SAFE".
Proof.
  split; [ reflexivity | ].
  exact (proj1 (failure_keeps_verdict cfgKey (mkPending diagnosis 0 None)
                  (answer 500 None) "10:00:01" safeApp eq_refl eq_refl)).
Defined.

Lemma doc_get_assign (k k' : string) (v : DocValue) (o : list (string * DocValue)) :
  doc_get k (assign k' v o) = if (k' =? k)%string then Some v else doc_get k o.
Proof.
  induction o as [| [k0 v0] rest IH]; cbn [assign doc_get].
  - destruct (k' =? k)%string; reflexivity.
  - destruct (String.eqb_spec k0 k') as [-> | Hne]; cbn [doc_get].
    + destruct (k' =? k)%string; reflexivity.
    + rewrite IH. destruct (String.eqb_spec k0 k) as [-> | Hk]; [ | reflexivity ].
      destruct (String.eqb_spec k' k) as [-> | _]; [ congruence | reflexivity ].
Qed.

(** A spread overwrites: a property of the source wins over one of the same
    name that is there already. *)
Lemma doc_get_spread (k : string) (src : list (string * Json)) :
  forall o,
    doc_get k (spread src o)
    = match member k src with
      | Some v => Some (plain v)
      | None => doc_get k o
      end.
Proof.
  unfold spread.
  induction src as [| [k' v] rest IH]; intros o; cbn [fold_left member fst snd].
  - reflexivity.
  - rewrite IH. destruct (member k rest); [ reflexivity | ].
    rewrite doc_get_assign. destruct (k' =? k)%string; reflexivity.
Qed.

Lemma member_app (k : string) (a b : list (string * Json)) :
  member k (a ++ b)
  = match member k b with
    | Some w => Some w
    | None => member k a
    end.
Proof.
  induction a as [| [k' v] rest IH]; cbn [app member].
  - destruct (member k b); reflexivity.
  - rewrite IH. destruct (member k b); reflexivity.
Qed.

(** A member of a result under a name other than the five of the format is
    one of its extras. *)
Lemma member_properties (k : string) (r : AnalysisResult) :
  (k =? "status")%string = false -> (k =? "headline")%string = false ->
  (k =? "reasoning")%string = false -> (k =? "action_required")%string = false ->
  (k =? "repair_steps")%string = false ->
  member k (properties r) = member k (extras r).
Proof.
  intros H1 H2 H3 H4 H5. unfold properties. rewrite !member_app.
  destruct (member k (extras r)); [ reflexivity | ].
  rewrite String.eqb_sym in H1, H2, H3, H4, H5.
  destruct (status r), (headline r), (reasoning r), (action_required r),
    (repair_steps r); cbn [optional member];
    rewrite ?H1, ?H2, ?H3, ?H4, ?H5; reflexivity.
Qed.

(** What [addDoc] is given for a result: the call's mode and the server
    timestamp, unless the result has members of these names. *)
Lemma safetyEvent_mode (uid : string) (mode : Mode) (r : AnalysisResult) :
  doc_get "mode" (doc_data (safetyEvent uid mode r))
  = Some (match member "mode" (extras r) with
          | Some v => plain v
          | None => plain (JStr (mode_name mode))
          end)
  /\ doc_get "timestamp" (doc_data (safetyEvent uid mode r))
     = Some (match member "timestamp" (extras r) with
             | Some v => plain v
             | None => serverTimestamp
             end).
Proof.
  unfold safetyEvent. cbn [doc_data]. rewrite !doc_get_spread.
  rewrite !member_properties by reflexivity.
  split; destruct (member _ (extras r)); reflexivity.
Qed.

(** X21: a result is saved for the user of the render that started the
    call, not for the user of the moment it arrives: whatever the
    continuation adds to the store is the document of a genuine result under
    the uid the suspended call holds, and when nobody was signed in at the
    start nothing is saved, even if someone has signed in since.  The mode
    written is the mode of the call, unless the result brings a member
    called mode: the spread comes last, so that member is what the document
    holds; a member called timestamp replaces the server timestamp in the
    same way. *)
Theorem saved_under_starting_user (cfg : Config) (p : Pending)
    (out : FetchOutcome) (tm : string) (s : App) :
  (p_user p = None -> saved (callOmniTech_resume cfg p out tm s) = saved s)
  /\ (forall d, In d (saved (callOmniTech_resume cfg p out tm s)) ->
        In d (saved s)
        \/ exists r,
             parsedResult out = Some r
             /\ p_user p = Some (doc_uid d)
             /\ d = safetyEvent (doc_uid d) (p_mode p) r
             /\ doc_get "mode" (doc_data d)
                = Some (match member "mode" (extras r) with
                        | Some v => plain v
                        | None =>
                            plain (JStr (match p_mode p with
                                         | safety_check => "safety_check"
                                         | diagnosis => "diagnosis"
                                         | repair_guide => "repair_guide"
                                         end))
                        end)
             /\ doc_get "timestamp" (doc_data d)
                = Some (match member "timestamp" (extras r) with
                        | Some v => plain v
                        | None => serverTimestamp
                        end)).
Proof.
  destruct (saved_resume cfg p out tm s) as [H | (uid & r & Hr & Hu & H)]; rewrite H.
  - split; [ reflexivity | intros d Hd; now left ].
  - split; [ intros Hnone; congruence | ].
    intros d [<- | Hd]; [ right | now left ].
    exists r. cbn [doc_uid safetyEvent].
    split; [ exact Hr | ]. split; [ exact Hu | ]. split; [ reflexivity | ].
    apply (safetyEvent_mode uid (p_mode p) r).
Qed.

Lemma saved_under_starting_user_witness :
  saved (callOmniTech_resume cfgKey (mkPending safety_check 0 None)
           (answer 200 (Some hazardNoSteps)) "10:00:01"
           (setUser (Some "uid-1") initApp))
  = [].
Proof.
  exact (proj1 (saved_under_starting_user cfgKey (mkPending safety_check 0 None)
                  (answer 200 (Some hazardNoSteps)) "10:00:01"
                  (setUser (Some "uid-1") initApp)) eq_refl).
Defined.

(** A result with a mode member of its own is filed under that mode. *)
Example result_mode_overwrites :
  map (fun d => (doc_uid d, doc_get "mode" (doc_data d)))
    (saved (callOmniTech_resume cfgKey (mkPending safety_check 0 (Some "uid-1"))
              (answer 200 (Some modeResult)) "10:00:01" initApp))
  = [("uid-1", Some (plain (JStr "override")))].
Proof. reflexivity. Qed.

(** ** The context input *)

(** X22: Enter on an input that holds only white space (the white space
    of [String.prototype.trim], which is what [trim] leaves nothing of) does
    nothing at all; on any other input it empties the box whatever becomes
    of the call: when the guard turns the call away no request goes out and
    nothing is logged, the toast is the guard's reason, and the typed text
    is gone. *)
Theorem submit_clears_context (cfg : Config) (env : Env) (s : App) :
  (trim (userContext s) = "" <-> onlyWhiteSpace (userContext s))
  /\ (onlyWhiteSpace (userContext s) -> submitTextDiagnosis cfg env s = (s, None))
  /\ (~ onlyWhiteSpace (userContext s) ->
      userContext (fst (submitTextDiagnosis cfg env s)) = ""
      /\ (ok (snd (canCallNow (now_guard env) (guard s))) = false ->
          snd (submitTextDiagnosis cfg env s) = None
          /\ fetched (fst (submitTextDiagnosis cfg env s)) = fetched s
          /\ logs (fst (submitTextDiagnosis cfg env s)) = logs s
          /\ toast (fst (submitTextDiagnosis cfg env s))
             = Some (mkToast
                       (or_else (reason (snd (canCallNow (now_guard env) (guard s)))) "")
                       toast_error))).
Proof.
  split; [ apply trim_onlyWhiteSpace | ].
  unfold submitTextDiagnosis. split.
  - intros Hwhite. apply trim_onlyWhiteSpace in Hwhite. rewrite Hwhite. reflexivity.
  - intros Hne. rewrite <- trim_onlyWhiteSpace in Hne.
    destruct (String.eqb_spec (trim (userContext s)) "") as [E | _]; [ contradiction | ].
    split.
    + destruct (callOmniTech_start _ _ _ _ _) as [s2 q]. reflexivity.
    + intros Hok. unfold callOmniTech_start.
      change (guard (setToast ?t ?x)) with (guard x).
      destruct (canCallNow (now_guard env) (guard s)) as [g1 v]. cbn [snd] in Hok.
      rewrite Hok. cbn [negb fst snd]. repeat split.
Qed.

Lemma submit_clears_context_witness :
  ~ onlyWhiteSpace
      (userContext (setUserContext "fan does not spin"
                      (fst (callOmniTech_start cfgKey (envAt 1000000) safety_check ""
                              initApp))))
  /\ userContext
       (fst (submitTextDiagnosis cfgKey (envAt 1000500)
               (setUserContext "fan does not spin"
                  (fst (callOmniTech_start cfgKey (envAt 1000000) safety_check ""
                          initApp)))))
     = "".
Proof.
  assert (H : ~ onlyWhiteSpace
                (userContext (setUserContext "fan does not spin"
                                (fst (callOmniTech_start cfgKey (envAt 1000000)
                                        safety_check "" initApp))))).
  { intros Hwhite. apply trim_onlyWhiteSpace in Hwhite. discriminate Hwhite. }
  split; [ exact H | ].
  exact (proj1 (proj2 (proj2 (submit_clears_context cfgKey (envAt 1000500)
                                (setUserContext "fan does not spin"
                                   (fst (callOmniTech_start cfgKey (envAt 1000000)
                                           safety_check "" initApp))))) H)).
Defined.

(** White space is recognised by code point: an input of no-break spaces
    (U+00A0) and blanks is empty for [trim], Enter does nothing on it, and a
    click sends the default text. *)
Example submit_ignores_nbsp :
  trim (nbsp ++ " " ++ nbsp) = ""
  /\ trim (nbsp ++ " fan does not spin " ++ nbsp) = "fan does not spin"
  /\ submitTextDiagnosis cfgKey (envAt 1000000)
       (setUserContext (nbsp ++ " " ++ nbsp) initApp)
     = (setUserContext (nbsp ++ " " ++ nbsp) initApp, None)
  /\ fetched (fst (callOmniTech_start cfgKey (envAt 1000000) safety_check ""
                     (setUserContext (nbsp ++ " " ++ nbsp) initApp)))
     = [AnalyzeCall (mkRequest safety_check (systemInstruction safety_check)
                       "Analyze this scene." "frame")].
Proof. repeat split. Qed.
